(** * CSV uploader samples: a shallow embedding and its properties

    The development follows [csv_uploader.py] (with the older
    [csv-uploader.py] and the companion [csv-unique-count.py] where they
    differ).  Python strings are modelled as [string] (characters are code
    points below 256), lists as [list], dictionaries as association lists
    that keep insertion order, and loops that may run forever take fuel. *)

From Stdlib Require Import ZArith Lia Ascii String Sorted.
From stdpp Require Import base tactics option list strings pretty.

Local Open Scope string_scope.
Local Open Scope list_scope.

(* ===================================================================== *)
(** * Definitions                                                          *)
(* ===================================================================== *)

(** ** Python strings *)

Module PyStr.

(** [str.isspace] on the code points below 256: TAB..CR, FS..US, SPACE,
    NEL and NBSP. *)
Definition isspace (c : ascii) : bool :=
  let n := nat_of_ascii c in
  (Nat.leb 9 n && Nat.leb n 13) || (Nat.leb 28 n && Nat.leb n 32)
  || Nat.eqb n 133 || Nat.eqb n 160.

Fixpoint lstrip (s : string) : string :=
  match s with
  | String c s' => if isspace c then lstrip s' else s
  | EmptyString => EmptyString
  end.

Fixpoint rstrip (s : string) : string :=
  match s with
  | EmptyString => EmptyString
  | String c s' =>
      match rstrip s' with
      | EmptyString => if isspace c then EmptyString else String c EmptyString
      | r => String c r
      end
  end.

(** [s.strip()] *)
Definition strip (s : string) : string := rstrip (lstrip s).

(** [s.replace(old, new)] for one-character [old] and [new]. *)
Fixpoint replace (old new : ascii) (s : string) : string :=
  match s with
  | EmptyString => EmptyString
  | String c s' => String (if Ascii.eqb c old then new else c) (replace old new s')
  end.

(** [s.startswith(c)] for a one-character prefix. *)
Definition startswith (s : string) (c : ascii) : bool :=
  match s with
  | String d _ => Ascii.eqb d c
  | EmptyString => false
  end.

(** [s[1:]] *)
Definition tail (s : string) : string :=
  match s with
  | String _ s' => s'
  | EmptyString => EmptyString
  end.

(** ['\n'.join(l)] and friends. *)
Fixpoint join (sep : string) (l : list string) : string :=
  match l with
  | [] => ""
  | [x] => x
  | x :: rest => x +:+ sep +:+ join sep rest
  end.

(** [c * k] *)
Fixpoint repeat (c : ascii) (k : nat) : string :=
  match k with
  | O => EmptyString
  | S k' => String c (repeat c k')
  end.

(** Every character of [s] is [c]. *)
Fixpoint all_char (c : ascii) (s : string) : bool :=
  match s with
  | EmptyString => true
  | String d s' => Ascii.eqb d c && all_char c s'
  end.

(** Number of leading occurrences of [c], and what follows them. *)
Fixpoint leading (c : ascii) (s : string) : nat :=
  match s with
  | String d s' => if Ascii.eqb d c then S (leading c s') else O
  | EmptyString => O
  end.

Fixpoint after_leading (c : ascii) (s : string) : string :=
  match s with
  | String d s' => if Ascii.eqb d c then after_leading c s' else s
  | EmptyString => EmptyString
  end.

(** [s] has a first character, and it is not white space. *)
Definition starts_nonspace (s : string) : bool :=
  match s with
  | String d _ => negb (isspace d)
  | EmptyString => false
  end.

End PyStr.

(** ** Python values, exceptions and outcomes *)

(** The values that reach the uploader: CSV cells, JSON field definitions
    and the results of [ast.literal_eval].  A float is kept as its literal
    text; no floating-point arithmetic is modelled.  A dictionary key is a
    string or [None] ([csv.DictReader]'s default [restkey]). *)
#[warnings="-register-all"]
Inductive pyval : Type :=
| PyNone
| PyBool (b : bool)
| PyInt (z : Z)
| PyFloat (literal : string)
| PyString (s : string)
| PyList (l : list pyval)
| PyDict (d : list (option string * pyval)).

Inductive exn : Type :=
| UnicodeDecodeError (reason : string)
| CsvError (reason : string)
| TypeError (reason : string)
| AttributeError (reason : string)
| KeyError (key : string)
| NameError (name : string)
| ValueError (reason : string)
| SyntaxError (reason : string)
| RuntimeError (reason : string)
| FieldError (msg : string)
| HTTPError (status : Z)
| JSONDecodeError.

(** How a piece of code ends: it returns, it raises, or it is still
    running when the fuel is spent. *)
Inductive outcome (A : Type) : Type :=
| Returns (a : A)
| Raises (e : exn)
| Diverges.
Arguments Returns {A} a.
Arguments Raises {A} e.
Arguments Diverges {A}.

(** ** CsvExtractor.__init__ *)

Inductive Encoding := utf_8_sig | utf_8 | iso_8859_1 | ascii_enc.

(** [csv_uploader.py] and [csv-unique-count.py], line 44 / 18. *)
Definition ENCODINGS : list Encoding := [utf_8_sig; utf_8; iso_8859_1; ascii_enc].
(** [csv-uploader.py], line 29. *)
Definition ENCODINGS_v1 : list Encoding := [utf_8; iso_8859_1; ascii_enc].

(** What opening the file with one encoding and running [csv.reader] over
    all of it gives: the decoder fails, the reader fails, or the rows. *)
Inductive read_result :=
| DecodeFailure (reason : string)
| ReadFailure (e : exn)
| Rows (rows : list (list string)).

(** A file, as far as the extractor can see it. *)
Definition file := Encoding -> read_result.

(** [csv.DictReader.fieldnames] once the reader was iterated to the end:
    the names given to the constructor, else the first row, else [None]. *)
Definition dictreader_fieldnames (given : option (list pyval))
    (rows : list (list string)) : option (list pyval) :=
  match given with
  | Some names => Some names
  | None => match rows with
            | [] => None
            | r :: _ => Some (PyString <$> r)
            end
  end.

(** Line 56: [x.strip().replace('.', '_')]; only a string has [strip]. *)
Definition clean_name (x : pyval) : outcome string :=
  match x with
  | PyString s => Returns (PyStr.replace "." "_" (PyStr.strip s))
  | _ => Raises (AttributeError "strip")
  end.

Fixpoint clean_names (l : list pyval) : outcome (list string) :=
  match l with
  | [] => Returns []
  | x :: rest =>
      match clean_name x with
      | Returns s =>
          match clean_names rest with
          | Returns ss => Returns (s :: ss)
          | Raises e => Raises e
          | Diverges => Diverges
          end
      | Raises e => Raises e
      | Diverges => Diverges
      end
  end.

(** Lines 59-61: [while fieldnames[i].startswith('_'):
    fieldnames[i] = fieldnames[i][1:] + "_"].  [None] when the fuel runs
    out with the condition still true. *)
Fixpoint while_rotate (fuel : nat) (i : nat) (fieldnames : list string)
    : option (list string) :=
  match fieldnames !! i with
  | None => Some fieldnames
  | Some name =>
      if PyStr.startswith name "_" then
        match fuel with
        | O => None
        | S fuel' =>
            while_rotate fuel' i (<[i := PyStr.tail name +:+ "_"]> fieldnames)
        end
      else Some fieldnames
  end.

(** Line 58: [for i in range(len(self.fieldnames))]. *)
Fixpoint for_rotate (fuel : nat) (indices : list nat) (fieldnames : list string)
    : option (list string) :=
  match indices with
  | [] => Some fieldnames
  | i :: rest =>
      match while_rotate fuel i fieldnames with
      | Some fieldnames' => for_rotate fuel rest fieldnames'
      | None => None
      end
  end.

Definition rotate_fieldnames (fuel : nat) (fieldnames : list string)
    : option (list string) :=
  for_rotate fuel (seq 0 (length fieldnames)) fieldnames.

(** [csv-unique-count.py], lines 32-35: one [if] where the uploader has a
    [while], so a single underscore is moved. *)
Definition rotate_once (name : string) : string :=
  if PyStr.startswith name "_" then PyStr.tail name +:+ "_" else name.

(** The three scripts share the constructor up to two points: which
    exceptions the [try] catches and how leading underscores are moved. *)
Inductive script := csv_uploader | csv_uploader_v1 | csv_unique_count.

(** [csv-uploader.py] has [except Exception], the others
    [except UnicodeDecodeError]. *)
Definition catches_all (v : script) : bool :=
  match v with csv_uploader_v1 => true | _ => false end.

Definition encodings_of (v : script) : list Encoding :=
  match v with csv_uploader_v1 => ENCODINGS_v1 | _ => ENCODINGS end.

Definition move_underscores (v : script) (fuel : nat) (names : list string)
    : option (list string) :=
  match v with
  | csv_uploader => rotate_fieldnames fuel names
  | csv_uploader_v1 => Some names
  | csv_unique_count => Some (rotate_once <$> names)
  end.

(** Lines 74-76: [if not field: self.fieldnames[ii] = 'Column_%d' % ii]. *)
Fixpoint fill_empty (ii : nat) (fieldnames : list string) : list string :=
  match fieldnames with
  | [] => []
  | field :: rest =>
      (if String.eqb field "" then "Column_" +:+ pretty ii else field)
        :: fill_empty (S ii) rest
  end.

(** The attributes of the object under construction; an attribute is
    [None] until its assignment has run. *)
Record CsvExtractor := {
  primary_key : string;
  fields : option (list pyval);
  encoding : option Encoding;
  fieldnames : option (list string);
}.

Definition set_encoding (enc : Encoding) (self : CsvExtractor) : CsvExtractor :=
  {| primary_key := primary_key self; fields := fields self;
     encoding := Some enc; fieldnames := fieldnames self |}.

Definition set_fieldnames (names : list string) (self : CsvExtractor) : CsvExtractor :=
  {| primary_key := primary_key self; fields := fields self;
     encoding := encoding self; fieldnames := Some names |}.

(** Lines 44-68, the body of the [for] loop over the encodings.  The
    second component is the local [exception] when the loop is left. *)
Fixpoint for_encodings (v : script) (fuel : nat) (f : file)
    (encodings : list Encoding) (exception : option exn) (self : CsvExtractor)
    : CsvExtractor * outcome (option exn) :=
  match encodings with
  | [] => (self, Returns exception)
  | enc :: rest =>
      let handler (e : exn) (self' : CsvExtractor) :=
        if catches_all v then for_encodings v fuel f rest (Some e) self'
        else (self', Raises e) in
      match f enc with
      | DecodeFailure reason =>
          for_encodings v fuel f rest (Some (UnicodeDecodeError reason)) self
      | ReadFailure e => handler e self
      | Rows rows =>
          let self1 := set_encoding enc self in
          match dictreader_fieldnames (fields self) rows with
          | None => handler (TypeError "'NoneType' object is not iterable") self1
          | Some header =>
              match clean_names header with
              | Raises e => handler e self1
              | Diverges => (self1, Diverges)
              | Returns names =>
                  let self2 := set_fieldnames names self1 in
                  match move_underscores v fuel names with
                  | None => (self2, Diverges)
                  | Some names' => (set_fieldnames names' self2, Returns None)
                  end
              end
          end
      end
  end.

(** Lines 39-42: [self.fields = [field['field'] for field in fields]]. *)
Definition dict_get (k : option string) (d : list (option string * pyval))
    : option pyval :=
  snd <$> List.find (fun kv => bool_decide (fst kv = k)) d.

Fixpoint field_column (flds : list pyval) : outcome (list pyval) :=
  match flds with
  | [] => Returns []
  | PyDict d :: rest =>
      match dict_get (Some "field") d with
      | None => Raises (KeyError "field")
      | Some v =>
          match field_column rest with
          | Returns vs => Returns (v :: vs)
          | other => other
          end
      end
  | _ :: _ => Raises (TypeError "subscript")
  end.

(** [if fields: ... else: self.fields = None]; an empty list is false. *)
Definition explicit_names (flds : option (list pyval)) : outcome (option (list pyval)) :=
  match flds with
  | Some ((_ :: _) as l) =>
      match field_column l with
      | Returns vs => Returns (Some vs)
      | Raises e => Raises e
      | Diverges => Diverges
      end
  | _ => Returns None
  end.

(** [CsvExtractor.__init__] of the script [v].  The companion tool takes
    no primary key and no field definitions. *)
Definition init_of (v : script) (fuel : nat) (f : file) (pk : string) (flds : option (list pyval))
    : CsvExtractor * outcome unit :=
  let self0 := {| primary_key := pk; fields := None;
                  encoding := None; fieldnames := None |} in
  match explicit_names flds with
  | Raises e => (self0, Raises e)
  | Diverges => (self0, Diverges)
  | Returns fs =>
      let self := {| primary_key := pk; fields := fs;
                     encoding := None; fieldnames := None |} in
      match for_encodings v fuel f (encodings_of v) None self with
      | (self', Returns (Some e)) => (self', Raises e)
      | (self', Returns None) =>
          match fieldnames self' with
          | Some names => (set_fieldnames (fill_empty 0 names) self', Returns tt)
          | None => (self', Raises (AttributeError "fieldnames"))
          end
      | (self', Raises e) => (self', Raises e)
      | (self', Diverges) => (self', Diverges)
      end
  end.

Definition init := init_of csv_uploader.

(** Field-name normalization of one name: what lines 56-61 leave in the
    only column of a one-column header. *)
Definition normalize_name (fuel : nat) (name : string) : option string :=
  match rotate_fieldnames fuel [PyStr.replace "." "_" (PyStr.strip name)] with
  | Some [name'] => Some name'
  | _ => None
  end.

(** ** Identifiers: [uuid.uuid1] and [_make_id] *)

Module Uuid.

(** Number of 100-ns intervals between 1582-10-15 and 1970-01-01. *)
Definition EPOCH_OFFSET : Z := 0x01b21dd213814000.

(** The module state of [uuid]: [_last_timestamp], and how many times
    the clock has been read. *)
Record clock := { last_timestamp : option Z; reads : nat }.

(** [UUID(fields=(time_low, time_mid, time_hi_version,
    clock_seq_hi_variant, clock_seq_low, node), version=1).int] *)
Definition of_fields (time_low time_mid time_hi_version
    clock_seq_hi_variant clock_seq_low node : Z) : Z :=
  let clock_seq := Z.lor (Z.shiftl clock_seq_hi_variant 8) clock_seq_low in
  let int := Z.lor (Z.lor (Z.lor (Z.lor (Z.shiftl time_low 96)
                                        (Z.shiftl time_mid 80))
                                 (Z.shiftl time_hi_version 64))
                          (Z.shiftl clock_seq 48))
                   node in
  (* set the variant to RFC 4122 *)
  let int := Z.land int (Z.lnot (Z.shiftl 0xc000 48)) in
  let int := Z.lor int (Z.shiftl 0x8000 48) in
  (* set the version number *)
  let int := Z.land int (Z.lnot (Z.shiftl 0xf000 64)) in
  Z.lor int (Z.shiftl 1 76).

(** The fields [uuid1] cuts out of a timestamp and a clock sequence. *)
Definition of_time (timestamp clock_seq node : Z) : Z :=
  let time_low := Z.land timestamp 0xffffffff in
  let time_mid := Z.land (Z.shiftr timestamp 32) 0xffff in
  let time_hi_version := Z.land (Z.shiftr timestamp 48) 0x0fff in
  let clock_seq_low := Z.land clock_seq 0xff in
  let clock_seq_hi_variant := Z.land (Z.shiftr clock_seq 8) 0x3f in
  of_fields time_low time_mid time_hi_version
            clock_seq_hi_variant clock_seq_low node.

(** The timestamp [uuid1] uses: the clock reading, pushed past the
    timestamp of the previous call when the clock has not advanced. *)
Definition next_timestamp (nanoseconds : Z) (last : option Z) : Z :=
  let timestamp := (nanoseconds / 100 + EPOCH_OFFSET)%Z in
  match last with
  | Some l => if (timestamp <=? l)%Z then (l + 1)%Z else timestamp
  | None => timestamp
  end.

(** [uuid.uuid1(node, clock_seq)], both arguments given; [time_ns k] is
    what the [k]-th call of [time.time_ns()] returns. *)
Definition uuid1 (time_ns : nat -> Z) (node clock_seq : Z) (c : clock)
    : Z * clock :=
  let timestamp := next_timestamp (time_ns (reads c)) (last_timestamp c) in
  (of_time timestamp clock_seq node,
   {| last_timestamp := Some timestamp; reads := S (reads c) |}).

Definition hex_digit (d : Z) : ascii :=
  ascii_of_nat (Z.to_nat (if (d <? 10)%Z then 48 + d else 87 + d)%Z).

(** The [width] low hexadecimal digits of [x], most significant first. *)
Fixpoint hex (width : nat) (x : Z) : string :=
  match width with
  | O => ""
  | S w => hex w (x / 16) +:+ String (hex_digit (x mod 16)) ""
  end.

(** ['%s-%s-%s-%s-%s' % (hex[:8], hex[8:12], hex[12:16], hex[16:20], hex[20:])] *)
Definition dashed (h : string) : string :=
  substring 0 8 h +:+ "-" +:+ substring 8 4 h +:+ "-" +:+ substring 12 4 h
  +:+ "-" +:+ substring 16 4 h +:+ "-"
  +:+ substring 20 (String.length h - 20) h.

(** [str(u)], with [hex = '%032x' % int]. *)
Definition to_str (int : Z) : string := dashed (hex 32 int).

End Uuid.

(** The globals [_node] and [_clock_seq] with the state of [uuid]. *)
Record id_state := {
  _node : Z;
  _clock_seq : Z;
  uuid_clock : Uuid.clock;
}.

(** Lines 27-31. *)
Definition _make_id (time_ns : nat -> Z) (st : id_state) : string * id_state :=
  let clock_seq := (_clock_seq st + 1)%Z in
  let '(u, c) := Uuid.uuid1 time_ns (_node st) clock_seq (uuid_clock st) in
  (Uuid.to_str u, {| _node := _node st; _clock_seq := clock_seq; uuid_clock := c |}).
Arguments _make_id : simpl never.

(** ** Records and [csv.DictReader] *)

Definition pydict := list (option string * pyval).

(** [d[k] = v]: an existing key keeps its place, a new one goes last. *)
Fixpoint dict_set (k : option string) (v : pyval) (d : pydict) : pydict :=
  match d with
  | [] => [(k, v)]
  | (k', v') :: rest =>
      if bool_decide (k' = k) then (k, v) :: rest else (k', v') :: dict_set k v rest
  end.

(** The body of [DictReader.__next__] after a non-blank row was found:
    [dict(zip(fieldnames, row))], then the long or the short row. *)
Definition dict_of_row (names : list string) (row : list string) : pydict :=
  let d := foldl (fun d kv => dict_set (Some kv.1) (PyString kv.2) d) []
                 (zip names row) in
  let lf := length names in
  let lr := length row in
  if Nat.ltb lf lr then dict_set None (PyList (PyString <$> drop lf row)) d
  else if Nat.ltb lr lf then foldl (fun d k => dict_set (Some k) PyNone d) d (drop lr names)
  else d.

(** [DictReader.__next__] with the field names given: blank rows are
    skipped; [None] is [StopIteration]. *)
Fixpoint dictreader_next (names : list string) (rows : list (list string))
    : option (pydict * list (list string)) :=
  match rows with
  | [] => None
  | [] :: rest => dictreader_next names rest
  | row :: rest => Some (dict_of_row names row, rest)
  end.

Definition AUTO_PRIMARY_KEY : string := "_AUTO_".

(** Lines 86-91: [for row in csv_reader: (row['id'] = _make_id();) yield row].
    Each [__next__] takes at least one row, so [length rows] rounds are
    enough to reach [StopIteration]. *)
Fixpoint for_rows (rounds : nat) (auto : bool) (time_ns : nat -> Z)
    (names : list string) (rows : list (list string)) (ids : id_state)
    : list pydict * id_state :=
  match rounds with
  | O => ([], ids)
  | S rounds' =>
      match dictreader_next names rows with
      | None => ([], ids)
      | Some (row, rest) =>
          if auto then
            let '(id, ids1) := _make_id time_ns ids in
            let '(more, ids2) := for_rows rounds' auto time_ns names rest ids1 in
            (dict_set (Some "id") (PyString id) row :: more, ids2)
          else
            let '(more, ids2) := for_rows rounds' auto time_ns names rest ids in
            (row :: more, ids2)
      end
  end.

(** What a generator did: the values it yielded, and how it ended. *)
Record generated (A : Type) := { yielded : list A; ending : outcome unit }.
Arguments yielded {A} g.
Arguments ending {A} g.

(** [CsvExtractor.extract_records], lines 78-91.  A [StopIteration] that
    escapes [next(csv_reader)] inside the generator surfaces as a
    [RuntimeError]. *)
Definition extract_records (time_ns : nat -> Z) (f : file) (self : CsvExtractor)
    (ids : id_state) : generated pydict * id_state :=
  match encoding self, fieldnames self with
  | Some enc, Some names =>
      match f enc with
      | DecodeFailure reason =>
          ({| yielded := []; ending := Raises (UnicodeDecodeError reason) |}, ids)
      | ReadFailure e => ({| yielded := []; ending := Raises e |}, ids)
      | Rows rows =>
          match dictreader_next names rows with
          | None =>
              ({| yielded := [];
                  ending := Raises (RuntimeError "generator raised StopIteration") |},
               ids)
          | Some (_, rest) =>
              let auto := String.eqb (primary_key self) AUTO_PRIMARY_KEY in
              let '(records, ids') := for_rows (length rest) auto time_ns names rest ids in
              ({| yielded := records; ending := Returns tt |}, ids')
          end
      end
  | _, _ => ({| yielded := []; ending := Raises (AttributeError "encoding") |}, ids)
  end.

(** The data rows of a file: its non-blank rows after the first of them,
    which is the header. *)
Definition nonblank (row : list string) : bool :=
  match row with [] => false | _ => true end.

Definition data_rows (rows : list (list string)) : list (list string) :=
  List.tl (List.filter nonblank rows).

(** The identifiers of [n] successive calls of [_make_id]. *)
Fixpoint make_ids (n : nat) (time_ns : nat -> Z) (st : id_state) : list string :=
  match n with
  | O => []
  | S n' => let '(id, st') := _make_id time_ns st in id :: make_ids n' time_ns st'
  end.

(** [row['id'] = id] on the record of a data row. *)
Definition with_id (names : list string) (id : string) (row : list string) : pydict :=
  dict_set (Some "id") (PyString id) (dict_of_row names row).

(** The identifier a record carries under the key ['id'], if any. *)
Definition record_id (record : pydict) : option pyval :=
  dict_get (Some "id") record.

(** The [while] loop of lines 59-61 seen from the one name it works on. *)
Fixpoint rotate_name (fuel : nat) (name : string) : option string :=
  if PyStr.startswith name "_" then
    match fuel with
    | O => None
    | S fuel' => rotate_name fuel' (PyStr.tail name +:+ "_")
    end
  else Some name.

(** Where the rotation loop leaves a name, when it leaves it: the leading
    underscores follow the rest. *)
Definition rotated (name : string) : string :=
  PyStr.after_leading "_" name +:+ PyStr.repeat "_" (PyStr.leading "_" name).

(** A bound on the iterations of the rotation loops over [names]. *)
Definition rotation_bound (names : list string) : nat :=
  max_list (PyStr.leading "_" <$> names).

(** The name has a character other than ['_']. *)
Definition has_non_underscore (name : string) : bool :=
  negb (PyStr.all_char "_" name).

(** The first encoding of the list on which the decoder does not fail. *)
Definition decodes (f : file) (enc : Encoding) : bool :=
  match f enc with DecodeFailure _ => false | _ => true end.

Definition first_decodable (f : file) (encodings : list Encoding) : option Encoding :=
  List.find (decodes f) encodings.

(** The names on which the rotation loop starts when the file is read
    with [enc]: the header, trimmed and with dots replaced. *)
Definition names_at_loop (f : file) (flds : option (list pyval)) (enc : Encoding)
    : option (list string) :=
  match explicit_names flds, f enc with
  | Returns fs, Rows rows =>
      match dictreader_fieldnames fs rows with
      | Some header =>
          match clean_names header with
          | Returns names => Some names
          | _ => None
          end
      | None => None
      end
  | _, _ => None
  end.

(** ** [validate_fields] *)

Definition dquote : string := String (ascii_of_nat 34) "".
Definition newline : string := String (ascii_of_nat 10) "".

Definition ALLOWED_TYPES : list string :=
  ["string"; "integer"; "double"; "currency"; "date"; "time"; "datetime";
   "boolean"; "geo_shape"; "geo_point"].

(** [str(v)] as [format] uses it: a string is itself; the text of any
    other value is left to [repr], Python's own. *)
Definition py_str (repr : pyval -> string) (v : pyval) : string :=
  match v with
  | PyString s => s
  | _ => repr v
  end.

(** [v in ALLOWED_TYPES]: only a string equals a string. *)
Definition allowed_type (v : pyval) : bool :=
  match v with
  | PyString s => bool_decide (s ∈ ALLOWED_TYPES)
  | _ => false
  end.

Definition missing_field_msg (i : nat) : string :=
  "Missing 'field' attribute from field " +:+ pretty i.

Definition missing_type_msg (i : nat) : string :=
  "Missing 'type' attribute from field " +:+ pretty i.

Definition invalid_type_msg (repr : pyval -> string) (t : pyval) (i : nat) : string :=
  "Invalid type " +:+ py_str repr t +:+ " for field " +:+ pretty i
  +:+ ".  Must be one of " +:+ dquote
  +:+ PyStr.join (dquote +:+ ", " +:+ dquote) ALLOWED_TYPES +:+ dquote.

(** Lines 102-108, the body of [for i, field in enumerate(fields)]. *)
Definition check_field (repr : pyval -> string) (i : nat) (field : pydict)
    (errors : list string) : list string :=
  let errors :=
    match dict_get (Some "field") field with
    | None => errors ++ [missing_field_msg i]
    | Some _ => errors
    end in
  match dict_get (Some "type") field with
  | None => errors ++ [missing_type_msg i]
  | Some t =>
      if allowed_type t then errors
      else errors ++ [invalid_type_msg repr t i]
  end.

Fixpoint validate_loop (repr : pyval -> string) (i : nat) (flds : list pydict)
    (errors : list string) : list string :=
  match flds with
  | [] => errors
  | field :: rest => validate_loop repr (S i) rest (check_field repr i field errors)
  end.

(** Lines 100-112. *)
Definition validate_fields (repr : pyval -> string) (flds : list pydict)
    : outcome unit :=
  match validate_loop repr 0 flds [] with
  | [] => Returns tt
  | errors => Raises (FieldError (PyStr.join newline errors))
  end.

(** The violations of the entry at index [i], in the order the checks
    are made. *)
Definition violations (repr : pyval -> string) (i : nat) (field : pydict)
    : list string :=
  check_field repr i field [].

Definition all_violations (repr : pyval -> string) (flds : list pydict)
    : list string :=
  mjoin (imap (violations repr) flds).

(** ** [ast.literal_eval] *)

(** [ast.literal_eval] belongs to the standard library and is a parameter
    of the uploader.  What follows evaluates the part of its input
    language that the examples of the specification need: decimal
    integers, plain decimal fractions, names and list displays.  [None]
    means that the text is outside this part. *)
Module Literal.

Inductive token :=
| LBRACK | RBRACK | COMMA
| NUMBER (z : Z) | FLOAT (literal : string) | NAME (id : string).

#[warnings="-register-all"]
Inductive node :=
| Num (z : Z) | Float (literal : string) | Name (id : string)
| List (elts : list node).

Definition is_digit (c : ascii) : bool :=
  let n := nat_of_ascii c in Nat.leb 48 n && Nat.leb n 57.

Definition is_name_start (c : ascii) : bool :=
  let n := nat_of_ascii c in
  (Nat.leb 65 n && Nat.leb n 90) || (Nat.leb 97 n && Nat.leb n 122)
  || Nat.eqb n 95.

Definition is_name_char (c : ascii) : bool := is_name_start c || is_digit c.

(** The longest prefix of characters satisfying [p], and the rest. *)
Fixpoint span (p : ascii -> bool) (s : string) : string * string :=
  match s with
  | String c s' =>
      if p c then let '(a, b) := span p s' in (String c a, b) else ("", s)
  | EmptyString => ("", "")
  end.

Fixpoint digits_value (acc : Z) (s : string) : Z :=
  match s with
  | String c s' => digits_value (10 * acc + Z.of_nat (nat_of_ascii c - 48)) s'
  | EmptyString => acc
  end.

(** A number token: [0] or a decimal integer without leading zero, not
    followed by a letter, or such digits, a dot and digits. *)
Definition lex_number (s : string) : option (token * string) :=
  let '(int_part, rest) := span is_digit s in
  match int_part, rest with
  | String "0" (String _ _), _ => None
  | _, String "." rest' =>
      let '(frac, rest'') := span is_digit rest' in
      match frac, rest'' with
      | EmptyString, _ => None
      | _, String c _ =>
          if is_name_char c || Ascii.eqb c "." then None
          else Some (FLOAT (int_part +:+ "." +:+ frac), rest'')
      | _, EmptyString => Some (FLOAT (int_part +:+ "." +:+ frac), rest'')
      end
  | _, String c _ =>
      if is_name_char c then None else Some (NUMBER (digits_value 0 int_part), rest)
  | _, EmptyString => Some (NUMBER (digits_value 0 int_part), rest)
  end.

(** The reserved words that are not constants; none is an expression. *)
Definition keywords : list string :=
  ["and"; "as"; "assert"; "async"; "await"; "break"; "class"; "continue";
   "def"; "del"; "elif"; "else"; "except"; "finally"; "for"; "from";
   "global"; "if"; "import"; "in"; "is"; "lambda"; "nonlocal"; "not"; "or";
   "pass"; "raise"; "return"; "try"; "while"; "with"; "yield"].

Fixpoint lex (fuel : nat) (s : string) : option (list token) :=
  match fuel with
  | O => match s with EmptyString => Some [] | _ => None end
  | S fuel' =>
      match s with
      | EmptyString => Some []
      | String c s' =>
          if Ascii.eqb c " " || Ascii.eqb c (ascii_of_nat 9) then lex fuel' s'
          else if Ascii.eqb c "[" then cons LBRACK <$> lex fuel' s'
          else if Ascii.eqb c "]" then cons RBRACK <$> lex fuel' s'
          else if Ascii.eqb c "," then cons COMMA <$> lex fuel' s'
          else if is_digit c then
            match lex_number s with
            | Some (t, rest) => cons t <$> lex fuel' rest
            | None => None
            end
          else if is_name_start c then
            let '(id, rest) := span is_name_char s in
            if bool_decide (id ∈ keywords) then None
            else
              match rest with
              | String d _ =>
                  if Ascii.eqb d "'" || Ascii.eqb d (ascii_of_nat 34) then None
                  else cons (NAME id) <$> lex fuel' rest
              | EmptyString => cons (NAME id) <$> lex fuel' rest
              end
          else None
      end
  end.

Fixpoint parse_expr (fuel : nat) (ts : list token) : option (node * list token) :=
  match fuel with
  | O => None
  | S fuel' =>
      match ts with
      | NUMBER z :: rest => Some (Num z, rest)
      | FLOAT l :: rest => Some (Float l, rest)
      | NAME id :: rest => Some (Name id, rest)
      | LBRACK :: RBRACK :: rest => Some (List [], rest)
      | LBRACK :: rest => parse_elts fuel' rest []
      | _ => None
      end
  end
with parse_elts (fuel : nat) (ts : list token) (acc : list node)
    : option (node * list token) :=
  match fuel with
  | O => None
  | S fuel' =>
      match parse_expr fuel' ts with
      | Some (e, COMMA :: RBRACK :: rest) => Some (List (acc ++ [e]), rest)
      | Some (e, RBRACK :: rest) => Some (List (acc ++ [e]), rest)
      | Some (e, COMMA :: rest) => parse_elts fuel' rest (acc ++ [e])
      | _ => None
      end
  end.

(** [_convert]: a constant is its value, a list display the list of its
    converted elements; a name that is no constant is a malformed node. *)
Fixpoint convert (n : node) : outcome pyval :=
  match n with
  | Num z => Returns (PyInt z)
  | Float l => Returns (PyFloat l)
  | Name id =>
      if String.eqb id "True" then Returns (PyBool true)
      else if String.eqb id "False" then Returns (PyBool false)
      else if String.eqb id "None" then Returns PyNone
      else Raises (ValueError "malformed node or string")
  | List elts =>
      let converted :=
        (fix convert_all (l : list node) : outcome (list pyval) :=
           match l with
           | [] => Returns []
           | e :: rest =>
               match convert e with
               | Returns v =>
                   match convert_all rest with
                   | Returns vs => Returns (v :: vs)
                   | other => other
                   end
               | Raises e => Raises e
               | Diverges => Diverges
               end
           end) elts in
      match converted with
      | Returns vs => Returns (PyList vs)
      | Raises e => Raises e
      | Diverges => Diverges
      end
  end.

(** Texts this module does not cover: those with leading blanks (their
    treatment changed between versions of Python) and very long ones
    (Python bounds the size of numbers and the depth of nesting). *)
Definition covered (s : string) : bool :=
  Nat.leb (String.length s) 256
  && negb (PyStr.startswith s " ") && negb (PyStr.startswith s (ascii_of_nat 9)).

Definition eval (s : string) : option (outcome pyval) :=
  if covered s then
    match lex (String.length s) s with
    | Some ts =>
        match parse_expr (S (length ts)) ts with
        | Some (n, []) => Some (convert n)
        | _ => None
        end
    | None => None
    end
  else None.

(** A total function that is [eval] where [eval] is defined; a value
    that is not text is a malformed node. *)
Definition total (v : pyval) : outcome pyval :=
  match v with
  | PyString s =>
      match eval s with
      | Some r => r
      | None => Raises (SyntaxError "invalid syntax")
      end
  | _ => Raises (ValueError "malformed node or string")
  end.

End Literal.

(** [literal_eval] behaves as Python's on the texts [Literal.eval] covers. *)
Definition python_literal_eval (literal_eval : pyval -> outcome pyval) : Prop :=
  forall s r, Literal.eval s = Some r -> literal_eval (PyString s) = r.

(** Lines 203-213: what the field holds after the [try] statement. *)
Definition coerce_value (literal_eval : pyval -> outcome pyval) (value : pyval)
    : outcome pyval :=
  match literal_eval value with
  | Returns (PyList value_array) =>
      if Nat.ltb 1 (length value_array) then Returns (PyList value_array)
      else match value_array with
           | first :: _ => Returns first
           | [] => Returns PyNone
           end
  | Returns _ => Returns value
  | Raises (SyntaxError _) | Raises (ValueError _) => Returns value
  | Raises e => Raises e
  | Diverges => Diverges
  end.

(** Line 202: [for field_name, value in record.items()]; an assignment to
    a key the record has leaves the key where it is. *)
Fixpoint coerce_record (literal_eval : pyval -> outcome pyval) (record : pydict)
    : outcome pydict :=
  match record with
  | [] => Returns []
  | (field_name, value) :: rest =>
      match coerce_value literal_eval value with
      | Returns value' =>
          match coerce_record literal_eval rest with
          | Returns rest' => Returns ((field_name, value') :: rest')
          | other => other
          end
      | Raises e => Raises e
      | Diverges => Diverges
      end
  end.

(** ** The HTTP client *)

Record request := {
  method : string;
  url : string;
  authorization : string;
  json_data : pyval;
}.

(** A response: [r.status_code], [r.text] and what [r.json()] does. *)
Record response := {
  status_code : Z;
  text : string;
  json : outcome pyval;
}.

(** What the process does that can be seen from outside, oldest first. *)
Inductive event :=
| Sent (r : request)
| Stdout (line : string)
| Stderr (line : string)
| Sleep (seconds : Z).

Definition sent (trace : list event) : list request :=
  omap (fun e => match e with Sent r => Some r | _ => None end) trace.

(** The server answers a request knowing the requests made before it. *)
Definition server := list request -> request -> response.

(** [Response.raise_for_status] of [requests]. *)
Definition raise_for_status (r : response) : outcome unit :=
  if ((400 <=? status_code r) && (status_code r <? 600))%Z
  then Raises (HTTPError (status_code r))
  else Returns tt.

(** [request_api], [csv_uploader.py] lines 115-123. *)
Definition request_api (srv : server) (method url auth_id : string) (data : pyval)
    (trace : list event) : outcome pyval * list event :=
  let req := {| method := method; url := url;
                authorization := auth_id; json_data := data |} in
  let r := srv (sent trace) req in
  let trace := trace ++ [Sent req] in
  if bool_decide (status_code r ∈ [200; 201]%Z) then (json r, trace)
  else
    let trace := trace ++ [Stderr (pretty (status_code r) +:+ " " +:+ text r)] in
    match raise_for_status r with
    | Returns _ => (json r, trace)
    | Raises e => (Raises e, trace)
    | Diverges => (Diverges, trace)
    end.

(** [post_to_api], [csv-uploader.py] lines 93-106.  The name [response]
    is bound nowhere in the script, so evaluating the condition of the
    inner [if] raises [NameError]; the branches under it are never
    reached. *)
Definition post_to_api (srv : server) (url : string) (data : pyval)
    (auth_id : string) (trace : list event) : outcome pyval * list event :=
  let req := {| method := "POST"; url := url;
                authorization := auth_id; json_data := data |} in
  let r := srv (sent trace) req in
  let trace := trace ++ [Sent req] in
  if negb (status_code r =? 200)%Z then (Raises (NameError "response"), trace)
  else (json r, trace).

(** ** [process_file] *)

Record Args := {
  filename : string;
  server_url : string;
  apiKey : string;
  datasetId : option string;
  category : option (list string);
  name : option string;
  primaryKey : string;
  batchSize : Z;
  index : bool;
  clear : bool;
  fields_path : option string;
  everyone : bool;
}.

(** What the script finds around it: the CSV file, the content of the
    field-definition file, the server, the clock and the library
    functions it calls. *)
Record Env := {
  csv_file : file;
  fields_file : list pydict;
  srv : server;
  time_ns : nat -> Z;
  literal_eval : pyval -> outcome pyval;
  repr : pyval -> string;
  (** [os.path.splitext(os.path.basename(filename))[0]] *)
  stem : string -> string;
}.

(** Truth of an optional string: [None] and [''] are false. *)
Definition truthy (o : option string) : bool :=
  match o with
  | Some s => negb (String.eqb s "")
  | None => false
  end.

Definition str_key (k : string) (v : pyval) : option string * pyval := (Some k, v).

(** Lines 126-131. *)
Definition process_batch (env : Env) (args : Args) (dataset : pyval)
    (rows : list pydict) (trace : list event) : outcome pyval * list event :=
  let batch := PyDict [str_key "rows" (PyList (PyDict <$> rows));
                       str_key "index" (PyBool (index args))] in
  request_api (srv env) "POST"
    (server_url args +:+ "/v2/dataset/" +:+ py_str (repr env) dataset +:+ "/rows")
    (apiKey args) batch trace.

(** The request [process_batch] makes for [rows]. *)
Definition batch_request (env : Env) (args : Args) (dataset : pyval)
    (rows : list pydict) : request :=
  {| method := "POST";
     url := server_url args +:+ "/v2/dataset/" +:+ py_str (repr env) dataset +:+ "/rows";
     authorization := apiKey args;
     json_data := PyDict [str_key "rows" (PyList (PyDict <$> rows));
                          str_key "index" (PyBool (index args))] |}.

(** The request that asks for the index once the rows are sent. *)
Definition index_request (env : Env) (args : Args) (dataset : pyval) : request :=
  {| method := "GET";
     url := server_url args +:+ "/v2/dataset/" +:+ py_str (repr env) dataset +:+ "/index";
     authorization := apiKey args;
     json_data := PyNone |}.

(** Lines 201-219, the [for] loop over the records the generator
    yielded; the result is the local [rows] and [batches]. *)
Fixpoint for_records (env : Env) (args : Args) (dataset : pyval)
    (records : list pydict) (rows : list pydict) (batches : Z)
    (trace : list event) : outcome (list pydict * Z) * list event :=
  match records with
  | [] => (Returns (rows, batches), trace)
  | record :: rest =>
      match coerce_record (literal_eval env) record with
      | Returns record' =>
          let rows := rows ++ [record'] in
          if (Z.of_nat (length rows) >=? batchSize args)%Z then
            match process_batch env args dataset rows trace with
            | (Returns _, trace') =>
                for_records env args dataset rest [] (batches + 1) trace'
            | (Raises e, trace') => (Raises e, trace')
            | (Diverges, trace') => (Diverges, trace')
            end
          else for_records env args dataset rest rows batches trace
      | Raises e => (Raises e, trace)
      | Diverges => (Diverges, trace)
      end
  end.

(** Lines 199-228: the upload of the rows and the final index request. *)
Definition upload_rows (env : Env) (args : Args) (dataset : pyval)
    (self : CsvExtractor) (ids : id_state) (trace : list event)
    : outcome unit * list event :=
  let trace := trace ++ [Stdout ("Updating Rows in dataset " +:+ py_str (repr env) dataset)] in
  let g := (extract_records (time_ns env) (csv_file env) self ids).1 in
  match for_records env args dataset (yielded g) [] 1 trace with
  | (Returns (rows, batches), trace) =>
      match ending g with
      | Raises e => (Raises e, trace)
      | Diverges => (Diverges, trace)
      | Returns _ =>
          let sent_rest : outcome pyval * list event :=
            match rows with
            | [] => (Returns PyNone, trace)
            | _ => process_batch env args dataset rows trace
            end in
          match sent_rest with
          | (Returns _, trace) =>
              let trace := trace ++ [Stdout ("Uploaded file in " +:+ pretty batches +:+ " batches")] in
              if index args then (Returns tt, trace)
              else
                let trace := trace ++ [Stdout "Sending index request"] in
                match request_api (srv env) "GET"
                        (server_url args +:+ "/v2/dataset/" +:+ py_str (repr env) dataset +:+ "/index")
                        (apiKey args) PyNone trace with
                | (Returns _, trace) => (Returns tt, trace)
                | (Raises e, trace) => (Raises e, trace)
                | (Diverges, trace) => (Diverges, trace)
                end
          | (Raises e, trace) => (Raises e, trace)
          | (Diverges, trace) => (Diverges, trace)
          end
      end
  | (Raises e, trace) => (Raises e, trace)
  | (Diverges, trace) => (Diverges, trace)
  end.

(** The field definition the script makes up for a column. *)
Definition string_field (f : string) : pydict :=
  [str_key "field" (PyString f); str_key "displayName" (PyString f);
   str_key "autocomplete" (PyBool false); str_key "type" (PyString "string")].

(** [res[key]] on the JSON value a request returned. *)
Definition subscript (res : pyval) (key : string) : outcome pyval :=
  match res with
  | PyDict d =>
      match dict_get (Some key) d with
      | Some v => Returns v
      | None => Raises (KeyError key)
      end
  | _ => Raises (TypeError "subscript")
  end.

(** Lines 144-185: no dataset was named, one is created. *)
Definition create_dataset (env : Env) (args : Args) (flds : option (list pydict))
    (self : CsvExtractor) (trace : list event) : outcome pyval * list event :=
  let trace := trace ++ [Stdout "Creating a new dataset"] in
  let data : pydict :=
    [str_key "name" (PyString (if truthy (name args) then default "" (name args)
                               else stem env (filename args)));
     str_key "primaryKey" (PyString (primaryKey args));
     str_key "description" (PyString "Uploaded using CSV uploader example script");
     str_key "everyone" (PyBool (everyone args))] in
  let data :=
    match category args with
    | Some ((_ :: _) as c) => dict_set (Some "categories") (PyList (PyString <$> c)) data
    | _ => data
    end in
  let flds :=
    match flds with
    | Some ((_ :: _) as l) => l
    | _ => string_field <$> default [] (fieldnames self)
    end in
  let checked :=
    if negb (String.eqb (primaryKey args) AUTO_PRIMARY_KEY) then
      if bool_decide (primaryKey args ∈ default [] (fieldnames self))
      then Returns (data, flds)
      else Raises (ValueError ("Primary key (" +:+ primaryKey args
                               +:+ ") does not appear in " +:+ filename args))
    else Returns (dict_set (Some "primaryKey") (PyString "id") data,
                  flds ++ [string_field "id"]) in
  match checked with
  | Raises e => (Raises e, trace)
  | Diverges => (Diverges, trace)
  | Returns (data, flds) =>
      let data := dict_set (Some "fields") (PyList (PyDict <$> flds)) data in
      match request_api (srv env) "POST" (server_url args +:+ "/v2/dataset")
              (apiKey args) (PyDict data) trace with
      | (Returns res, trace) =>
          match subscript res "id" with
          | Returns id =>
              (Returns id, trace ++ [Stdout ("Dataset ID: " +:+ py_str (repr env) id)])
          | Raises e => (Raises e, trace)
          | Diverges => (Diverges, trace)
          end
      | (Raises e, trace) => (Raises e, trace)
      | (Diverges, trace) => (Diverges, trace)
      end
  end.

(** Lines 136-141: the field definitions, validated, when a file of them
    was named. *)
Definition load_fields (env : Env) (args : Args) : outcome (option (list pydict)) :=
  if truthy (fields_path args) then
    match validate_fields (repr env) (fields_file env) with
    | Returns _ => Returns (Some (fields_file env))
    | Raises e => Raises e
    | Diverges => Diverges
    end
  else Returns None.

(** The field definitions as the constructor of the extractor gets them. *)
Definition as_values (flds : option (list pydict)) : option (list pyval) :=
  (fun l : list pydict => PyDict <$> l) <$> flds.

(** [process_file], lines 134-228.  [fuel] bounds the rotation loops of
    the constructor. *)
Definition process_file (fuel : nat) (env : Env) (args : Args) (ids : id_state)
    : outcome unit * list event :=
  match load_fields env args with
  | Raises e => (Raises e, [])
  | Diverges => (Diverges, [])
  | Returns flds =>
      match init fuel (csv_file env) (primaryKey args) (as_values flds) with
      | (_, Raises e) => (Raises e, [])
      | (_, Diverges) => (Diverges, [])
      | (self, Returns _) =>
          let resolved : outcome pyval * list event :=
            if negb (truthy (datasetId args)) then create_dataset env args flds self []
            else
              let dataset := PyString (default "" (datasetId args)) in
              match flds with
              | Some ((_ :: _) as l) =>
                  match request_api (srv env) "PATCH"
                          (server_url args +:+ "/v2/dataset/" +:+ py_str (repr env) dataset +:+ "/")
                          (apiKey args)
                          (PyDict [str_key "fields" (PyList (PyDict <$> l))]) [] with
                  | (Returns res, trace) =>
                      match subscript res "success" with
                      | Returns ok =>
                          (Returns dataset,
                           trace ++ [Stdout ("Dataset Fields Updated: " +:+ py_str (repr env) ok)])
                      | Raises e => (Raises e, trace)
                      | Diverges => (Diverges, trace)
                      end
                  | (Raises e, trace) => (Raises e, trace)
                  | (Diverges, trace) => (Diverges, trace)
                  end
              | _ => (Returns dataset, [])
              end in
          match resolved with
          | (Raises e, trace) => (Raises e, trace)
          | (Diverges, trace) => (Diverges, trace)
          | (Returns dataset, trace) =>
              let cleared : outcome pyval * list event :=
                if clear args then
                  let trace := trace ++ [Stdout ("Clearing all Rows in dataset "
                                                 +:+ py_str (repr env) dataset)] in
                  request_api (srv env) "DELETE"
                    (server_url args +:+ "/v2/dataset/" +:+ py_str (repr env) dataset +:+ "/rows")
                    (apiKey args) (PyDict [str_key "datasetId" dataset]) trace
                else (Returns PyNone, trace) in
              match cleared with
              | (Returns _, trace) => upload_rows env args dataset self ids trace
              | (Raises e, trace) => (Raises e, trace)
              | (Diverges, trace) => (Diverges, trace)
              end
          end
      end
  end.

(** The upload requests of a trace: the POSTs to a [.../rows] address,
    each with the number of rows it carries. *)
Definition batch_size_of (r : request) : option nat :=
  match json_data r with
  | PyDict ((Some "rows", PyList rows) :: _) =>
      if String.eqb (method r) "POST" then Some (length rows) else None
  | _ => None
  end.

Definition upload_sizes (trace : list event) : list nat :=
  omap batch_size_of (sent trace).

(** [l] cut into consecutive pieces of [n] elements, the last one
    possibly shorter; [fuel] bounds the number of pieces. *)
Fixpoint chunks_fuel {A} (fuel n : nat) (l : list A) : list (list A) :=
  match fuel with
  | O => []
  | S fuel' =>
      match l with
      | [] => []
      | _ => take n l :: chunks_fuel fuel' n (drop n l)
      end
  end.

Definition chunks {A} (n : nat) (l : list A) : list (list A) :=
  chunks_fuel (length l) n l.

(** The server answers every request with status 200 and a JSON body. *)
Definition accepts (s : server) : Prop :=
  forall history req,
    status_code (s history req) = 200%Z /\ exists v, json (s history req) = Returns v.

(** [record'] is what the coercion of the values of [record] gives. *)
Definition coerced (literal_eval : pyval -> outcome pyval)
    (record record' : pydict) : Prop :=
  coerce_record literal_eval record = Returns record'.

(** ** The companion tool [csv-unique-count.py] *)

Module UniqueCount.

(** [for row in csv_reader: yield row], lines 59-60. *)
Fixpoint for_rows (rounds : nat) (names : list string) (rows : list (list string))
    : list pydict :=
  match rounds with
  | O => []
  | S rounds' =>
      match dictreader_next names rows with
      | None => []
      | Some (row, rest) => row :: for_rows rounds' names rest
      end
  end.

(** [CsvExtractor.extract_records], lines 52-60. *)
Definition extract_records (f : file) (self : CsvExtractor) : generated pydict :=
  match encoding self, fieldnames self with
  | Some enc, Some names =>
      match f enc with
      | DecodeFailure reason =>
          {| yielded := []; ending := Raises (UnicodeDecodeError reason) |}
      | ReadFailure e => {| yielded := []; ending := Raises e |}
      | Rows rows =>
          match dictreader_next names rows with
          | None =>
              {| yielded := [];
                 ending := Raises (RuntimeError "generator raised StopIteration") |}
          | Some (_, rest) =>
              {| yielded := for_rows (length rest) names rest; ending := Returns tt |}
          end
      end
  | _, _ => {| yielded := []; ending := Raises (AttributeError "encoding") |}
  end.

(** Lists and dicts cannot be keys of a dict. *)
Definition hashable (v : pyval) : bool :=
  match v with
  | PyList _ | PyDict _ => false
  | _ => true
  end.

Definition type_name (v : pyval) : string :=
  match v with
  | PyNone => "NoneType"
  | PyBool _ => "bool"
  | PyInt _ => "int"
  | PyFloat _ => "float"
  | PyString _ => "str"
  | PyList _ => "list"
  | PyDict _ => "dict"
  end.

(** Equality of two keys.  The values of a [DictReader] record are
    strings, [None] and lists, so the numbers, which Python compares by
    value across their types, do not meet here. *)
Definition key_eqb (a b : pyval) : bool :=
  match a, b with
  | PyNone, PyNone => true
  | PyBool x, PyBool y => Bool.eqb x y
  | PyInt x, PyInt y => Z.eqb x y
  | PyFloat x, PyFloat y => String.eqb x y
  | PyString x, PyString y => String.eqb x y
  | _, _ => false
  end.

(** A [defaultdict(int)], in insertion order. *)
Definition counts := list (pyval * nat).

(** [d[v] += 1] for a hashable [v]. *)
Fixpoint bump (v : pyval) (d : counts) : counts :=
  match d with
  | [] => [(v, 1)]
  | (v', n) :: rest =>
      if key_eqb v' v then (v', S n) :: rest else (v', n) :: bump v rest
  end.

(** [uniques], a [defaultdict] of [defaultdict(int)]. *)
Definition uniques := list (option string * counts).

(** [uniques[k][v] += 1] for a hashable [v], line 70. *)
Fixpoint update (k : option string) (v : pyval) (u : uniques) : uniques :=
  match u with
  | [] => [(k, bump v [])]
  | (k', d) :: rest =>
      if bool_decide (k' = k) then (k', bump v d) :: rest
      else (k', d) :: update k v rest
  end.

(** [uniques[k]], without the insertion a [defaultdict] makes. *)
Fixpoint counts_for (k : option string) (u : uniques) : counts :=
  match u with
  | [] => []
  | (k', d) :: rest => if bool_decide (k' = k) then d else counts_for k rest
  end.

(** Lines 69-70: [for k, v in record.items(): uniques[k][v] += 1]. *)
Fixpoint for_items (items : pydict) (u : uniques) : outcome uniques :=
  match items with
  | [] => Returns u
  | (k, v) :: rest =>
      if hashable v then for_items rest (update k v u)
      else Raises (TypeError ("unhashable type: '" +:+ type_name v +:+ "'"))
  end.

(** Lines 68-72, over the records the generator yielded. *)
Fixpoint for_records (records : list pydict) (u : uniques) (total : nat)
    : outcome (uniques * nat) :=
  match records with
  | [] => Returns (u, total)
  | record :: rest =>
      match for_items record u with
      | Returns u' => for_records rest u' (S total)
      | Raises e => Raises e
      | Diverges => Diverges
      end
  end.

(** Line 75: [{k: len(v) for k, v in uniques.items()}]. *)
Definition count (u : uniques) : list (option string * nat) :=
  (fun kd => (kd.1, length kd.2)) <$> u.

(** Line 76: [sorted(count.items(), key=lambda x: x[1], reverse=True)].
    The sort is stable, also when reversed: of two entries with the same
    number the one that comes first stays first. *)
Fixpoint insert_by_count (x : option string * nat) (l : list (option string * nat))
    : list (option string * nat) :=
  match l with
  | [] => [x]
  | y :: rest =>
      if Nat.leb y.2 x.2 then x :: y :: rest else y :: insert_by_count x rest
  end.

Definition sorted (l : list (option string * nat)) : list (option string * nat) :=
  foldr insert_by_count [] l.

(** [str(k)] of a key of a record. *)
Definition key_str (k : option string) : string :=
  match k with
  | Some s => s
  | None => "None"
  end.

(** Lines 74 and 77: the lines that are printed. *)
Definition line (kv : option string * nat) : string :=
  key_str kv.1 +:+ ": " +:+ pretty kv.2.

Definition report (total : nat) (l : list (option string * nat)) : list string :=
  ("Total: " +:+ pretty total) :: (line <$> sorted l).

(** [process_file], lines 63-77: the construction of the extractor, the
    loop over its records and the lines printed after it.  The notices of
    the constructor are left out of the trace. *)
Definition process_file (fuel : nat) (f : file) : outcome unit * list event :=
  match init_of csv_unique_count fuel f "" None with
  | (self, Returns _) =>
      let g := extract_records f self in
      match for_records (yielded g) [] 0 with
      | Returns (u, total) =>
          match ending g with
          | Returns _ => (Returns tt, Stdout <$> report total (count u))
          | Raises e => (Raises e, [])
          | Diverges => (Diverges, [])
          end
      | Raises e => (Raises e, [])
      | Diverges => (Diverges, [])
      end
  | (_, Raises e) => (Raises e, [])
  | (_, Diverges) => (Diverges, [])
  end.

End UniqueCount.

(** The cell a row has in column [i], as the record holds it: [None] when
    the row is too short. *)
Definition cell_value (c : option string) : pyval :=
  match c with
  | Some s => PyString s
  | None => PyNone
  end.

Definition column (i : nat) (rows : list (list string)) : list (option string) :=
  (fun row : list string => row !! i) <$> rows.

(** The number of different values in a column. *)
Definition distinct (l : list (option string)) : nat := length (remove_dups l).

(** The values seen so far, in the order of their first occurrence. *)
Definition seen (ks : list (option string)) (c : option string)
    : list (option string) :=
  if bool_decide (c ∈ ks) then ks else ks ++ [c].

(** ** Requests and servers used to state properties *)

(** The lines written to the standard output, oldest first. *)
Definition stdout (trace : list event) : list string :=
  omap (fun e => match e with Stdout line => Some line | _ => None end) trace.

(** The request that replaces the field definitions of a named dataset
    (lines 189-192) and the one that clears its rows (line 197). *)
Definition patch_request (env : Env) (args : Args) (dataset : pyval)
    (flds : list pydict) : request :=
  {| method := "PATCH";
     url := server_url args +:+ "/v2/dataset/" +:+ py_str (repr env) dataset +:+ "/";
     authorization := apiKey args;
     json_data := PyDict [str_key "fields" (PyList (PyDict <$> flds))] |}.

Definition delete_request (env : Env) (args : Args) (dataset : pyval) : request :=
  {| method := "DELETE";
     url := server_url args +:+ "/v2/dataset/" +:+ py_str (repr env) dataset +:+ "/rows";
     authorization := apiKey args;
     json_data := PyDict [str_key "datasetId" dataset] |}.

(** The server answers every request with status 200 and the body [res]. *)
Definition answers (s : server) (res : pyval) : Prop :=
  forall history req,
    status_code (s history req) = 200%Z /\ json (s history req) = Returns res.

(** The server answers every request with an error status. *)
Definition rejects (s : server) : Prop :=
  forall history req, (400 <= status_code (s history req) < 600)%Z.

(** Non-empty field definitions, as [if fields:] sees them. *)
Definition given_fields (flds : option (list pydict)) : list pydict :=
  match flds with
  | Some l => l
  | None => []
  end.

(** Since [trace], the step that ended as [r] has sent nothing, or it has
    sent one request and raised the HTTP error of its answer. *)
Definition quiet_or_failed {A} (trace : list event) (r : outcome A * list event)
    : Prop :=
  sent r.2 = sent trace
  \/ exists req status,
       sent r.2 = sent trace ++ [req] /\ r.1 = Raises (HTTPError status).

(** ** Sample files *)

(** A Latin-1 file with a byte sequence that is not valid UTF-8. *)
Definition latin1_file : file := fun enc =>
  match enc with
  | utf_8_sig | utf_8 => DecodeFailure "invalid continuation byte"
  | _ => Rows [["name"; "__tag.id"]; ["cafe"; "7"]]
  end.

(** A file on which every decoder gives up. *)
Definition undecodable_file : file := fun enc =>
  match enc with
  | ascii_enc => DecodeFailure "ordinal not in range(128)"
  | _ => DecodeFailure "invalid start byte"
  end.

(** A file whose only column is called ["."]. *)
Definition dot_file : file := fun _ => Rows [["."]; ["1"]].

(** A file whose second column is called ["__"]. *)
Definition underscore_file : file := fun _ => Rows [["a"; "__"]; ["1"; "2"]].

(** A file with blank lines, a short row and a long row. *)
Definition ragged_file : file := fun _ =>
  Rows [["id"; "city"]; []; ["1"; "Oslo"]; ["2"]; []; ["3"; "Rome"; "x"]].

(** The clock of a machine whose [time.time_ns()] does not move. *)
Definition frozen_clock : nat -> Z := fun _ => 1730000000000000000%Z.

Definition fresh_ids : id_state :=
  {| _node := 0x123456789abc; _clock_seq := 5;
     uuid_clock := {| Uuid.last_timestamp := None; Uuid.reads := 0 |} |}.

(** A file with a header and seven data rows. *)
Definition seven_file : file := fun _ =>
  Rows [["k"; "v"]; ["1"; "a"]; ["2"; "[1, 2]"]; ["3"; "[1]"]; ["4"; "[]"];
        ["5"; "abc"]; ["6"; "3.5"]; ["7"; "g"]].

(** A server that accepts everything and one that is always busy. *)
Definition ok_server : server := fun _ _ =>
  {| status_code := 200; text := "ok";
     json := Returns (PyDict [(Some "id", PyString "ds1");
                              (Some "success", PyBool true)]) |}.

Definition busy_server : server := fun _ _ =>
  {| status_code := 503; text := "Service Unavailable";
     json := Raises JSONDecodeError |}.

Definition sample_env : Env :=
  {| csv_file := seven_file; fields_file := []; srv := ok_server;
     time_ns := frozen_clock; literal_eval := Literal.total;
     repr := fun _ => "?"; stem := fun path => path |}.

Definition sample_args : Args :=
  {| filename := "data.csv"; server_url := "http://host"; apiKey := "key";
     datasetId := Some "ds1"; category := None; name := None;
     primaryKey := "k"; batchSize := 3; index := true; clear := false;
     fields_path := None; everyone := true |}.

(** The same call with a primary key that is no column of the file. *)
Definition wrong_key_args (dataset : option string) : Args :=
  {| filename := "data.csv"; server_url := "http://host"; apiKey := "key";
     datasetId := dataset; category := None; name := None;
     primaryKey := "nope"; batchSize := 3; index := true; clear := false;
     fields_path := None; everyone := true |}.

(** Six field definitions: entry 2 has no type, entry 5 a wrong one. *)
Definition six_fields : list pydict :=
  [[(Some "field", PyString "a"); (Some "type", PyString "string")];
   [(Some "field", PyString "b"); (Some "type", PyString "integer")];
   [(Some "field", PyString "c")];
   [(Some "field", PyString "d"); (Some "type", PyString "date")];
   [(Some "field", PyString "e"); (Some "type", PyString "double")];
   [(Some "field", PyString "f"); (Some "type", PyString "text")]].

(** An empty file, and a file on which the reader gives up. *)
Definition empty_file : file := fun _ => Rows [].

Definition oversized_file : file := fun enc =>
  match enc with
  | utf_8_sig => DecodeFailure "invalid start byte"
  | _ => ReadFailure (CsvError "field larger than field limit (1048576)")
  end.

(** A file for the companion tool, and one with a row longer than its
    header. *)
Definition cities_file : file := fun _ =>
  Rows [["city"; "country"; "zip"]; ["Rome"; "IT"; "00100"]; ["Milan"; "IT"];
        []; ["Paris"; "FR"; "75001"]; ["Rome"; "IT"; "00118"]].

Definition long_row_file : file := fun _ =>
  Rows [["city"; "country"]; ["Rome"; "IT"]; ["Paris"; "FR"; "75001"]; ["Milan"; "IT"]].

(** Two valid field definitions. *)
Definition two_fields : list pydict :=
  [[(Some "field", PyString " _a.b "); (Some "type", PyString "string")];
   [(Some "field", PyString ""); (Some "type", PyString "integer")]].

(** A server that rejects everything. *)
Definition failing_server : server := fun _ _ =>
  {| status_code := 500; text := "Internal Server Error";
     json := Raises JSONDecodeError |}.

Definition failing_env : Env :=
  {| csv_file := seven_file; fields_file := []; srv := failing_server;
     time_ns := frozen_clock; literal_eval := Literal.total;
     repr := fun _ => "?"; stem := fun path => path |}.



Definition fields_args (batch : Z) (clear_first index_each : bool)
    (dataset : option string) (pk : string) (path : option string) : Args :=
  {| filename := "data.csv"; server_url := "http://host"; apiKey := "key";
     datasetId := dataset; category := Some ["demo"]; name := None;
     primaryKey := pk; batchSize := batch; index := index_each;
     clear := clear_first; fields_path := path; everyone := true |}.

(* ===================================================================== *)
(** * Properties                                                           *)
(* ===================================================================== *)

(** ** Strings *)

Lemma app_cons c (s t : string) : String c s +:+ t = String c (s +:+ t).
Proof. reflexivity. Qed.

Lemma app_empty_l (s : string) : "" +:+ s = s.
Proof. reflexivity. Qed.

Lemma app_empty_r (s : string) : s +:+ "" = s.
Proof. induction s as [|c s IH]; [reflexivity|]. now rewrite app_cons, IH. Qed.

Lemma app_assoc_str (a b c : string) : (a +:+ b) +:+ c = a +:+ (b +:+ c).
Proof. induction a as [|x a IH]; [reflexivity|]. now rewrite !app_cons, IH. Qed.

Lemma repeat_snoc c k : PyStr.repeat c k +:+ String c "" = PyStr.repeat c (S k).
Proof.
  induction k as [|k IH]; [reflexivity|].
  change (PyStr.repeat c (S k)) with (String c (PyStr.repeat c k)).
  now rewrite app_cons, IH.
Qed.

Lemma leading_split c s :
  s = PyStr.repeat c (PyStr.leading c s) +:+ PyStr.after_leading c s.
Proof.
  induction s as [|d s IH]; simpl; [reflexivity|].
  destruct (Ascii.eqb_spec d c) as [->|Hne]; simpl;
    [rewrite app_cons; now rewrite <- IH | reflexivity].
Qed.

Lemma after_leading_start c s :
  PyStr.startswith (PyStr.after_leading c s) c = false.
Proof.
  induction s as [|d s IH]; simpl; [reflexivity|].
  destruct (Ascii.eqb d c) eqn:E; [exact IH | simpl; exact E].
Qed.

Lemma all_char_after_leading c s :
  PyStr.all_char c s = true <-> PyStr.after_leading c s = "".
Proof.
  induction s as [|d s IH]; simpl; [tauto|].
  destruct (Ascii.eqb d c); simpl; [exact IH | split; discriminate].
Qed.

Lemma all_char_repeat c s :
  PyStr.all_char c s = true -> s = PyStr.repeat c (String.length s).
Proof.
  induction s as [|d s IH]; simpl; [reflexivity|].
  destruct (Ascii.eqb_spec d c) as [->|]; simpl; [|discriminate].
  intros H. now rewrite <- IH.
Qed.

(** ** The rotation loop *)

Lemma rotate_name_all_underscores fuel k :
  rotate_name fuel (PyStr.repeat "_" (S k)) = None.
Proof.
  induction fuel as [|fuel IH]; [reflexivity|].
  simpl. rewrite repeat_snoc. exact IH.
Qed.

Lemma rotate_name_run k : forall fuel r j,
  k <= fuel -> r <> "" -> PyStr.startswith r "_" = false ->
  rotate_name fuel (PyStr.repeat "_" k +:+ r +:+ PyStr.repeat "_" j)
  = Some (r +:+ PyStr.repeat "_" (j + k)).
Proof.
  induction k as [|k IH]; intros fuel r j Hk Hr Hs.
  - rewrite app_empty_l, Nat.add_0_r.
    destruct r as [|d r]; [congruence|].
    simpl in Hs. rewrite app_cons. destruct fuel; simpl; now rewrite Hs.
  - destruct fuel as [|fuel]; [lia|].
    simpl. rewrite !app_assoc_str, repeat_snoc.
    rewrite (IH fuel r (S j)) by (auto; lia).
    now replace (j + S k) with (S j + k) by lia.
Qed.

Lemma rotate_name_fixed fuel name :
  PyStr.startswith name "_" = false -> rotate_name fuel name = Some name.
Proof. intros H. destruct fuel; simpl; now rewrite H. Qed.

Lemma while_rotate_name fuel : forall i (names : list string) name,
  names !! i = Some name ->
  while_rotate fuel i names = (fun name' => <[i := name']> names) <$> rotate_name fuel name.
Proof.
  induction fuel as [|fuel IH]; intros i names name Hi; simpl; rewrite Hi.
  - destruct (PyStr.startswith name "_"); simpl; [reflexivity|].
    now rewrite list_insert_id.
  - destruct (PyStr.startswith name "_"); simpl.
    + erewrite IH by (apply list_lookup_insert_eq; eapply lookup_lt_Some; eauto).
      destruct (rotate_name fuel _); simpl; [|reflexivity].
      now rewrite list_insert_insert_eq.
    + now rewrite list_insert_id.
Qed.

Lemma for_rotate_mapM fuel : forall (rest done : list string),
  for_rotate fuel (seq (length done) (length rest)) (done ++ rest)
  = (fun rest' => done ++ rest') <$> mapM (rotate_name fuel) rest.
Proof.
  induction rest as [|name rest IH]; intros done; simpl.
  - reflexivity.
  - rewrite (while_rotate_name fuel _ _ name) by apply list_lookup_middle, eq_refl.
    destruct (rotate_name fuel name) as [name'|]; simpl; [|reflexivity].
    replace (<[length done := name']> (done ++ name :: rest))
      with ((done ++ [name']) ++ rest).
    2:{ rewrite <- (Nat.add_0_r (length done)) at 1.
        rewrite insert_app_r. simpl. now rewrite <- app_assoc. }
    replace (S (length done)) with (length (done ++ [name']))
      by (rewrite length_app; simpl; lia).
    rewrite IH. destruct (mapM (rotate_name fuel) rest); simpl; [|reflexivity].
    now rewrite <- app_assoc.
Qed.

Lemma rotate_fieldnames_mapM fuel (names : list string) :
  rotate_fieldnames fuel names = mapM (rotate_name fuel) names.
Proof.
  unfold rotate_fieldnames.
  generalize (for_rotate_mapM fuel names []). simpl. intros ->.
  now destruct (mapM (rotate_name fuel) names).
Qed.

Lemma normalize_name_rotate fuel name :
  normalize_name fuel name
  = rotate_name fuel (PyStr.replace "." "_" (PyStr.strip name)).
Proof.
  unfold normalize_name. rewrite rotate_fieldnames_mapM. simpl.
  now destruct (rotate_name fuel _).
Qed.

Lemma has_non_underscore_rest name :
  has_non_underscore name = true <-> PyStr.after_leading "_" name <> "".
Proof.
  unfold has_non_underscore. rewrite negb_true_iff.
  rewrite <- all_char_after_leading. now destruct (PyStr.all_char _ _).
Qed.

Lemma rotate_name_rotated fuel name :
  has_non_underscore name = true -> PyStr.leading "_" name <= fuel ->
  rotate_name fuel name = Some (rotated name).
Proof.
  intros Hn Hf. apply has_non_underscore_rest in Hn.
  rewrite (leading_split "_" name) at 1.
  rewrite <- (app_empty_r (PyStr.after_leading "_" name)) at 1.
  change "" with (PyStr.repeat "_" 0).
  rewrite rotate_name_run; auto using after_leading_start.
Qed.

Lemma rotate_name_stuck fuel name :
  name <> "" -> PyStr.all_char "_" name = true -> rotate_name fuel name = None.
Proof.
  intros Hne Hall. rewrite (all_char_repeat _ _ Hall).
  destruct name as [|c name]; [congruence|]. apply rotate_name_all_underscores.
Qed.

Lemma rotate_fieldnames_rotated fuel (names : list string) :
  Forall (fun n => has_non_underscore n = true) names ->
  rotation_bound names <= fuel ->
  rotate_fieldnames fuel names = Some (rotated <$> names).
Proof.
  intros Hall Hf. rewrite rotate_fieldnames_mapM.
  apply mapM_Some, Forall2_fmap_r, Forall_Forall2_diag.
  rewrite Forall_forall in *. intros n Hn.
  apply rotate_name_rotated; [now apply Hall|].
  etrans; [|exact Hf]. apply max_list_elem_of_le. now apply list_elem_of_fmap_2.
Qed.

Lemma rotate_fieldnames_stuck fuel (names : list string) :
  Exists (fun n => n <> "" /\ PyStr.all_char "_" n = true) names ->
  rotate_fieldnames fuel names = None.
Proof.
  intros H. rewrite rotate_fieldnames_mapM. apply mapM_None.
  eapply Exists_impl; [exact H|]. intros n [? ?]. now apply rotate_name_stuck.
Qed.

(** ** The loop over the encodings *)

Lemma for_encodings_first v fuel f : forall encs ex self enc,
  catches_all v = false ->
  first_decodable f encs = Some enc ->
  exists ex', for_encodings v fuel f encs ex self
              = for_encodings v fuel f [enc] ex' self.
Proof.
  induction encs as [|a encs IH]; intros ex self enc Hv Hfirst; [discriminate|].
  unfold first_decodable in Hfirst. simpl in Hfirst.
  destruct (decodes f a) eqn:D.
  - injection Hfirst as ->. exists ex. unfold decodes in D.
    simpl. destruct (f enc); [discriminate| |]; rewrite ?Hv; reflexivity.
  - unfold decodes in D. simpl.
    destruct (f a) eqn:Fa; try discriminate. now apply IH.
Qed.


Lemma names_at_loop_inv f flds enc names :
  names_at_loop f flds enc = Some names ->
  exists fs rows header,
    explicit_names flds = Returns fs /\ f enc = Rows rows /\
    dictreader_fieldnames fs rows = Some header /\
    clean_names header = Returns names.
Proof.
  unfold names_at_loop. intros H.
  destruct (explicit_names flds) as [fs| |]; try discriminate.
  destruct (f enc) as [| |rows]; try discriminate.
  destruct (dictreader_fieldnames fs rows) as [header|] eqn:Hh; try discriminate.
  destruct (clean_names header) as [names'| |] eqn:Hc; try discriminate.
  injection H as ->. eauto 8.
Qed.

(** What the constructor of [csv_uploader.py] does once the first
    decodable encoding has given a header that could be cleaned. *)
Lemma init_selected fuel f pk flds enc names :
  first_decodable f ENCODINGS = Some enc ->
  names_at_loop f flds enc = Some names ->
  exists fs, explicit_names flds = Returns fs /\
    init fuel f pk flds =
      match rotate_fieldnames fuel names with
      | None =>
          ({| primary_key := pk; fields := fs; encoding := Some enc;
              fieldnames := Some names |}, Diverges)
      | Some names' =>
          ({| primary_key := pk; fields := fs; encoding := Some enc;
              fieldnames := Some (fill_empty 0 names') |}, Returns tt)
      end.
Proof.
  intros Hfirst Hnames.
  destruct (names_at_loop_inv _ _ _ _ Hnames) as (fs & rows & header & Hfs & Hf & Hh & Hc).
  exists fs. split; [exact Hfs|].
  unfold init, init_of. rewrite Hfs.
  edestruct (for_encodings_first csv_uploader fuel f ENCODINGS None) as [ex' ->];
    [reflexivity | exact Hfirst |].
  simpl. rewrite Hf. simpl. rewrite Hh, Hc.
  destruct (rotate_fieldnames fuel names); reflexivity.
Qed.

Lemma for_encodings_all_fail v fuel f : forall encs ex self,
  first_decodable f encs = None ->
  exists ex', for_encodings v fuel f encs ex self = (self, Returns ex') /\
    (encs = [] -> ex' = ex) /\
    (forall enc r, last encs = Some enc -> f enc = DecodeFailure r ->
                   ex' = Some (UnicodeDecodeError r)).
Proof.
  induction encs as [|a encs IH]; intros ex self Hnone.
  - exists ex. split; [reflexivity|]. split; [auto | discriminate].
  - unfold first_decodable in Hnone. simpl in Hnone.
    destruct (decodes f a) eqn:D; [discriminate|]. unfold decodes in D.
    destruct (f a) as [r0| |] eqn:Fa; try discriminate.
    destruct (IH (Some (UnicodeDecodeError r0)) self Hnone) as (ex' & Hrun & Hnil & Hlast).
    exists ex'. simpl. rewrite Fa. split; [exact Hrun|]. split; [discriminate|].
    intros enc r Hl Hr. destruct encs as [|b encs].
    + injection Hl as <-. rewrite Hnil by reflexivity. congruence.
    + apply (Hlast enc r); [exact Hl | exact Hr].
Qed.

Lemma init_encoding fuel f pk flds fs enc rows :
  explicit_names flds = Returns fs ->
  first_decodable f ENCODINGS = Some enc ->
  f enc = Rows rows ->
  encoding (init fuel f pk flds).1 = Some enc.
Proof.
  intros Hfs Hfirst Hf. unfold init, init_of. rewrite Hfs.
  edestruct (for_encodings_first csv_uploader fuel f ENCODINGS None) as [ex' ->];
    [reflexivity | exact Hfirst |].
  simpl. rewrite Hf. simpl.
  destruct (dictreader_fieldnames fs rows) as [header|]; [|reflexivity].
  destruct (clean_names header) as [names| |]; try reflexivity.
  destruct (rotate_fieldnames fuel names); reflexivity.
Qed.

Lemma init_all_fail fuel f pk flds fs reason :
  explicit_names flds = Returns fs ->
  first_decodable f ENCODINGS = None ->
  f ascii_enc = DecodeFailure reason ->
  (init fuel f pk flds).2 = Raises (UnicodeDecodeError reason).
Proof.
  intros Hfs Hnone Hlast. unfold init, init_of. rewrite Hfs.
  edestruct (for_encodings_all_fail csv_uploader fuel f ENCODINGS None)
    as (ex' & -> & _ & Hex); [exact Hnone|].
  rewrite (Hex ascii_enc reason eq_refl Hlast). reflexivity.
Qed.

(** ** Trimming and dot replacement *)

Lemma isspace_dot_underscore c :
  PyStr.isspace (if Ascii.eqb c "." then "_"%char else c) = PyStr.isspace c.
Proof. destruct (Ascii.eqb_spec c "."%char) as [->|]; reflexivity. Qed.

Lemma replace_empty_iff s : PyStr.replace "." "_" s = "" <-> s = "".
Proof. destruct s; simpl; split; congruence. Qed.

Lemma rstrip_replace s :
  PyStr.rstrip (PyStr.replace "." "_" s) = PyStr.replace "." "_" (PyStr.rstrip s).
Proof.
  induction s as [|c s IH]; [reflexivity|].
  simpl. rewrite IH, isspace_dot_underscore.
  destruct (PyStr.rstrip s) as [|d r]; simpl; [|reflexivity].
  now destruct (PyStr.isspace c).
Qed.

Lemma rstrip_idem s : PyStr.rstrip (PyStr.rstrip s) = PyStr.rstrip s.
Proof.
  induction s as [|c s IH]; [reflexivity|].
  simpl. destruct (PyStr.rstrip s) as [|d r] eqn:E.
  - destruct (PyStr.isspace c) eqn:Hc; simpl; [reflexivity | now rewrite Hc].
  - simpl. simpl in IH. now rewrite IH.
Qed.

Lemma rstrip_app (s t : string) :
  t <> "" -> PyStr.rstrip t = t -> PyStr.rstrip (s +:+ t) = s +:+ t.
Proof.
  intros Hne Ht. induction s as [|c s IH]; [exact Ht|].
  rewrite app_cons. simpl. rewrite IH.
  destruct (s +:+ t) eqn:E; [|reflexivity].
  destruct s; [rewrite app_empty_l in E; congruence | discriminate].
Qed.

Lemma rstrip_underscores k : PyStr.rstrip (PyStr.repeat "_" k) = PyStr.repeat "_" k.
Proof.
  induction k as [|k IH]; [reflexivity|].
  simpl. rewrite IH. now destruct (PyStr.repeat "_" k).
Qed.

Lemma lstrip_nonspace s : PyStr.starts_nonspace s = true -> PyStr.lstrip s = s.
Proof. destruct s as [|c s]; simpl; [discriminate|]. now destruct (PyStr.isspace c). Qed.

Lemma replace_app a b :
  PyStr.replace "." "_" (a +:+ b) = PyStr.replace "." "_" a +:+ PyStr.replace "." "_" b.
Proof. induction a as [|c a IH]; [reflexivity|]. rewrite app_cons. simpl. now rewrite IH, app_cons. Qed.

Lemma replace_idem s :
  PyStr.replace "." "_" (PyStr.replace "." "_" s) = PyStr.replace "." "_" s.
Proof.
  induction s as [|c s IH]; [reflexivity|]. simpl. rewrite IH. f_equal.
  destruct (Ascii.eqb_spec c "."%char) as [->|Hne]; [reflexivity|].
  now apply Ascii.eqb_neq in Hne as ->.
Qed.

Lemma replace_underscores k : PyStr.replace "." "_" (PyStr.repeat "_" k) = PyStr.repeat "_" k.
Proof. induction k as [|k IH]; [reflexivity|]. simpl. now rewrite IH. Qed.

Lemma starts_nonspace_app r t :
  PyStr.starts_nonspace r = true -> PyStr.starts_nonspace (r +:+ t) = true.
Proof. destruct r; [discriminate|]. now rewrite app_cons. Qed.

Lemma startswith_app r t c :
  r <> "" -> PyStr.startswith (r +:+ t) c = PyStr.startswith r c.
Proof. destruct r; [congruence|]. now rewrite app_cons. Qed.

(** ** Claims about the constructor *)

(** C1.  The constructor of [csv_uploader.py] commits to the first
    encoding of the list, in its order, on which decoding does not fail:
    when that encoding lets the whole file be read, [self.encoding] is
    assigned that encoding however the rest of the construction ends, and
    when moreover every header name has a character other than ['_'] the
    construction returns with it.  When decoding fails for every encoding
    of the list, the construction raises the decoding failure of the last
    one, ['ascii']. *)
Theorem encoding_selection :
  (forall (f : file) (pk : string) (flds fs : option (list pyval))
          (enc : Encoding) (rows : list (list string)) (fuel : nat),
      explicit_names flds = Returns fs ->
      first_decodable f ENCODINGS = Some enc ->
      f enc = Rows rows ->
      encoding (init fuel f pk flds).1 = Some enc)
  /\ (forall (f : file) (pk : string) (flds : option (list pyval))
             (enc : Encoding) (names : list string) (fuel : nat),
      first_decodable f ENCODINGS = Some enc ->
      names_at_loop f flds enc = Some names ->
      Forall (fun n => has_non_underscore n = true) names ->
      rotation_bound names <= fuel ->
      exists self, init fuel f pk flds = (self, Returns tt)
                   /\ encoding self = Some enc)
  /\ (forall (f : file) (pk : string) (flds fs : option (list pyval))
             (reason : string) (fuel : nat),
      explicit_names flds = Returns fs ->
      first_decodable f ENCODINGS = None ->
      f ascii_enc = DecodeFailure reason ->
      (init fuel f pk flds).2 = Raises (UnicodeDecodeError reason)).
Proof.
  split; [|split].
  - intros. eapply init_encoding; eauto.
  - intros f pk flds enc names fuel Hfirst Hnames Hall Hfuel.
    destruct (init_selected fuel f pk flds enc names Hfirst Hnames) as (fs & _ & ->).
    rewrite rotate_fieldnames_rotated by assumption. eauto.
  - intros. eapply init_all_fail; eauto.
Qed.

Lemma encoding_selection_witness :
  encoding (init 0 latin1_file "name" None).1 = Some iso_8859_1
  /\ (exists self, init 2 latin1_file "name" None = (self, Returns tt)
                   /\ encoding self = Some iso_8859_1)
  /\ (init 0 undecodable_file "name" None).2
     = Raises (UnicodeDecodeError "ordinal not in range(128)").
Proof.
  destruct encoding_selection as (Hsel & Hret & Hfail).
  split; [|split].
  - apply (Hsel latin1_file "name" None None iso_8859_1
                [["name"; "__tag.id"]; ["cafe"; "7"]] 0); reflexivity.
  - apply (Hret latin1_file "name" None iso_8859_1 ["name"; "__tag_id"] 2);
      [reflexivity | reflexivity | repeat constructor | vm_compute; lia].
  - apply (Hfail undecodable_file "name" None None "ordinal not in range(128)" 0);
      reflexivity.
Defined.

(** C10 (as amended).  In [csv_uploader.py] the rotation loop never ends
    when some header name, after trimming and dot replacement, is a
    non-empty string of underscores only: the construction diverges
    whatever the fuel.  It ends, and the construction returns, when every
    header name, after trimming and dot replacement, has a character other
    than ['_']. *)
Theorem rotation_loop_termination :
  (forall (f : file) (pk : string) (flds : option (list pyval))
          (enc : Encoding) (names : list string),
      first_decodable f ENCODINGS = Some enc ->
      names_at_loop f flds enc = Some names ->
      Exists (fun n => n <> "" /\ PyStr.all_char "_" n = true) names ->
      forall fuel, (init fuel f pk flds).2 = Diverges)
  /\ (forall (f : file) (pk : string) (flds : option (list pyval))
             (enc : Encoding) (names : list string),
      first_decodable f ENCODINGS = Some enc ->
      names_at_loop f flds enc = Some names ->
      Forall (fun n => has_non_underscore n = true) names ->
      forall fuel, rotation_bound names <= fuel ->
                   (init fuel f pk flds).2 = Returns tt).
Proof.
  split.
  - intros f pk flds enc names Hfirst Hnames Hex fuel.
    destruct (init_selected fuel f pk flds enc names Hfirst Hnames) as (fs & _ & ->).
    now rewrite rotate_fieldnames_stuck.
  - intros f pk flds enc names Hfirst Hnames Hall fuel Hfuel.
    destruct (init_selected fuel f pk flds enc names Hfirst Hnames) as (fs & _ & ->).
    now rewrite rotate_fieldnames_rotated.
Qed.

Lemma rotation_loop_termination_witness :
  (forall fuel, (init fuel underscore_file "a" None).2 = Diverges)
  /\ (forall fuel, 2 <= fuel -> (init fuel latin1_file "name" None).2 = Returns tt).
Proof.
  destruct rotation_loop_termination as (Hloop & Hend).
  split.
  - apply (Hloop underscore_file "a" None utf_8_sig ["a"; "__"]);
      [reflexivity | reflexivity |].
    apply Exists_cons_tl, Exists_cons_hd. split; [discriminate | reflexivity].
  - apply (Hend latin1_file "name" None iso_8859_1 ["name"; "__tag_id"]);
      [reflexivity | reflexivity | repeat constructor].
Defined.

(** C10 as it is written fails on the header [["."]]: its only name has a
    character other than ['_'], namely the dot, and the construction never
    ends, because the dot is an underscore by the time the loop starts. *)
Lemma dot_header_diverges :
  Forall (fun n => has_non_underscore n = true) ["."]
  /\ (forall enc, dot_file enc = Rows [["."]; ["1"]])
  /\ (forall fuel, (init fuel dot_file "id" None).2 = Diverges).
Proof.
  split; [repeat constructor | split; [reflexivity|]].
  intros fuel.
  destruct (init_selected fuel dot_file "id" None utf_8_sig ["_"] eq_refl eq_refl)
    as (fs & _ & ->).
  rewrite rotate_fieldnames_stuck; [reflexivity|].
  apply Exists_cons_hd. split; [discriminate | reflexivity].
Qed.

(** ** Field-name normalization *)

(** C3 as it is written fails: normalizing ["_ a"] gives [" a_"], and
    normalizing that again trims the blank the rotation has uncovered. *)
Lemma normalize_not_idempotent :
  normalize_name 1 "_ a" = Some " a_"
  /\ normalize_name 1 " a_" = Some "a_"
  /\ " a_" <> "a_".
Proof. repeat split; discriminate. Qed.

(** C3 (as amended).  Normalization in [csv_uploader.py] returns unchanged
    every name that is trimmed, has no dot and does not start with ['_'].
    When the trimmed, dot-replaced name is [k] underscores followed by a
    non-empty rest that does not start with ['_'], the result is the rest
    followed by these [k] underscores: the whole run is moved, once.
    Normalizing that result again returns it unchanged whenever the rest
    does not start with white space. *)
Theorem normalization_idempotent :
  (forall (fuel : nat) (name : string),
      PyStr.strip name = name ->
      PyStr.replace "." "_" name = name ->
      PyStr.startswith name "_" = false ->
      normalize_name fuel name = Some name)
  /\ (forall (fuel : nat) (name : string) (k : nat) (rest : string),
      PyStr.replace "." "_" (PyStr.strip name) = PyStr.repeat "_" k +:+ rest ->
      rest <> "" ->
      PyStr.startswith rest "_" = false ->
      k <= fuel ->
      normalize_name fuel name = Some (rest +:+ PyStr.repeat "_" k)
      /\ (PyStr.starts_nonspace rest = true ->
          normalize_name fuel (rest +:+ PyStr.repeat "_" k)
          = Some (rest +:+ PyStr.repeat "_" k))).
Proof.
  split.
  - intros fuel name Hs Hr Hu.
    rewrite normalize_name_rotate, Hs, Hr. now apply rotate_name_fixed.
  - intros fuel name k rest Hname Hne Hu Hk.
    assert (Hrot : normalize_name fuel name = Some (rest +:+ PyStr.repeat "_" k)).
    { rewrite normalize_name_rotate, Hname.
      rewrite <- (app_empty_r rest) at 1. change "" with (PyStr.repeat "_" 0) at 1.
      now rewrite rotate_name_run. }
    split; [exact Hrot|]. intros Hsp.
    assert (Hrest : PyStr.replace "." "_" rest = rest).
    { pose proof (replace_idem (PyStr.strip name)) as Hi.
      rewrite Hname, replace_app, replace_underscores in Hi.
      now apply (inj (String.app _)) in Hi. }
    assert (Hrs : PyStr.rstrip (rest +:+ PyStr.repeat "_" k) = rest +:+ PyStr.repeat "_" k).
    { destruct k as [|k].
      - rewrite app_empty_l in Hname. simpl. rewrite app_empty_r, <- Hname.
        unfold PyStr.strip. now rewrite rstrip_replace, rstrip_idem.
      - apply rstrip_app; [discriminate | apply rstrip_underscores]. }
    rewrite normalize_name_rotate. unfold PyStr.strip.
    rewrite lstrip_nonspace by now apply starts_nonspace_app.
    rewrite Hrs, replace_app, replace_underscores, Hrest.
    apply rotate_name_fixed. now rewrite startswith_app.
Qed.

Lemma normalization_idempotent_witness :
  normalize_name 0 "first name" = Some "first name"
  /\ normalize_name 2 " __x.y " = Some "x_y__"
  /\ normalize_name 2 "x_y__" = Some "x_y__".
Proof.
  destruct normalization_idempotent as (Hfix & Hrun).
  split.
  - apply (Hfix 0 "first name"); reflexivity.
  - destruct (Hrun 2 " __x.y " 2 "x_y") as (H1 & H2);
      [reflexivity | discriminate | reflexivity | lia |].
    split; [exact H1 | apply H2; reflexivity].
Defined.

(** ** Reading the records *)

Lemma dictreader_next_None names rows :
  dictreader_next names rows = None -> List.filter nonblank rows = [].
Proof.
  induction rows as [|row rows IH]; [reflexivity|].
  destruct row; simpl; [exact IH | discriminate].
Qed.

Lemma dictreader_next_Some names rows record rest :
  dictreader_next names rows = Some (record, rest) ->
  exists row, record = dict_of_row names row
              /\ List.filter nonblank rows = row :: List.filter nonblank rest
              /\ length rest < length rows.
Proof.
  induction rows as [|row rows IH]; [discriminate|].
  destruct row as [|c row]; simpl.
  - intros H. destruct (IH H) as (row' & ? & ? & ?). exists row'. auto with lia.
  - intros [= <- <-]. exists (c :: row). auto with lia.
Qed.

Lemma for_rows_S rounds auto time_ns names rows ids :
  for_rows (S rounds) auto time_ns names rows ids
  = match dictreader_next names rows with
    | None => ([], ids)
    | Some (row, rest) =>
        if auto then
          let '(id, ids1) := _make_id time_ns ids in
          let '(more, ids2) := for_rows rounds auto time_ns names rest ids1 in
          (dict_set (Some "id") (PyString id) row :: more, ids2)
        else
          let '(more, ids2) := for_rows rounds auto time_ns names rest ids in
          (row :: more, ids2)
    end.
Proof. reflexivity. Qed.

Lemma make_ids_S n time_ns st :
  make_ids (S n) time_ns st
  = (_make_id time_ns st).1 :: make_ids n time_ns (_make_id time_ns st).2.
Proof. unfold make_ids at 1. fold make_ids. now destruct (_make_id time_ns st). Qed.

Lemma for_rows_plain time_ns names : forall rounds rows ids,
  length rows <= rounds ->
  (for_rows rounds false time_ns names rows ids).1
  = dict_of_row names <$> List.filter nonblank rows.
Proof.
  induction rounds as [|rounds IH]; intros rows ids Hlen.
  - destruct rows; [reflexivity | simpl in Hlen; lia].
  - rewrite for_rows_S.
    destruct (dictreader_next names rows) as [[record rest]|] eqn:Hnext.
    + destruct (dictreader_next_Some _ _ _ _ Hnext) as (row & -> & -> & Hlt).
      specialize (IH rest ids ltac:(lia)).
      destruct (for_rows rounds false time_ns names rest ids) as [more ids2].
      simpl in IH. rewrite fmap_cons, <- IH. reflexivity.
    + now rewrite (dictreader_next_None _ _ Hnext).
Qed.

Lemma for_rows_auto time_ns names : forall rounds rows ids,
  length rows <= rounds ->
  (for_rows rounds true time_ns names rows ids).1
  = zip_with (with_id names)
             (make_ids (length (List.filter nonblank rows)) time_ns ids)
             (List.filter nonblank rows).
Proof.
  induction rounds as [|rounds IH]; intros rows ids Hlen.
  - destruct rows; [reflexivity | simpl in Hlen; lia].
  - rewrite for_rows_S.
    destruct (dictreader_next names rows) as [[record rest]|] eqn:Hnext.
    + destruct (dictreader_next_Some _ _ _ _ Hnext) as (row & -> & -> & Hlt).
      rewrite length_cons, make_ids_S.
      destruct (_make_id time_ns ids) as [id ids1].
      specialize (IH rest ids1 ltac:(lia)).
      destruct (for_rows rounds true time_ns names rest ids1) as [more ids2].
      simpl in IH. simpl. rewrite <- IH. reflexivity.
    + now rewrite (dictreader_next_None _ _ Hnext).
Qed.

Lemma length_make_ids time_ns : forall n st, length (make_ids n time_ns st) = n.
Proof.
  induction n as [|n IH]; intros st; [reflexivity|].
  rewrite make_ids_S, length_cons. now rewrite IH.
Qed.

(** What the generator yields, for an extractor whose encoding reads the
    file as [rows]. *)
Lemma extract_records_yielded time_ns f self ids enc names rows :
  encoding self = Some enc -> fieldnames self = Some names -> f enc = Rows rows ->
  yielded (extract_records time_ns f self ids).1
  = if String.eqb (primary_key self) AUTO_PRIMARY_KEY
    then zip_with (with_id names)
                  (make_ids (length (data_rows rows)) time_ns ids) (data_rows rows)
    else dict_of_row names <$> data_rows rows.
Proof.
  intros He Hn Hf. unfold extract_records, data_rows. rewrite He, Hn, Hf.
  destruct (dictreader_next names rows) as [[record rest]|] eqn:Hnext.
  - destruct (dictreader_next_Some _ _ _ _ Hnext) as (row & _ & -> & _).
    simpl List.tl.
    destruct (String.eqb (primary_key self) AUTO_PRIMARY_KEY).
    + pose proof (for_rows_auto time_ns names (length rest) rest ids (le_n _)) as H.
      destruct (for_rows _ true _ _ _ _). exact H.
    + pose proof (for_rows_plain time_ns names (length rest) rest ids (le_n _)) as H.
      destruct (for_rows _ false _ _ _ _). exact H.
  - rewrite (dictreader_next_None _ _ Hnext). simpl.
    now destruct (String.eqb _ _).
Qed.

Lemma extract_records_ending time_ns f self ids enc names rows :
  encoding self = Some enc -> fieldnames self = Some names -> f enc = Rows rows ->
  ending (extract_records time_ns f self ids).1
  = if List.existsb nonblank rows then Returns tt
    else Raises (RuntimeError "generator raised StopIteration").
Proof.
  intros He Hn Hf. unfold extract_records. rewrite He, Hn, Hf.
  destruct (dictreader_next names rows) as [[record rest]|] eqn:Hnext.
  - destruct (for_rows _ _ _ _ _ _). simpl.
    assert (List.existsb nonblank rows = true) as ->; [|reflexivity].
    clear -Hnext. induction rows as [|row rows IH]; [discriminate|].
    destruct row; simpl in *; auto.
  - simpl. assert (List.existsb nonblank rows = false) as ->; [|reflexivity].
    clear -Hnext. induction rows as [|row rows IH]; [reflexivity|].
    destruct row; simpl in *; [auto | discriminate].
Qed.

(** An extractor whose construction returned has an encoding that reads
    the file, and field names. *)
Lemma for_encodings_returned fuel f : forall encs ex self self',
  for_encodings csv_uploader fuel f encs ex self = (self', Returns None) ->
  (self' = self /\ ex = None)
  \/ exists enc rows names,
       encoding self' = Some enc /\ f enc = Rows rows /\ fieldnames self' = Some names.
Proof.
  induction encs as [|a encs IH]; intros ex self self' H; simpl in H.
  - injection H as <- <-. now left.
  - destruct (f a) as [r|e|rows] eqn:Fa.
    + apply IH in H as [[_ ?]|?]; [discriminate | now right].
    + discriminate.
    + simpl in H. destruct (dictreader_fieldnames _ rows) as [header|]; [|discriminate].
      destruct (clean_names header) as [names| |]; try discriminate.
      destruct (rotate_fieldnames fuel names) as [names'|]; [|discriminate].
      injection H as <-. right. exists a, rows, names'. auto.
Qed.

Lemma for_encodings_primary_key fuel f : forall encs ex self self' r,
  for_encodings csv_uploader fuel f encs ex self = (self', r) ->
  primary_key self' = primary_key self.
Proof.
  induction encs as [|a encs IH]; intros ex self self' r; simpl.
  - now intros [= <- _].
  - destruct (f a) as [reason|e|rows]; [apply IH | now intros [= <- _] |].
    simpl. destruct (dictreader_fieldnames _ _) as [header|]; [|now intros [= <- _]].
    destruct (clean_names header) as [names| |]; try now intros [= <- _].
    destruct (rotate_fieldnames fuel names); now intros [= <- _].
Qed.

Lemma init_returned fuel f pk flds self :
  init fuel f pk flds = (self, Returns tt) ->
  primary_key self = pk
  /\ exists enc rows names,
       encoding self = Some enc /\ f enc = Rows rows /\ fieldnames self = Some names.
Proof.
  unfold init, init_of. destruct (explicit_names flds) as [fs| |]; try discriminate.
  destruct (for_encodings _ _ _ _ _ _) as [self' [[e|]| |]] eqn:Hloop; try discriminate.
  pose proof (for_encodings_primary_key _ _ _ _ _ _ _ Hloop) as Hpk.
  apply for_encodings_returned in Hloop as [[-> _]|(enc & rows & names & He & Hf & Hn)].
  - discriminate.
  - rewrite Hn. intros [= <-]. simpl. split; [exact Hpk | eauto 6].
Qed.

(** C8.  For every file on which the construction returned,
    [extract_records] yields the records of the data rows of the file (its
    non-blank rows after the header row), in the order of the file and one
    for each of them, so as many records as the file has data rows.  In
    the auto-identifier mode the record also carries its identifier. *)
Theorem extract_records_one_per_row :
  forall (time_ns : nat -> Z) (fuel : nat) (f : file) (pk : string)
         (flds : option (list pyval)) (self : CsvExtractor) (ids : id_state),
    init fuel f pk flds = (self, Returns tt) ->
    exists enc rows names,
      encoding self = Some enc /\ f enc = Rows rows /\ fieldnames self = Some names
      /\ yielded (extract_records time_ns f self ids).1
         = (if String.eqb pk AUTO_PRIMARY_KEY
            then zip_with (with_id names)
                          (make_ids (length (data_rows rows)) time_ns ids)
                          (data_rows rows)
            else dict_of_row names <$> data_rows rows)
      /\ length (yielded (extract_records time_ns f self ids).1)
         = length (data_rows rows).
Proof.
  intros time_ns fuel f pk flds self ids Hinit.
  destruct (init_returned _ _ _ _ _ Hinit) as (Hpk & enc & rows & names & He & Hf & Hn).
  exists enc, rows, names. repeat (split; [assumption|]).
  rewrite (extract_records_yielded time_ns f self ids enc names rows He Hn Hf), Hpk.
  split; [reflexivity|].
  destruct (String.eqb pk AUTO_PRIMARY_KEY).
  - rewrite length_zip_with, length_make_ids. lia.
  - apply length_fmap.
Qed.

Lemma extract_records_one_per_row_witness :
  exists enc rows names,
    encoding (init 0 ragged_file "id" None).1 = Some enc
    /\ ragged_file enc = Rows rows
    /\ fieldnames (init 0 ragged_file "id" None).1 = Some names
    /\ yielded (extract_records frozen_clock ragged_file
                  (init 0 ragged_file "id" None).1 fresh_ids).1
       = (if String.eqb "id" AUTO_PRIMARY_KEY
          then zip_with (with_id names)
                        (make_ids (length (data_rows rows)) frozen_clock fresh_ids)
                        (data_rows rows)
          else dict_of_row names <$> data_rows rows)
    /\ length (yielded (extract_records frozen_clock ragged_file
                          (init 0 ragged_file "id" None).1 fresh_ids).1)
       = length (data_rows rows).
Proof.
  apply (extract_records_one_per_row frozen_clock 0 ragged_file "id" None).
  reflexivity.
Defined.

(** ** Identifiers *)

Section Identifiers.
Local Open Scope Z_scope.

Lemma testbit_small a n m : 0 <= a < 2 ^ n -> n <= m -> Z.testbit a m = false.
Proof.
  intros [Ha Hlt] Hnm. destruct (Z.eq_dec a 0) as [->|Hne]; [apply Z.bits_0|].
  apply Z.bits_above_log2; [lia|].
  assert (Z.log2 a < n); [|lia]. apply Z.log2_lt_pow2; lia.
Qed.

Ltac side := first [ assumption | lia | split; [lia | reflexivity] ].

Ltac small_bit c e :=
  first [ rewrite (Z.testbit_neg_r c e) by lia
        | rewrite (testbit_small c 1 e) by side
        | rewrite (testbit_small c 4 e) by side
        | rewrite (testbit_small c 6 e) by side
        | rewrite (testbit_small c 8 e) by side
        | rewrite (testbit_small c 16 e) by side
        | rewrite (testbit_small c 48 e) by side ].

Ltac bit_step :=
  match goal with
  | |- context [Z.testbit (Z.lor ?a ?b) ?e] => rewrite (Z.lor_spec a b e)
  | |- context [Z.testbit (Z.land ?a ?b) ?e] => rewrite (Z.land_spec a b e)
  | |- context [Z.testbit (Z.lnot ?a) ?e] => rewrite (Z.lnot_spec a e) by lia
  | |- context [Z.testbit (Z.shiftl ?a ?n) ?e] =>
      first [ rewrite (Z.shiftl_spec a n e) by lia
            | rewrite (Z.testbit_neg_r (Z.shiftl a n) e) by lia ]
  | |- context [Z.testbit (Z.shiftr ?a ?n) ?e] =>
      first [ rewrite (Z.shiftr_spec a n e) by lia
            | rewrite (Z.testbit_neg_r (Z.shiftr a n) e) by lia ]
  | |- context [Z.testbit (Z.ones ?n) ?e] =>
      first [ rewrite (Z.ones_spec_low n e) by lia
            | rewrite (Z.ones_spec_high n e) by lia
            | rewrite (Z.testbit_neg_r (Z.ones n) e) by lia ]
  | |- context [Z.testbit ?c ?e] => small_bit c e
  end.

Ltac bits :=
  change 0xffffffff with (Z.ones 32);
  change 0xffff with (Z.ones 16);
  change 0x0fff with (Z.ones 12);
  change 0xf000 with (Z.shiftl 15 12);
  repeat bit_step;
  rewrite ?andb_false_r, ?andb_true_r, ?orb_false_r, ?orb_false_l; simpl.

Lemma of_time_low ts cs node i :
  0 <= node < 2 ^ 48 -> 0 <= i < 32 ->
  Z.testbit (Uuid.of_time ts cs node) (96 + i) = Z.testbit ts i.
Proof.
  intros Hn Hi. unfold Uuid.of_time, Uuid.of_fields. bits. f_equal; lia.
Qed.
Lemma of_time_mid ts cs node i :
  0 <= node < 2 ^ 48 -> 0 <= i < 16 ->
  Z.testbit (Uuid.of_time ts cs node) (80 + i) = Z.testbit ts (32 + i).
Proof.
  intros Hn Hi. unfold Uuid.of_time, Uuid.of_fields. bits. f_equal; lia.
Qed.
Lemma of_time_hi ts cs node i :
  0 <= node < 2 ^ 48 -> 0 <= i < 12 ->
  Z.testbit (Uuid.of_time ts cs node) (64 + i) = Z.testbit ts (48 + i).
Proof.
  intros Hn Hi. unfold Uuid.of_time, Uuid.of_fields. bits. f_equal; lia.
Qed.

Lemma of_time_inj ts1 ts2 cs1 cs2 node :
  0 <= node < 2 ^ 48 -> 0 <= ts1 < 2 ^ 60 -> 0 <= ts2 < 2 ^ 60 ->
  (forall j, 0 <= j < 128 ->
     Z.testbit (Uuid.of_time ts1 cs1 node) j = Z.testbit (Uuid.of_time ts2 cs2 node) j) ->
  ts1 = ts2.
Proof.
  intros Hn H1 H2 Hbits. apply Z.bits_inj'. intros i Hi.
  destruct (Z.lt_ge_cases i 32); [|destruct (Z.lt_ge_cases i 48); [|destruct (Z.lt_ge_cases i 60)]].
  - rewrite <- (of_time_low ts1 cs1 node i), <- (of_time_low ts2 cs2 node i) by lia.
    apply Hbits; lia.
  - replace i with (32 + (i - 32)) by lia.
    rewrite <- (of_time_mid ts1 cs1 node (i - 32)), <- (of_time_mid ts2 cs2 node (i - 32)) by lia.
    apply Hbits; lia.
  - replace i with (48 + (i - 48)) by lia.
    rewrite <- (of_time_hi ts1 cs1 node (i - 48)), <- (of_time_hi ts2 cs2 node (i - 48)) by lia.
    apply Hbits; lia.
  - now rewrite !(testbit_small _ 60 i).
Qed.

Lemma length_app_str (a b : string) :
  String.length (a +:+ b) = (String.length a + String.length b)%nat.
Proof. induction a as [|c a IH]; [reflexivity|]. rewrite app_cons. simpl. now rewrite IH. Qed.

Lemma hex_length w : forall x, String.length (Uuid.hex w x) = w.
Proof.
  induction w as [|w IH]; intros x; [reflexivity|].
  simpl. rewrite length_app_str, IH. simpl. lia.
Qed.

Lemma snoc_inj (s1 : string) : forall s2 c1 c2,
  s1 +:+ String c1 "" = s2 +:+ String c2 "" -> s1 = s2 /\ c1 = c2.
Proof.
  induction s1 as [|d1 s1 IH]; intros [|d2 s2] c1 c2; rewrite ?app_cons, ?app_empty_l.
  - now intros [= ->].
  - intros [= -> H]. now destruct s2.
  - intros [= -> H]. now destruct s1.
  - intros [= -> H]. apply IH in H as [-> ->]. auto.
Qed.

Lemma hex_digit_inj a b :
  0 <= a < 16 -> 0 <= b < 16 -> Uuid.hex_digit a = Uuid.hex_digit b -> a = b.
Proof.
  intros Ha Hb H. unfold Uuid.hex_digit in H.
  apply (f_equal nat_of_ascii) in H.
  destruct (Z.ltb_spec a 10), (Z.ltb_spec b 10);
    rewrite !nat_ascii_embedding in H by lia; lia.
Qed.

Lemma hex_inj w : forall x y,
  Uuid.hex w x = Uuid.hex w y -> x mod 16 ^ Z.of_nat w = y mod 16 ^ Z.of_nat w.
Proof.
  induction w as [|w IH]; intros x y H.
  - now rewrite !Z.mod_1_r.
  - simpl in H. apply snoc_inj in H as [Hhi Hlo].
    apply IH in Hhi. apply hex_digit_inj in Hlo; try (apply Z.mod_pos_bound; lia).
    rewrite Nat2Z.inj_succ, Z.pow_succ_r by lia.
    rewrite !(Z.rem_mul_r _ 16) by lia. now rewrite Hhi, Hlo.
Qed.

Lemma dashed_inj h1 h2 :
  String.length h1 = 32%nat -> String.length h2 = 32%nat ->
  Uuid.dashed h1 = Uuid.dashed h2 -> h1 = h2.
Proof.
  intros L1 L2.
  do 32 (destruct h1 as [|? h1]; [discriminate|]). destruct h1; [|discriminate].
  do 32 (destruct h2 as [|? h2]; [discriminate|]). destruct h2; [|discriminate].
  cbv [Uuid.dashed substring String.length Nat.sub String.append].
  intros H. injection H. intros. subst. reflexivity.
Qed.

Lemma to_str_inj x y :
  Uuid.to_str x = Uuid.to_str y ->
  forall j, 0 <= j < 128 -> Z.testbit x j = Z.testbit y j.
Proof.
  intros H j Hj. apply dashed_inj in H; try apply hex_length.
  apply hex_inj in H. change (16 ^ Z.of_nat 32) with (2 ^ 128) in H.
  rewrite <- (Z.mod_pow2_bits_low x 128 j), <- (Z.mod_pow2_bits_low y 128 j) by lia.
  now rewrite H.
Qed.

Lemma make_id_eq time_ns st :
  _make_id time_ns st
  = let ts := Uuid.next_timestamp (time_ns (Uuid.reads (uuid_clock st)))
                                  (Uuid.last_timestamp (uuid_clock st)) in
    (Uuid.to_str (Uuid.of_time ts (_clock_seq st + 1) (_node st)),
     {| _node := _node st; _clock_seq := _clock_seq st + 1;
        uuid_clock := {| Uuid.last_timestamp := Some ts;
                         Uuid.reads := S (Uuid.reads (uuid_clock st)) |} |}).
Proof. reflexivity. Qed.

Lemma next_timestamp_bounds ns last B :
  0 <= ns -> ns / 100 + Uuid.EPOCH_OFFSET <= B ->
  (forall l, last = Some l -> 0 <= l <= B) ->
  0 <= Uuid.next_timestamp ns last <= B + 1
  /\ (forall l, last = Some l -> l < Uuid.next_timestamp ns last).
Proof.
  intros Hns HB Hlast. unfold Uuid.next_timestamp, Uuid.EPOCH_OFFSET in *.
  assert (0 <= ns / 100) by (apply Z.div_pos; lia).
  destruct last as [l|].
  - specialize (Hlast l eq_refl).
    destruct (Z.leb_spec (ns / 100 + 122192928000000000) l);
      (split; [lia | intros ? [= <-]; lia]).
  - split; [lia | discriminate].
Qed.

(** Every identifier of a run comes from a timestamp above the one the
    run started from, and below the bound the clock allows. *)
Lemma make_ids_timestamps time_ns : forall n st B,
  (forall k, 0 <= time_ns k /\ time_ns k / 100 + Uuid.EPOCH_OFFSET <= B) ->
  (forall l, Uuid.last_timestamp (uuid_clock st) = Some l -> 0 <= l <= B) ->
  forall id, id ∈ make_ids n time_ns st ->
  exists ts cs, id = Uuid.to_str (Uuid.of_time ts cs (_node st))
                /\ 0 <= ts <= B + Z.of_nat n
                /\ (forall l, Uuid.last_timestamp (uuid_clock st) = Some l -> l < ts).
Proof.
  induction n as [|n IH]; intros st B Hclock Hlast id Hin.
  - simpl in Hin. now apply elem_of_nil in Hin.
  - rewrite make_ids_S, make_id_eq in Hin. cbv zeta in Hin. simpl in Hin.
    set (ts1 := Uuid.next_timestamp _ _) in Hin.
    destruct (next_timestamp_bounds (time_ns (Uuid.reads (uuid_clock st)))
                (Uuid.last_timestamp (uuid_clock st)) B) as [Hts1 Hlt1];
      [apply Hclock | apply Hclock | exact Hlast |].
    fold ts1 in Hts1, Hlt1.
    apply elem_of_cons in Hin as [->|Hin].
    + exists ts1, (_clock_seq st + 1). split; [reflexivity|]. split; [lia | exact Hlt1].
    + apply (IH _ (B + 1)) in Hin as (ts & cs & -> & Hts & Hlt).
      * simpl in Hlt. specialize (Hlt ts1 eq_refl).
        exists ts, cs. split; [reflexivity|]. split; [lia|].
        intros l Hl. specialize (Hlt1 l Hl). lia.
      * intros k. specialize (Hclock k). lia.
      * simpl. intros l [= <-]. lia.
Qed.

Lemma make_ids_NoDup time_ns : forall n st B,
  0 <= _node st < 2 ^ 48 ->
  (forall k, 0 <= time_ns k /\ time_ns k / 100 + Uuid.EPOCH_OFFSET <= B) ->
  (forall l, Uuid.last_timestamp (uuid_clock st) = Some l -> 0 <= l <= B) ->
  B + Z.of_nat n < 2 ^ 60 ->
  NoDup (make_ids n time_ns st).
Proof.
  induction n as [|n IH]; intros st B Hnode Hclock Hlast HB.
  - constructor.
  - rewrite make_ids_S, make_id_eq. cbv zeta. cbn [fst snd].
    set (ts1 := Uuid.next_timestamp _ _).
    destruct (next_timestamp_bounds (time_ns (Uuid.reads (uuid_clock st)))
                (Uuid.last_timestamp (uuid_clock st)) B) as [Hts1 Hlt1];
      [apply Hclock | apply Hclock | exact Hlast |].
    fold ts1 in Hts1, Hlt1.
    assert (Hclock' : forall k, 0 <= time_ns k
                                /\ time_ns k / 100 + Uuid.EPOCH_OFFSET <= B + 1).
    { intros k. specialize (Hclock k). lia. }
    assert (HB' : B + 1 + Z.of_nat n < 2 ^ 60) by lia.
    constructor.
    + intros Hin.
      apply (make_ids_timestamps time_ns n _ (B + 1) Hclock') in Hin
        as (ts & cs & Heq & Hts & Hlt);
        [|cbn [uuid_clock Uuid.last_timestamp]; intros l [= <-]; lia].
      cbn [uuid_clock Uuid.last_timestamp _node] in Heq, Hlt.
      specialize (Hlt ts1 eq_refl).
      assert (ts1 = ts); [|lia].
      eapply (of_time_inj ts1 ts _ _ (_node st)); [exact Hnode | lia | lia |].
      apply to_str_inj. exact Heq.
    + apply (IH _ (B + 1)); cbn [uuid_clock Uuid.last_timestamp _node];
        [exact Hnode | exact Hclock' | | exact HB'].
      intros l [= <-]. lia.
Qed.

End Identifiers.

Lemma dict_get_set k v d : dict_get k (dict_set k v d) = Some v.
Proof.
  unfold dict_get. induction d as [|[k' v'] d IH]; simpl.
  - now rewrite bool_decide_eq_true_2.
  - destruct (bool_decide (k' = k)) eqn:E; simpl.
    + now rewrite bool_decide_eq_true_2.
    + now rewrite E.
Qed.

Lemma record_ids_with_id names : forall (idents : list string) (rows : list (list string)),
  length idents = length rows ->
  record_id <$> zip_with (with_id names) idents rows
  = (fun id => Some (PyString id)) <$> idents.
Proof.
  induction idents as [|id idents IH]; intros [|row rows] Hlen; try discriminate.
  - reflexivity.
  - cbn [zip_with]. rewrite !fmap_cons. f_equal; [apply dict_get_set|].
    apply IH. simpl in Hlen. lia.
Qed.

(** C9.  In the auto-identifier mode every yielded record carries, under
    ['id'], a string, and the identifiers of one run are pairwise
    distinct.  [uuid.uuid1] is modelled from the standard library; the
    clock is any sequence of readings whose timestamps fit the 60 bits a
    version-1 UUID has for them (dates before the year 5236), and [_node]
    is below [1 << 48] as [random.randrange] gives it. *)
Theorem auto_identifiers_unique :
  forall (time_ns : nat -> Z) (fuel : nat) (f : file)
         (flds : option (list pyval)) (self : CsvExtractor) (ids : id_state)
         (B : Z) (records : list pydict),
    init fuel f AUTO_PRIMARY_KEY flds = (self, Returns tt) ->
    (0 <= _node ids < 2 ^ 48)%Z ->
    (forall k, 0 <= time_ns k /\ time_ns k / 100 + Uuid.EPOCH_OFFSET <= B)%Z ->
    (forall l, Uuid.last_timestamp (uuid_clock ids) = Some l -> 0 <= l <= B)%Z ->
    records = yielded (extract_records time_ns f self ids).1 ->
    (B + Z.of_nat (length records) < 2 ^ 60)%Z ->
    exists idents : list string,
      record_id <$> records = (fun id => Some (PyString id)) <$> idents
      /\ NoDup idents.
Proof.
  intros time_ns fuel f flds self ids B records Hinit Hnode Hclock Hlast -> HB.
  destruct (init_returned _ _ _ _ _ Hinit) as (Hpk & enc & rows & names & He & Hf & Hn).
  rewrite (extract_records_yielded time_ns f self ids enc names rows He Hn Hf), Hpk in *.
  change (String.eqb AUTO_PRIMARY_KEY AUTO_PRIMARY_KEY) with true in *. cbv iota in *.
  rewrite length_zip_with, length_make_ids, Nat.min_id in HB.
  exists (make_ids (length (data_rows rows)) time_ns ids). split.
  - apply record_ids_with_id, length_make_ids.
  - now apply (make_ids_NoDup time_ns _ ids B).
Qed.

Lemma auto_identifiers_unique_witness :
  exists idents : list string,
    record_id <$> yielded (extract_records frozen_clock ragged_file
                             (init 0 ragged_file AUTO_PRIMARY_KEY None).1 fresh_ids).1
    = (fun id => Some (PyString id)) <$> idents
    /\ NoDup idents.
Proof.
  apply (auto_identifiers_unique frozen_clock 0 ragged_file None
           (init 0 ragged_file AUTO_PRIMARY_KEY None).1 fresh_ids
           139492928000000000%Z).
  - reflexivity.
  - vm_compute. split; [discriminate | reflexivity].
  - intros k. vm_compute. split; discriminate.
  - discriminate.
  - reflexivity.
  - vm_compute. reflexivity.
Defined.

(** ** Validation of the field definitions *)

Lemma check_field_app repr i field errors :
  check_field repr i field errors = errors ++ violations repr i field.
Proof.
  unfold violations, check_field.
  destruct (dict_get (Some "field") field), (dict_get (Some "type") field) as [t|];
    try destruct (allowed_type t); simpl;
    rewrite ?app_nil_r, <- ?app_assoc; reflexivity.
Qed.

Lemma validate_loop_spec repr : forall flds i errors,
  validate_loop repr i flds errors
  = errors ++ mjoin (imap (fun j => violations repr (i + j)) flds).
Proof.
  induction flds as [|field flds IH]; intros i errors; simpl.
  - now rewrite app_nil_r.
  - rewrite IH, check_field_app, <- app_assoc, Nat.add_0_r. do 2 f_equal.
    f_equal. apply imap_ext. intros j x _. simpl. f_equal. lia.
Qed.

Lemma validate_fields_spec repr flds :
  validate_fields repr flds
  = match all_violations repr flds with
    | [] => Returns tt
    | errors => Raises (FieldError (PyStr.join newline errors))
    end.
Proof. unfold validate_fields. now rewrite validate_loop_spec. Qed.

Lemma violation_listed repr flds i field msg :
  flds !! i = Some field -> msg ∈ violations repr i field ->
  msg ∈ all_violations repr flds.
Proof.
  intros Hi Hm. unfold all_violations. apply list_elem_of_join.
  exists (violations repr i field). split; [exact Hm|].
  now apply elem_of_lookup_imap_2.
Qed.

Lemma violations_nil repr i field :
  violations repr i field = []
  <-> is_Some (dict_get (Some "field") field)
      /\ exists t, dict_get (Some "type") field = Some t /\ allowed_type t = true.
Proof.
  unfold violations, check_field.
  destruct (dict_get (Some "field") field) as [v|],
           (dict_get (Some "type") field) as [t|];
    try destruct (allowed_type t) eqn:Ht; simpl; split;
    try discriminate; try (intros [[? ?] (? & ? & ?)]; congruence).
  intros _. split; [eauto | eauto].
Qed.

(** C5.  [validate_fields] gathers the violations of all entries, in
    order, joins them with newlines into one message and raises
    [FieldError] with it when there is any; it returns normally exactly
    when every entry has a ['field'] key and a ['type'] key with an
    allowed value.  Each violation of each entry is a line of the message;
    for six entries with no ['type'] on entry 2 and an invalid ['type'] on
    entry 5 the message is the two lines for these entries. *)
Theorem validate_fields_collects_all :
  forall (repr : pyval -> string) (flds : list pydict),
    validate_fields repr flds
    = match all_violations repr flds with
      | [] => Returns tt
      | errors => Raises (FieldError (PyStr.join newline errors))
      end
    /\ (validate_fields repr flds = Returns tt
        <-> forall field, field ∈ flds ->
              is_Some (dict_get (Some "field") field)
              /\ exists t, dict_get (Some "type") field = Some t
                           /\ allowed_type t = true)
    /\ (forall i field, flds !! i = Some field ->
          (dict_get (Some "field") field = None ->
           missing_field_msg i ∈ all_violations repr flds)
          /\ (dict_get (Some "type") field = None ->
              missing_type_msg i ∈ all_violations repr flds)
          /\ (forall t, dict_get (Some "type") field = Some t ->
                        allowed_type t = false ->
                        invalid_type_msg repr t i ∈ all_violations repr flds))
    /\ validate_fields repr six_fields
       = Raises (FieldError (missing_type_msg 2 +:+ newline
                             +:+ invalid_type_msg repr (PyString "text") 5)).
Proof.
  intros repr flds. split; [apply validate_fields_spec|]. split; [|split].
  - rewrite validate_fields_spec.
    assert (Hnil : all_violations repr flds = []
                   <-> forall field, field ∈ flds ->
                         is_Some (dict_get (Some "field") field)
                         /\ exists t, dict_get (Some "type") field = Some t
                                      /\ allowed_type t = true).
    { unfold all_violations. rewrite join_nil, Forall_forall. split.
      - intros H field Hin. apply list_elem_of_lookup in Hin as [i Hi].
        apply (violations_nil repr i). apply H. now apply elem_of_lookup_imap_2.
      - intros H v Hv. apply elem_of_lookup_imap_1 in Hv as (i & field & -> & Hi).
        apply violations_nil, H. apply list_elem_of_lookup. eauto. }
    destruct (all_violations repr flds) as [|line lines]; split; intros H.
    + now apply Hnil.
    + reflexivity.
    + discriminate.
    + apply Hnil in H. discriminate.
  - intros i field Hi. repeat split.
    + intros Hf. apply (violation_listed repr flds i field _ Hi).
      unfold violations, check_field. rewrite Hf.
      destruct (dict_get (Some "type") field) as [t|]; [destruct (allowed_type t)|];
        simpl; rewrite ?elem_of_cons; auto.
    + intros Ht. apply (violation_listed repr flds i field _ Hi).
      unfold violations, check_field. rewrite Ht. simpl. rewrite !elem_of_app, !elem_of_cons; auto.
    + intros t Ht Ha. apply (violation_listed repr flds i field _ Hi).
      unfold violations, check_field. rewrite Ht, Ha. simpl. rewrite !elem_of_app, !elem_of_cons; auto.
  - reflexivity.
Qed.

Lemma validate_fields_collects_all_witness :
  missing_type_msg 2 ∈ all_violations (fun _ => "?") six_fields
  /\ invalid_type_msg (fun _ => "?") (PyString "text") 5
     ∈ all_violations (fun _ => "?") six_fields.
Proof.
  destruct (validate_fields_collects_all (fun _ => "?") six_fields)
    as (_ & _ & Hlines & _).
  split.
  - apply (Hlines 2 [(Some "field", PyString "c")]); reflexivity.
  - apply (Hlines 5 [(Some "field", PyString "f"); (Some "type", PyString "text")]);
      reflexivity.
Defined.

(** ** Coercion of list literals *)

Lemma total_is_python_literal_eval : python_literal_eval Literal.total.
Proof. intros s r H. unfold Literal.total. now rewrite H. Qed.

Lemma coerce_record_values literal_eval : forall record record',
  coerce_record literal_eval record = Returns record' ->
  Forall2 (fun kv kv' => kv'.1 = kv.1
                         /\ coerce_value literal_eval kv.2 = Returns kv'.2)
          record record'.
Proof.
  induction record as [|[k v] record IH]; intros record' H; simpl in H.
  - injection H as <-. constructor.
  - destruct (coerce_value literal_eval v) as [v'| |] eqn:Hv; try discriminate.
    destruct (coerce_record literal_eval record) as [rest| |]; try discriminate.
    injection H as <-. constructor; [split; [reflexivity | exact Hv] | now apply IH].
Qed.

(** C4.  For every [literal_eval] that is Python's on the five texts, the
    value ["[1, 2]"] is replaced by the list [[1, 2]], ["[1]"] by [1],
    ["[]"] by [None], and ["abc"] and ["3.5"] are left as they are.  In
    general a value whose evaluation raises [SyntaxError] or [ValueError],
    or gives something that is not a list, is left untouched, a value is
    only ever replaced when it evaluates to a list, and every value of a
    record is treated this way, the keys staying where they are. *)
Theorem literal_list_coercion :
  forall literal_eval : pyval -> outcome pyval,
    python_literal_eval literal_eval ->
    coerce_value literal_eval (PyString "[1, 2]") = Returns (PyList [PyInt 1; PyInt 2])
    /\ coerce_value literal_eval (PyString "[1]") = Returns (PyInt 1)
    /\ coerce_value literal_eval (PyString "[]") = Returns PyNone
    /\ coerce_value literal_eval (PyString "abc") = Returns (PyString "abc")
    /\ coerce_value literal_eval (PyString "3.5") = Returns (PyString "3.5")
    /\ (forall value,
          (exists reason, literal_eval value = Raises (SyntaxError reason))
          \/ (exists reason, literal_eval value = Raises (ValueError reason))
          \/ (exists v, literal_eval value = Returns v /\ forall l, v <> PyList l) ->
          coerce_value literal_eval value = Returns value)
    /\ (forall value value',
          coerce_value literal_eval value = Returns value' -> value' <> value ->
          exists l, literal_eval value = Returns (PyList l))
    /\ (forall record record',
          coerce_record literal_eval record = Returns record' ->
          Forall2 (fun kv kv' => kv'.1 = kv.1
                                 /\ coerce_value literal_eval kv.2 = Returns kv'.2)
                  record record').
Proof.
  intros literal_eval Hpy. unfold coerce_value.
  split; [|split; [|split; [|split; [|split; [|split; [|split]]]]]].
  - now rewrite (Hpy "[1, 2]" _ eq_refl).
  - now rewrite (Hpy "[1]" _ eq_refl).
  - now rewrite (Hpy "[]" _ eq_refl).
  - now rewrite (Hpy "abc" _ eq_refl).
  - now rewrite (Hpy "3.5" _ eq_refl).
  - intros value [[reason ->]|[[reason ->]|(v & -> & Hv)]]; try reflexivity.
    destruct v; try reflexivity. now destruct (Hv l).
  - intros value value' H Hne.
    destruct (literal_eval value) as [v|e|]; [|destruct e|]; try discriminate;
      try (injection H as <-; congruence).
    destruct v; try (injection H as <-; congruence). eauto.
  - apply coerce_record_values.
Qed.

Lemma literal_list_coercion_witness :
  coerce_value Literal.total (PyString "[1, 2]") = Returns (PyList [PyInt 1; PyInt 2])
  /\ coerce_value Literal.total (PyString "[1]") = Returns (PyInt 1)
  /\ coerce_value Literal.total (PyString "[]") = Returns PyNone
  /\ coerce_value Literal.total (PyString "abc") = Returns (PyString "abc")
  /\ coerce_value Literal.total (PyString "3.5") = Returns (PyString "3.5")
  /\ coerce_value Literal.total PyNone = Returns PyNone.
Proof.
  destruct (literal_list_coercion Literal.total total_is_python_literal_eval)
    as (H1 & H2 & H3 & H4 & H5 & Hkeep & _).
  refine (conj H1 (conj H2 (conj H3 (conj H4 (conj H5 _))))).
  apply Hkeep. right. left. eexists. reflexivity.
Defined.

(** ** The HTTP client *)

(** C2 as it is written fails on the status "server busy": [request_api]
    sends the request once, prints and raises, and the older [post_to_api]
    raises [NameError] before it reaches its retry; neither sleeps nor
    sends the request again. *)
Lemma busy_status_is_not_retried :
  request_api busy_server "POST" "http://host/v2/dataset" "key" PyNone []
  = (Raises (HTTPError 503),
     [Sent {| method := "POST"; url := "http://host/v2/dataset";
              authorization := "key"; json_data := PyNone |};
      Stderr "503 Service Unavailable"])
  /\ post_to_api busy_server "http://host/dataset/create" PyNone "key" []
     = (Raises (NameError "response"),
        [Sent {| method := "POST"; url := "http://host/dataset/create";
                 authorization := "key"; json_data := PyNone |}]).
Proof. split; reflexivity. Qed.

(** C2 (as amended).  For every request [request_api] makes, a response
    whose status is neither 200 nor 201 makes it print the status and the
    body of the response, and then raise when the status is an error
    status (400 to 599), "server busy" (503) like any other: the request
    has been sent once, nothing else was sent and there was no delay. *)
Theorem request_api_failure :
  forall (srv : server) (method url auth_id : string) (data : pyval)
         (trace : list event),
    let req := {| method := method; url := url;
                  authorization := auth_id; json_data := data |} in
    let r := srv (sent trace) req in
    status_code r ∉ [200; 201]%Z ->
    (request_api srv method url auth_id data trace).2
    = trace ++ [Sent req; Stderr (pretty (status_code r) +:+ " " +:+ text r)]
    /\ ((400 <= status_code r < 600)%Z ->
        (request_api srv method url auth_id data trace).1
        = Raises (HTTPError (status_code r))).
Proof.
  intros srv method url auth_id data trace req r Hstatus.
  unfold request_api. fold req. fold r.
  rewrite bool_decide_eq_false_2 by exact Hstatus.
  unfold raise_for_status. split.
  - destruct (_ && _)%bool; simpl; now rewrite <- app_assoc.
  - intros [Hlo Hhi].
    apply Z.leb_le in Hlo. apply Z.ltb_lt in Hhi. now rewrite Hlo, Hhi.
Qed.

Lemma request_api_failure_witness :
  (request_api busy_server "POST" "http://host/v2/dataset" "key" PyNone []).2
  = [] ++ [Sent {| method := "POST"; url := "http://host/v2/dataset";
                   authorization := "key"; json_data := PyNone |};
           Stderr (pretty 503%Z +:+ " " +:+ "Service Unavailable")]
  /\ (request_api busy_server "POST" "http://host/v2/dataset" "key" PyNone []).1
     = Raises (HTTPError 503).
Proof.
  destruct (request_api_failure busy_server "POST" "http://host/v2/dataset" "key"
              PyNone []) as [Htrace Hraise].
  - vm_compute. intros H. inversion H as [|? ? ? H1]; subst.
    inversion H1 as [|? ? ? H2]; subst. inversion H2.
  - split; [exact Htrace | apply Hraise; vm_compute; split; [discriminate | reflexivity]].
Defined.

(** ** Batches *)

Section Chunks.
Context {A : Type}.
Variable n : nat.
Hypothesis n_pos : 1 <= n.

Lemma chunks_fuel_irrel : forall f1 f2 (l : list A),
  length l <= f1 -> length l <= f2 -> chunks_fuel f1 n l = chunks_fuel f2 n l.
Proof.
  induction f1 as [|f1 IH]; intros f2 l H1 H2.
  - destruct l; [|simpl in H1; lia]. now destruct f2.
  - destruct l as [|x l]; [now destruct f2|].
    destruct f2 as [|f2]; [simpl in H2; lia|].
    simpl. f_equal. simpl in H1, H2.
    apply IH; rewrite length_drop; simpl; lia.
Qed.

Lemma chunks_exact (a b : list A) :
  length a = n -> chunks n (a ++ b) = a :: chunks n b.
Proof.
  intros Ha. unfold chunks. rewrite length_app, Ha.
  destruct (n + length b) as [|k] eqn:Ek; [lia|].
  destruct a as [|x a]; [simpl in Ha; lia|].
  simpl chunks_fuel. change (x :: a ++ b) with ((x :: a) ++ b).
  rewrite take_app_length', drop_app_length' by (symmetry; exact Ha). f_equal.
  apply chunks_fuel_irrel; lia.
Qed.

Lemma chunks_short (l : list A) :
  l <> [] -> length l <= n -> chunks n l = [l].
Proof.
  intros Hne Hlen. unfold chunks. destruct l as [|x l]; [congruence|].
  simpl chunks_fuel. rewrite take_ge, drop_ge by (simpl in *; lia).
  now destruct (length l).
Qed.

Lemma chunks_fuel_shape : forall fuel (l : list A),
  length l <= fuel ->
  mjoin (chunks_fuel fuel n l) = l
  /\ Forall (fun c => 0 < length c <= n) (chunks_fuel fuel n l)
  /\ (forall i c, chunks_fuel fuel n l !! i = Some c ->
                  S i < length (chunks_fuel fuel n l) -> length c = n).
Proof.
  induction fuel as [|fuel IH]; intros l Hlen.
  - destruct l; [|simpl in Hlen; lia]. simpl. repeat split; [constructor|].
    intros i c H. discriminate.
  - destruct l as [|x l].
    { simpl. repeat split; [constructor|]. intros i c H. discriminate. }
    simpl chunks_fuel. simpl in Hlen.
    destruct (IH (drop n (x :: l))) as (Hjoin & Hall & Hfull);
      [rewrite length_drop; simpl; lia|].
    split; [|split].
    + simpl. rewrite Hjoin. apply take_drop.
    + constructor; [|exact Hall]. rewrite length_take. simpl. lia.
    + intros [|i] c Hc Hi.
      * injection Hc as <-. simpl in Hi.
        assert (Hrest : drop n (x :: l) <> []).
        { intros E. rewrite E in Hi. destruct fuel; simpl in Hi; lia. }
        rewrite length_take.
        destruct (decide (length (x :: l) <= n)) as [Hle|Hgt]; [|lia].
        now rewrite drop_ge in Hrest.
      * simpl in Hc, Hi. apply (Hfull i c Hc). lia.
Qed.

End Chunks.

Lemma sent_app t1 t2 : sent (t1 ++ t2) = sent t1 ++ sent t2.
Proof. unfold sent. apply omap_app. Qed.

Lemma sent_requests (l : list request) : sent (Sent <$> l) = l.
Proof.
  induction l as [|r l IH]; [reflexivity|].
  change (sent (Sent <$> r :: l)) with (r :: sent (Sent <$> l)). now rewrite IH.
Qed.

Lemma process_batch_accepted env args dataset rows trace :
  accepts (srv env) ->
  exists v, process_batch env args dataset rows trace
            = (Returns v, trace ++ [Sent (batch_request env args dataset rows)]).
Proof.
  intros Hok. unfold process_batch, request_api.
  match goal with |- context [srv env ?h ?r] => destruct (Hok h r) as [-> [v ->]] end.
  exists v. reflexivity.
Qed.

Lemma batch_size_of_batch env args dataset rows :
  batch_size_of (batch_request env args dataset rows) = Some (length rows).
Proof. unfold batch_size_of. simpl. now rewrite length_fmap. Qed.

(** The loop sends the full batches and leaves the partial one in [rows]. *)
Lemma for_records_batches env args dataset :
  (1 <= batchSize args)%Z -> accepts (srv env) ->
  forall records records' rows batches trace,
    Forall2 (coerced (literal_eval env)) records records' ->
    length rows < Z.to_nat (batchSize args) ->
    exists full rest batches',
      for_records env args dataset records rows batches trace
      = (Returns (rest, batches'),
         trace ++ (Sent <$> (batch_request env args dataset <$> full)))
      /\ length rest < Z.to_nat (batchSize args)
      /\ chunks (Z.to_nat (batchSize args)) (rows ++ records')
         = full ++ match rest with [] => [] | _ => [rest] end.
Proof.
  intros Hn Hok records records' rows batches trace Hco.
  revert rows batches trace.
  induction Hco as [|record record' records records' Hr _ IH];
    intros rows batches trace Hrows.
  - exists [], rows, batches. simpl. rewrite !app_nil_r. repeat split; [exact Hrows|].
    destruct rows as [|r rows]; [reflexivity|].
    apply chunks_short; [lia | discriminate | lia].
  - simpl. unfold coerced in Hr. rewrite Hr.
    destruct (Z.geb_spec (Z.of_nat (length (rows ++ [record']))) (batchSize args))
      as [Hfull|Hpart]; rewrite length_app in *; simpl in *.
    + destruct (process_batch_accepted env args dataset (rows ++ [record']) trace Hok)
        as [v ->].
      destruct (IH [] (batches + 1)%Z
                  (trace ++ [Sent (batch_request env args dataset (rows ++ [record']))])
                  ltac:(simpl; lia))
        as (full & rest & batches' & -> & Hrest & Hchunks).
      exists ((rows ++ [record']) :: full), rest, batches'.
      repeat split; [|exact Hrest|].
      * simpl. now rewrite <- app_assoc.
      * rewrite (cons_middle record' rows records'), app_assoc.
        rewrite chunks_exact by (rewrite ?length_app; simpl; lia).
        simpl in Hchunks. now rewrite Hchunks.
    + destruct (IH (rows ++ [record']) batches trace
                  ltac:(rewrite length_app; simpl; lia))
        as (full & rest & batches' & -> & Hrest & Hchunks).
      exists full, rest, batches'. repeat split; [exact Hrest|].
      now rewrite <- app_assoc in Hchunks.
Qed.

Lemma request_api_accepted (s : server) method url auth_id data trace :
  accepts s ->
  exists v, request_api s method url auth_id data trace
            = (Returns v,
               trace ++ [Sent {| method := method; url := url;
                                 authorization := auth_id; json_data := data |}]).
Proof.
  intros Hok. unfold request_api.
  match goal with |- context [s ?h ?r] => destruct (Hok h r) as [-> [v ->]] end.
  exists v. reflexivity.
Qed.

Lemma upload_sizes_app t1 t2 : upload_sizes (t1 ++ t2) = upload_sizes t1 ++ upload_sizes t2.
Proof. unfold upload_sizes. now rewrite sent_app, omap_app. Qed.

Lemma omap_batch_sizes env args dataset (l : list (list pydict)) :
  omap batch_size_of (batch_request env args dataset <$> l) = length <$> l.
Proof.
  induction l as [|rows l IH]; [reflexivity|].
  rewrite !fmap_cons.
  change (omap ?f (?x :: ?l)) with (match f x with Some y => y :: omap f l | None => omap f l end).
  now rewrite batch_size_of_batch, IH.
Qed.

(** What [upload_rows] sends when the server accepts everything. *)
Lemma upload_rows_sent env args dataset self ids trace records :
  (1 <= batchSize args)%Z -> accepts (srv env) ->
  ending (extract_records (time_ns env) (csv_file env) self ids).1 = Returns tt ->
  Forall2 (coerced (literal_eval env))
          (yielded (extract_records (time_ns env) (csv_file env) self ids).1) records ->
  (upload_rows env args dataset self ids trace).1 = Returns tt
  /\ sent (upload_rows env args dataset self ids trace).2
     = sent trace
       ++ (batch_request env args dataset <$> chunks (Z.to_nat (batchSize args)) records)
       ++ (if index args then [] else [index_request env args dataset]).
Proof.
  intros Hn Hok Hend Hco. unfold upload_rows.
  destruct (for_records_batches env args dataset Hn Hok _ _ [] 1%Z
              (trace ++ [Stdout ("Updating Rows in dataset " +:+ py_str (repr env) dataset)])
              Hco ltac:(simpl; lia))
    as (full & rest & batches' & -> & Hrest & Hchunks).
  rewrite Hend. simpl in Hchunks. rewrite Hchunks.
  destruct rest as [|r rest].
  - rewrite app_nil_r. destruct (index args).
    + split; [reflexivity|]. simpl snd.
      rewrite !sent_app, sent_requests. simpl.
      rewrite ?app_nil_r, <- ?app_assoc. reflexivity.
    + match goal with |- context [request_api ?s ?m ?u ?a ?d ?t] =>
        destruct (request_api_accepted s m u a d t Hok) as [v ->] end.
      split; [reflexivity|]. simpl snd.
      rewrite !sent_app, sent_requests. simpl.
      rewrite ?app_nil_r, <- ?app_assoc. reflexivity.
  - match goal with |- context [process_batch ?e ?a ?d ?rows ?t] =>
      destruct (process_batch_accepted e a d rows t Hok) as [v ->] end.
    destruct (index args).
    + split; [reflexivity|]. simpl snd.
      rewrite !sent_app, sent_requests, fmap_app. simpl.
      rewrite ?app_nil_r, <- ?app_assoc. reflexivity.
    + match goal with |- context [request_api ?s ?m ?u ?a ?d ?t] =>
        destruct (request_api_accepted s m u a d t Hok) as [v' ->] end.
      split; [reflexivity|]. simpl snd.
      rewrite !sent_app, sent_requests, fmap_app. simpl.
      rewrite ?app_nil_r, <- ?app_assoc. reflexivity.
Qed.

Lemma ok_server_accepts : accepts ok_server.
Proof. intros history req. split; [reflexivity | eexists; reflexivity]. Qed.

(** C6.  When the batch size is at least 1 and the server accepts every
    request, the upload requests are, in order, one for each consecutive
    piece of [batchSize] records, the last piece being what remains: every
    piece but the last has exactly [batchSize] records, the last has at
    least one, and together they are the records in their order.  For 7
    records and a batch size of 3 the upload requests carry 3, 3 and 1
    records. *)
Theorem batches_in_order :
  (forall (env : Env) (args : Args) (dataset : pyval) (self : CsvExtractor)
          (ids : id_state) (trace : list event) (records : list pydict),
      (1 <= batchSize args)%Z ->
      accepts (srv env) ->
      ending (extract_records (time_ns env) (csv_file env) self ids).1 = Returns tt ->
      Forall2 (coerced (literal_eval env))
              (yielded (extract_records (time_ns env) (csv_file env) self ids).1)
              records ->
      (upload_rows env args dataset self ids trace).1 = Returns tt
      /\ sent (upload_rows env args dataset self ids trace).2
         = sent trace
           ++ (batch_request env args dataset
                 <$> chunks (Z.to_nat (batchSize args)) records)
           ++ (if index args then [] else [index_request env args dataset])
      /\ upload_sizes (upload_rows env args dataset self ids trace).2
         = upload_sizes trace
           ++ (length <$> chunks (Z.to_nat (batchSize args)) records))
  /\ (forall (records : list pydict) (n : nat),
        1 <= n ->
        mjoin (chunks n records) = records
        /\ Forall (fun c => 0 < length c <= n) (chunks n records)
        /\ (forall i c, chunks n records !! i = Some c ->
                        S i < length (chunks n records) -> length c = n))
  /\ upload_sizes (process_file 0 sample_env sample_args fresh_ids).2 = [3; 3; 1].
Proof.
  split; [|split].
  - intros env args dataset self ids trace records Hn Hok Hend Hco.
    destruct (upload_rows_sent env args dataset self ids trace records Hn Hok Hend Hco)
      as [Hret Hsent].
    split; [exact Hret|]. split; [exact Hsent|].
    unfold upload_sizes. rewrite Hsent, !omap_app, omap_batch_sizes.
    destruct (index args); simpl; now rewrite app_nil_r.
  - intros records n Hn. now apply chunks_fuel_shape.
  - reflexivity.
Qed.

Lemma batches_in_order_witness :
  (upload_rows sample_env sample_args (PyString "ds1")
     (init 0 seven_file "k" None).1 fresh_ids []).1 = Returns tt
  /\ upload_sizes (upload_rows sample_env sample_args (PyString "ds1")
                     (init 0 seven_file "k" None).1 fresh_ids []).2 = [3; 3; 1].
Proof.
  destruct batches_in_order as (Hsend & _ & _).
  edestruct (Hsend sample_env sample_args (PyString "ds1")
               (init 0 seven_file "k" None).1 fresh_ids [])
    as (Hret & _ & Hsizes).
  - vm_compute. discriminate.
  - apply ok_server_accepts.
  - reflexivity.
  - set (records := yielded _). vm_compute in records. subst records.
    repeat (constructor; [reflexivity|]). constructor.
  - split; [exact Hret | exact Hsizes].
Defined.

(** ** The primary key *)

(** C7 as it is written fails when a dataset is named: the key ["nope"] is
    not the sentinel and no column of the file, and the rows are uploaded
    all the same, because the check belongs to the creation of a
    dataset. *)
Lemma named_dataset_skips_key_check :
  primaryKey (wrong_key_args (Some "ds1")) <> AUTO_PRIMARY_KEY
  /\ fieldnames (init 0 seven_file "nope" None).1 = Some ["k"; "v"]
  /\ ("nope" ∉ ["k"; "v"])
  /\ (process_file 0 sample_env (wrong_key_args (Some "ds1")) fresh_ids).1
     = Returns tt
  /\ upload_sizes (process_file 0 sample_env (wrong_key_args (Some "ds1")) fresh_ids).2
     = [3; 3; 1].
Proof.
  split; [discriminate|]. split; [reflexivity|]. split; [|split; reflexivity].
  rewrite !elem_of_cons, elem_of_nil. intros [H|[H|[]]]; discriminate.
Qed.

(** C7 (as amended).  When no dataset is named, so that one is to be
    created, and the declared primary key is neither the sentinel nor one
    of the field names of the extractor, [process_file] raises
    [ValueError] before any request has been sent. *)
Theorem missing_primary_key_is_fatal :
  forall (fuel : nat) (env : Env) (args : Args) (ids : id_state)
         (flds : option (list pydict)) (self : CsvExtractor),
    truthy (datasetId args) = false ->
    primaryKey args <> AUTO_PRIMARY_KEY ->
    load_fields env args = Returns flds ->
    init fuel (csv_file env) (primaryKey args) (as_values flds) = (self, Returns tt) ->
    primaryKey args ∉ default [] (fieldnames self) ->
    process_file fuel env args ids
    = (Raises (ValueError ("Primary key (" +:+ primaryKey args
                           +:+ ") does not appear in " +:+ filename args)),
       [Stdout "Creating a new dataset"])
    /\ sent (process_file fuel env args ids).2 = [].
Proof.
  intros fuel env args ids flds self Hnone Hauto Hload Hinit Hpk.
  assert (Hrun : process_file fuel env args ids
                 = (Raises (ValueError ("Primary key (" +:+ primaryKey args
                                        +:+ ") does not appear in " +:+ filename args)),
                    [Stdout "Creating a new dataset"])).
  { unfold process_file. rewrite Hload, Hinit, Hnone. simpl negb. cbv iota.
    unfold create_dataset.
    apply String.eqb_neq in Hauto. rewrite Hauto. simpl negb. cbv iota.
    rewrite bool_decide_eq_false_2 by exact Hpk. reflexivity. }
  rewrite Hrun. split; reflexivity.
Qed.

Lemma missing_primary_key_is_fatal_witness :
  process_file 0 sample_env (wrong_key_args None) fresh_ids
  = (Raises (ValueError ("Primary key (" +:+ "nope"
                         +:+ ") does not appear in " +:+ "data.csv")),
     [Stdout "Creating a new dataset"])
  /\ sent (process_file 0 sample_env (wrong_key_args None) fresh_ids).2 = [].
Proof.
  apply (missing_primary_key_is_fatal 0 sample_env (wrong_key_args None) fresh_ids
           None (init 0 seven_file "nope" None).1).
  - reflexivity.
  - discriminate.
  - reflexivity.
  - reflexivity.
  - simpl. rewrite !elem_of_cons, elem_of_nil. intros [H|[H|[]]]; discriminate.
Defined.

(* ===================================================================== *)
(** * Further properties of the code                                       *)
(* ===================================================================== *)

(** ** The constructor: placeholders, explicit fields, failures *)







Lemma clean_names_strings (l : list string) :
  clean_names (PyString <$> l)
  = Returns ((fun s => PyStr.replace "." "_" (PyStr.strip s)) <$> l).
Proof.
  induction l as [|s l IH]; [reflexivity|].
  rewrite !fmap_cons. cbn [clean_names clean_name]. now rewrite IH.
Qed.

(** X2.  When field definitions are given, the field names of the
    extractor come from their ['field'] values alone: two files that can
    both be read give the same names and the same end of the
    construction, whatever their header rows are. *)
Theorem explicit_fields_override_header :
  forall (fuel : nat) (f f' : file) (pk : string) (d : pyval) (flds : list pyval)
         (enc enc' : Encoding) (rows rows' : list (list string)),
    first_decodable f ENCODINGS = Some enc -> f enc = Rows rows ->
    first_decodable f' ENCODINGS = Some enc' -> f' enc' = Rows rows' ->
    fieldnames (init fuel f pk (Some (d :: flds))).1
    = fieldnames (init fuel f' pk (Some (d :: flds))).1
    /\ (init fuel f pk (Some (d :: flds))).2 = (init fuel f' pk (Some (d :: flds))).2.
Proof.
  intros fuel f f' pk d flds enc enc' rows rows' Hfirst Hf Hfirst' Hf'.
  unfold init, init_of.
  destruct (explicit_names (Some (d :: flds))) as [fs| |] eqn:Hfs; [|split; reflexivity..].
  assert (Hsome : exists names, fs = Some names).
  { unfold explicit_names in Hfs.
    destruct (field_column (d :: flds)) as [vs| |]; try discriminate.
    injection Hfs as <-. eauto. }
  destruct Hsome as [given ->].
  edestruct (for_encodings_first csv_uploader fuel f ENCODINGS None) as [ex ->];
    [reflexivity | exact Hfirst |].
  edestruct (for_encodings_first csv_uploader fuel f' ENCODINGS None) as [ex' ->];
    [reflexivity | exact Hfirst' |].
  simpl. rewrite Hf, Hf'. simpl.
  destruct (clean_names given) as [names| |]; try (split; reflexivity).
  destruct (rotate_fieldnames fuel names); split; reflexivity.
Qed.

Lemma explicit_fields_override_header_witness :
  fieldnames (init 1 seven_file "k" (Some (PyDict <$> two_fields))).1
  = fieldnames (init 1 ragged_file "k" (Some (PyDict <$> two_fields))).1
  /\ (init 1 seven_file "k" (Some (PyDict <$> two_fields))).2
     = (init 1 ragged_file "k" (Some (PyDict <$> two_fields))).2.
Proof.
  eapply (explicit_fields_override_header 1 seven_file ragged_file "k"
            (PyDict [(Some "field", PyString " _a.b "); (Some "type", PyString "string")])
            [PyDict [(Some "field", PyString ""); (Some "type", PyString "integer")]]
            utf_8_sig utf_8_sig); reflexivity.
Defined.



(** X4.  In [csv_uploader.py] only [UnicodeDecodeError] is caught: when
    the first encoding that decodes the file makes the reader fail, the
    constructor raises that failure at once, no later encoding is tried
    and no encoding is kept.  [csv-uploader.py] catches every exception
    and goes on with the next encoding. *)
Theorem reader_failure_is_not_retried :
  forall (fuel : nat) (f : file) (pk : string) (flds fs : option (list pyval))
         (enc : Encoding) (e : exn),
    explicit_names flds = Returns fs ->
    first_decodable f ENCODINGS = Some enc ->
    f enc = ReadFailure e ->
    init fuel f pk flds
    = ({| primary_key := pk; fields := fs; encoding := None; fieldnames := None |},
       Raises e)
    /\ (forall rest ex self,
          for_encodings csv_uploader_v1 fuel f (enc :: rest) ex self
          = for_encodings csv_uploader_v1 fuel f rest (Some e) self).
Proof.
  intros fuel f pk flds fs enc e Hfs Hfirst Hf. split.
  - unfold init, init_of. rewrite Hfs.
    edestruct (for_encodings_first csv_uploader fuel f ENCODINGS None) as [ex ->];
      [reflexivity | exact Hfirst |].
    simpl. rewrite Hf. reflexivity.
  - intros rest ex self. simpl. now rewrite Hf.
Qed.

Lemma reader_failure_is_not_retried_witness :
  init 0 oversized_file "k" None
  = ({| primary_key := "k"; fields := None; encoding := None; fieldnames := None |},
     Raises (CsvError "field larger than field limit (1048576)")).
Proof.
  apply (reader_failure_is_not_retried 0 oversized_file "k" None None utf_8
           (CsvError "field larger than field limit (1048576)")); reflexivity.
Defined.

Lemma rotate_once_run k rest :
  rotate_once (PyStr.repeat "_" (S k) +:+ rest) = PyStr.repeat "_" k +:+ rest +:+ "_".
Proof. unfold rotate_once. simpl. now rewrite app_assoc_str. Qed.

(** X5.  The constructor of [csv-unique-count.py] has an [if] where the
    uploader has a [while]: on every file it can read it returns, and
    each name that starts with underscores has exactly one of them moved
    to its end, so that a name of several leading underscores still
    starts with one. *)
Theorem unique_count_moves_one_underscore :
  forall (fuel : nat) (f : file) (pk : string) (enc : Encoding) (names : list string),
    first_decodable f ENCODINGS = Some enc ->
    names_at_loop f None enc = Some names ->
    (init_of csv_unique_count fuel f pk None).2 = Returns tt
    /\ fieldnames (init_of csv_unique_count fuel f pk None).1
       = Some (fill_empty 0 (rotate_once <$> names))
    /\ (forall i k rest,
          names !! i = Some (PyStr.repeat "_" (S k) +:+ rest) ->
          (rotate_once <$> names) !! i = Some (PyStr.repeat "_" k +:+ rest +:+ "_")).
Proof.
  intros fuel f pk enc names Hfirst Hnames.
  destruct (names_at_loop_inv _ _ _ _ Hnames) as (fs & rows & header & Hfs & Hf & Hh & Hc).
  injection Hfs as <-.
  assert (Hrun : init_of csv_unique_count fuel f pk None
                 = ({| primary_key := pk; fields := None; encoding := Some enc;
                       fieldnames := Some (fill_empty 0 (rotate_once <$> names)) |},
                    Returns tt)).
  { unfold init_of. simpl explicit_names. cbv iota.
    edestruct (for_encodings_first csv_unique_count fuel f ENCODINGS None) as [ex ->];
      [reflexivity | exact Hfirst |].
    cbn -[dictreader_fieldnames clean_names]. rewrite Hf.
    cbn -[dictreader_fieldnames clean_names]. rewrite Hh, Hc. reflexivity. }
  rewrite Hrun. split; [reflexivity|]. split; [reflexivity|].
  intros i k rest Hi. rewrite list_lookup_fmap, Hi.
  cbn [fmap option_fmap option_map]. now rewrite rotate_once_run.
Qed.

Lemma unique_count_moves_one_underscore_witness :
  (init_of csv_unique_count 0 underscore_file "" None).2 = Returns tt
  /\ fieldnames (init_of csv_unique_count 0 underscore_file "" None).1
     = Some (fill_empty 0 (rotate_once <$> ["a"; "__"])).
Proof.
  destruct (unique_count_moves_one_underscore 0 underscore_file "" utf_8_sig ["a"; "__"])
    as (H1 & H2 & _); [reflexivity | reflexivity |].
  split; [exact H1 | exact H2].
Defined.

(** ** The generator *)

(** X6.  [extract_records] skips the header with [next(csv_reader)]: it
    ends normally exactly when the file has a non-blank row, and on a
    file without one it yields nothing and raises [RuntimeError], the
    form in which the [StopIteration] leaves the generator. *)
Theorem generator_needs_a_header_row :
  forall (time_ns : nat -> Z) (f : file) (self : CsvExtractor) (ids : id_state)
         (enc : Encoding) (names : list string) (rows : list (list string)),
    encoding self = Some enc -> fieldnames self = Some names -> f enc = Rows rows ->
    (ending (extract_records time_ns f self ids).1 = Returns tt
     <-> exists row, row ∈ rows /\ row <> [])
    /\ (Forall (fun row => row = []) rows ->
        yielded (extract_records time_ns f self ids).1 = []
        /\ ending (extract_records time_ns f self ids).1
           = Raises (RuntimeError "generator raised StopIteration")).
Proof.
  intros time_ns f self ids enc names rows He Hn Hf.
  rewrite (extract_records_ending time_ns f self ids enc names rows He Hn Hf).
  assert (Hex : List.existsb nonblank rows = true <-> exists row, row ∈ rows /\ row <> []).
  { rewrite List.existsb_exists. split.
    - intros (row & Hin & Hnb). exists row. split; [now apply list_elem_of_In|].
      now destruct row.
    - intros (row & Hin & Hne). exists row. split; [now apply list_elem_of_In|].
      now destruct row. }
  destruct (List.existsb nonblank rows) eqn:E.
  - split.
    + split; [intros _; now apply Hex | reflexivity].
    + intros Hblank. destruct Hex as [(row & Hin & Hne) _]; [reflexivity|].
      rewrite Forall_forall in Hblank. now specialize (Hblank row Hin).
  - split.
    + split; [discriminate | intros H; apply Hex in H; discriminate].
    + intros Hblank. split; [|reflexivity].
    rewrite (extract_records_yielded time_ns f self ids enc names rows He Hn Hf).
    assert (data_rows rows = []) as ->.
    { unfold data_rows. clear -Hblank.
      induction Hblank as [|row rows -> _ IH]; [reflexivity | exact IH]. }
    now destruct (String.eqb _ _).
Qed.

Lemma generator_needs_a_header_row_witness :
  yielded (extract_records frozen_clock empty_file
             (init 1 empty_file "k" (Some (PyDict <$> two_fields))).1 fresh_ids).1 = []
  /\ ending (extract_records frozen_clock empty_file
               (init 1 empty_file "k" (Some (PyDict <$> two_fields))).1 fresh_ids).1
     = Raises (RuntimeError "generator raised StopIteration").
Proof.
  edestruct (generator_needs_a_header_row frozen_clock empty_file
               (init 1 empty_file "k" (Some (PyDict <$> two_fields))).1 fresh_ids
               utf_8_sig) as [_ H]; [reflexivity | reflexivity | reflexivity |].
  apply H. constructor.
Defined.

(** ** Records *)

Lemma dict_set_fresh k v (d : pydict) :
  k ∉ d.*1 -> dict_set k v d = d ++ [(k, v)].
Proof.
  induction d as [|[k' v'] d IH]; intros Hk; [reflexivity|].
  simpl in *. apply not_elem_of_cons in Hk as [Hne Hk].
  rewrite bool_decide_eq_false_2 by congruence. now rewrite IH.
Qed.

Lemma dict_set_keys k v (d : pydict) :
  (dict_set k v d).*1 = if bool_decide (k ∈ d.*1) then d.*1 else d.*1 ++ [k].
Proof.
  induction d as [|[k' v'] d IH]; [reflexivity|].
  cbn [dict_set]. rewrite !fmap_cons. cbn [fst].
  destruct (decide (k' = k)) as [->|Hne].
  - rewrite (bool_decide_eq_true_2 (k = k)) by reflexivity.
    rewrite (bool_decide_eq_true_2 (k ∈ k :: d.*1)) by apply list_elem_of_here.
    reflexivity.
  - rewrite (bool_decide_eq_false_2 (k' = k)) by exact Hne.
    rewrite fmap_cons, IH. cbn [fst].
    destruct (decide (k ∈ d.*1)) as [Hin|Hnin].
    + rewrite (bool_decide_eq_true_2 (k ∈ d.*1)) by exact Hin.
      now rewrite (bool_decide_eq_true_2 (k ∈ k' :: d.*1))
        by now apply list_elem_of_further.
    + rewrite (bool_decide_eq_false_2 (k ∈ d.*1)) by exact Hnin.
      rewrite (bool_decide_eq_false_2 (k ∈ k' :: d.*1)); [reflexivity|].
      rewrite elem_of_cons. intros [->|?]; auto.
Qed.

Lemma dict_get_set_ne k k' v (d : pydict) :
  k' <> k -> dict_get k' (dict_set k v d) = dict_get k' d.
Proof.
  intros Hne. unfold dict_get. induction d as [|[k0 v0] d IH]; simpl.
  - now rewrite bool_decide_eq_false_2 by congruence.
  - destruct (decide (k0 = k)) as [->|Hk0].
    + rewrite bool_decide_eq_true_2 by reflexivity. simpl.
      now rewrite !bool_decide_eq_false_2 by congruence.
    + rewrite bool_decide_eq_false_2 by exact Hk0. simpl.
      destruct (bool_decide (k0 = k')); [reflexivity | exact IH].
Qed.

Lemma foldl_dict_set_fresh : forall (kvs : list (string * string)) (d : pydict),
  NoDup kvs.*1 -> (forall k, k ∈ kvs.*1 -> Some k ∉ d.*1) ->
  foldl (fun d kv => dict_set (Some kv.1) (PyString kv.2) d) d kvs
  = d ++ ((fun kv => (Some kv.1, PyString kv.2)) <$> kvs).
Proof.
  induction kvs as [|[k v] kvs IH]; intros d Hnd Hfresh; simpl.
  - now rewrite app_nil_r.
  - simpl in Hnd. apply NoDup_cons in Hnd as [Hk Hnd].
    rewrite dict_set_fresh by (apply Hfresh; simpl; apply list_elem_of_here).
    rewrite IH; [now rewrite <- app_assoc | exact Hnd |].
    intros k' Hk'. rewrite fmap_app, elem_of_app. simpl.
    intros [Hin|Hin].
    + apply (Hfresh k'); [simpl; now apply list_elem_of_further | exact Hin].
    + apply list_elem_of_singleton in Hin. injection Hin as ->. contradiction.
Qed.

Lemma foldl_dict_set_none : forall (ks : list string) (d : pydict),
  NoDup ks -> (forall k, k ∈ ks -> Some k ∉ d.*1) ->
  foldl (fun d k => dict_set (Some k) PyNone d) d ks
  = d ++ ((fun k => (Some k, PyNone)) <$> ks).
Proof.
  induction ks as [|k ks IH]; intros d Hnd Hfresh; simpl.
  - now rewrite app_nil_r.
  - apply NoDup_cons in Hnd as [Hk Hnd].
    rewrite dict_set_fresh by (apply Hfresh; apply list_elem_of_here).
    rewrite IH; [now rewrite <- app_assoc | exact Hnd |].
    intros k' Hk'. rewrite fmap_app, elem_of_app. simpl.
    intros [Hin|Hin].
    + apply (Hfresh k'); [now apply list_elem_of_further | exact Hin].
    + apply list_elem_of_singleton in Hin. injection Hin as ->. contradiction.
Qed.

Lemma zip_fst_take : forall (names row : list string),
  (zip names row).*1 = take (length row) names.
Proof.
  induction names as [|n names IH]; intros [|c row]; try reflexivity.
  simpl. now rewrite <- IH.
Qed.

(** The record of a row under distinct field names. *)
Lemma dict_of_row_distinct (names row : list string) :
  NoDup names ->
  dict_of_row names row
  = ((fun kv => (Some kv.1, PyString kv.2)) <$> zip names row)
    ++ (if Nat.ltb (length names) (length row)
        then [(None, PyList (PyString <$> drop (length names) row))]
        else (fun k => (Some k, PyNone)) <$> drop (length row) names).
Proof.
  intros Hnd. unfold dict_of_row.
  assert (Hzip : NoDup (zip names row).*1).
  { rewrite zip_fst_take. rewrite <- (take_drop (length row) names) in Hnd.
    now apply NoDup_app in Hnd as [? _]. }
  rewrite (foldl_dict_set_fresh (zip names row) [] Hzip)
    by (intros k _; apply not_elem_of_nil).
  rewrite app_nil_l.
  destruct (Nat.ltb_spec (length names) (length row)) as [Hlong|Hshort].
  - apply dict_set_fresh.
    rewrite <- list_fmap_compose. intros Hin.
    apply list_elem_of_fmap in Hin as (kv & Hkv & _). discriminate.
  - destruct (Nat.ltb_spec (length row) (length names)) as [Hlt|Hge].
    + apply foldl_dict_set_none.
      * rewrite <- (take_drop (length row) names) in Hnd.
        now apply NoDup_app in Hnd as (_ & _ & ?).
      * intros k Hk. rewrite <- list_fmap_compose. intros Hin.
        apply list_elem_of_fmap in Hin as (kv & Hkv & Hin). injection Hkv as ->.
        rewrite <- (take_drop (length row) names) in Hnd.
        apply NoDup_app in Hnd as (_ & Hdisj & _).
        apply (Hdisj kv.1); [|exact Hk].
        rewrite <- zip_fst_take. now apply list_elem_of_fmap_2.
    + rewrite drop_ge by lia. now rewrite app_nil_r.
Qed.

(** X7.  With distinct field names, the record of a row pairs the names
    with the cells in column order; a row shorter than the header gets
    [None] for the names it does not reach, and the cells a longer row
    has in excess are gathered in a list under the key [None]. *)
Theorem records_follow_the_columns :
  forall (names row : list string),
    NoDup names ->
    dict_of_row names row
    = ((fun kv => (Some kv.1, PyString kv.2)) <$> zip names row)
      ++ (if Nat.ltb (length names) (length row)
          then [(None, PyList (PyString <$> drop (length names) row))]
          else (fun k => (Some k, PyNone)) <$> drop (length row) names).
Proof. exact dict_of_row_distinct. Qed.

Lemma records_follow_the_columns_witness :
  dict_of_row ["id"; "city"] ["3"; "Rome"; "x"]
  = ((fun kv => (Some kv.1, PyString kv.2)) <$> zip ["id"; "city"] ["3"; "Rome"; "x"])
    ++ (if Nat.ltb (length ["id"; "city"]) (length ["3"; "Rome"; "x"])
        then [(None, PyList (PyString <$> drop (length ["id"; "city"]) ["3"; "Rome"; "x"]))]
        else (fun k => (Some k, PyNone)) <$> drop (length ["3"; "Rome"; "x"]) ["id"; "city"]).
Proof.
  apply (records_follow_the_columns ["id"; "city"] ["3"; "Rome"; "x"]).
  repeat constructor; rewrite ?elem_of_cons, ?elem_of_nil; intuition discriminate.
Defined.

(** X8.  In the auto-identifier mode the generated identifier is what the
    record holds under ['id']: a column of the file that is called [id]
    keeps its place and loses its cell, every other field keeps its
    value, and when there is no such column the identifier comes last. *)
Theorem auto_id_replaces_an_id_column :
  forall (names : list string) (id : string) (row : list string),
    record_id (with_id names id row) = Some (PyString id)
    /\ (forall k, k <> Some "id" ->
          dict_get k (with_id names id row) = dict_get k (dict_of_row names row))
    /\ (with_id names id row).*1
       = (if bool_decide (Some "id" ∈ (dict_of_row names row).*1)
          then (dict_of_row names row).*1
          else (dict_of_row names row).*1 ++ [Some "id"]).
Proof.
  intros names id row. unfold with_id, record_id.
  split; [apply dict_get_set|]. split; [|apply dict_set_keys].
  intros k Hk. now apply dict_get_set_ne.
Qed.

(** ** Validation and the constructor *)

Lemma all_violations_nil repr flds :
  all_violations repr flds = []
  <-> forall field, field ∈ flds ->
        is_Some (dict_get (Some "field") field)
        /\ exists t, dict_get (Some "type") field = Some t /\ allowed_type t = true.
Proof.
  unfold all_violations. rewrite join_nil, Forall_forall. split.
  - intros H field Hin. apply list_elem_of_lookup in Hin as [i Hi].
    apply (violations_nil repr i). apply H. now apply elem_of_lookup_imap_2.
  - intros H v Hv. apply elem_of_lookup_imap_1 in Hv as (i & field & -> & Hi).
    apply violations_nil, H. apply list_elem_of_lookup. eauto.
Qed.

Lemma validate_fields_returns repr flds :
  validate_fields repr flds = Returns tt <-> all_violations repr flds = [].
Proof.
  rewrite validate_fields_spec. destruct (all_violations repr flds); split;
    intros H; try reflexivity; discriminate.
Qed.

(** X9.  Field definitions that pass [validate_fields] can be handed to
    the constructor: [field['field']] is found in every one of them, so
    that no [KeyError] is raised, and the explicit names are as many as
    the definitions. *)
Theorem validated_fields_have_names :
  forall (repr : pyval -> string) (flds : list pydict),
    validate_fields repr flds = Returns tt ->
    exists vs, field_column (PyDict <$> flds) = Returns vs
               /\ length vs = length flds
               /\ explicit_names (as_values (Some flds))
                  = Returns (match flds with [] => None | _ => Some vs end).
Proof.
  intros repr flds Hok. apply validate_fields_returns in Hok.
  pose proof (proj1 (all_violations_nil repr flds) Hok) as Hall. clear Hok.
  rename Hall into Hok.
  assert (Hcol : exists vs, field_column (PyDict <$> flds) = Returns vs
                            /\ length vs = length flds).
  { induction flds as [|field flds IH]; [exists []; auto|].
    destruct IH as (vs & Hvs & Hlen).
    { intros fld Hin. apply Hok. now apply list_elem_of_further. }
    destruct (Hok field (list_elem_of_here _ _)) as [[v Hv] _].
    exists (v :: vs). rewrite fmap_cons. cbn [field_column].
    rewrite Hv, Hvs. simpl. auto. }
  destruct Hcol as (vs & Hvs & Hlen). exists vs. repeat split; try assumption.
  destruct flds as [|field flds]; [reflexivity|].
  unfold as_values, explicit_names. cbn [fmap option_fmap option_map].
  rewrite fmap_cons in *. now rewrite Hvs.
Qed.

Lemma validated_fields_have_names_witness :
  exists vs, field_column (PyDict <$> two_fields) = Returns vs
             /\ length vs = length two_fields
             /\ explicit_names (as_values (Some two_fields))
                = Returns (match two_fields with [] => None | _ => Some vs end).
Proof.
  apply (validated_fields_have_names (fun _ => "?") two_fields). reflexivity.
Defined.

(** X10.  The field definitions the script makes up itself, one string
    field for each column and the [id] field of the auto-identifier mode,
    satisfy its own validator. *)
Theorem inferred_fields_are_valid :
  forall (repr : pyval -> string) (names : list string),
    validate_fields repr (string_field <$> names) = Returns tt
    /\ validate_fields repr ((string_field <$> names) ++ [string_field "id"])
       = Returns tt.
Proof.
  intros repr names.
  assert (H : forall l : list string,
            validate_fields repr (string_field <$> l) = Returns tt).
  { intros l. apply validate_fields_returns, all_violations_nil.
    intros field Hin. apply list_elem_of_fmap in Hin as (n & -> & _).
    split; [eexists; reflexivity|]. eexists. split; reflexivity. }
  split; [apply H|].
  change [string_field "id"] with (string_field <$> ["id"]).
  rewrite <- fmap_app. apply H.
Qed.

(** ** The uploader as a whole *)

Lemma sent_request_api (s : server) method url auth_id data trace :
  sent (request_api s method url auth_id data trace).2
  = sent trace ++ [{| method := method; url := url;
                      authorization := auth_id; json_data := data |}].
Proof.
  unfold request_api. destruct (bool_decide _); [cbn [snd]; now rewrite sent_app|].
  destruct (raise_for_status _); cbn [snd]; rewrite !sent_app;
    apply app_nil_r.
Qed.



Lemma sent_stdout trace line : sent (trace ++ [Stdout line]) = sent trace.
Proof. rewrite sent_app. apply app_nil_r. Qed.

(** X12.  When a dataset is created and the primary key is the sentinel
    or one of the field names, exactly one request is made for it, a POST
    to [/v2/dataset], whatever the server answers.  Its body names the
    dataset after [--name], or after the file when there is none; its
    fields are the definitions given, or one string field for each field
    name in column order when none is given; in the auto-identifier mode
    the primary key is ['id'] and the field [id] is added last, otherwise
    the primary key is the declared one. *)
Theorem created_dataset_payload :
  forall (env : Env) (args : Args) (flds : option (list pydict))
         (self : CsvExtractor) (trace : list event),
    primaryKey args = AUTO_PRIMARY_KEY
    \/ primaryKey args ∈ default [] (fieldnames self) ->
    exists data,
      sent (create_dataset env args flds self trace).2
      = sent trace ++ [{| method := "POST"; url := server_url args +:+ "/v2/dataset";
                          authorization := apiKey args; json_data := PyDict data |}]
      /\ dict_get (Some "name") data
         = Some (PyString (if truthy (name args) then default "" (name args)
                           else stem env (filename args)))
      /\ dict_get (Some "everyone") data = Some (PyBool (everyone args))
      /\ dict_get (Some "primaryKey") data
         = Some (PyString (if String.eqb (primaryKey args) AUTO_PRIMARY_KEY
                           then "id" else primaryKey args))
      /\ dict_get (Some "fields") data
         = Some (PyList (PyDict <$>
                   (match given_fields flds with
                    | [] => string_field <$> default [] (fieldnames self)
                    | l => l
                    end
                    ++ (if String.eqb (primaryKey args) AUTO_PRIMARY_KEY
                        then [string_field "id"] else [])))).
Proof.
  intros env args flds self trace Hpk. unfold create_dataset.
  assert (Hcheck :
    (if negb (String.eqb (primaryKey args) AUTO_PRIMARY_KEY)
     then if bool_decide (primaryKey args ∈ default [] (fieldnames self))
          then true else false
     else true) = true).
  { destruct Hpk as [->|Hin]; [reflexivity|].
    destruct (String.eqb _ _); [reflexivity|]. simpl.
    now rewrite bool_decide_eq_true_2. }
  destruct (String.eqb (primaryKey args) AUTO_PRIMARY_KEY) eqn:Hauto; simpl negb in *;
    cbv iota in *.
  all: try (destruct (bool_decide (primaryKey args ∈ default [] (fieldnames self)));
            [|discriminate]).
  all: cbv iota beta.
  all: match goal with
       | |- context [request_api ?s ?m ?u ?a ?d ?t] =>
           pose proof (sent_request_api s m u a d t) as Hsent;
           destruct (request_api s m u a d t) as [[res|e|] t'] eqn:Hreq
       end.
  all: cbn [snd] in Hsent; rewrite sent_stdout in Hsent.
  all: try destruct (subscript res "id") as [id|e|].
  all: cbn [snd]; rewrite ?sent_stdout, Hsent.
  all: eexists; split; [reflexivity|].
  all: destruct (category args) as [[|c cs]|]; destruct flds as [[|fd fds]|];
         cbn [given_fields app]; rewrite ?app_nil_r; repeat split; reflexivity.
Qed.

Lemma created_dataset_payload_witness :
  exists data,
    sent (create_dataset sample_env (fields_args 3 false true None "_AUTO_" None) None
            (init 0 seven_file "_AUTO_" None).1 []).2
    = sent [] ++ [{| method := "POST"; url := "http://host" +:+ "/v2/dataset";
                     authorization := "key"; json_data := PyDict data |}]
    /\ dict_get (Some "primaryKey") data = Some (PyString "id")
    /\ dict_get (Some "fields") data
       = Some (PyList (PyDict <$> [string_field "k"; string_field "v"; string_field "id"])).
Proof.
  destruct (created_dataset_payload sample_env
              (fields_args 3 false true None "_AUTO_" None) None
              (init 0 seven_file "_AUTO_" None).1 [])
    as (data & Hsent & _ & _ & Hpk & Hflds); [left; reflexivity|].
  exists data. split; [exact Hsent|]. split; [exact Hpk | exact Hflds].
Defined.

Lemma answers_accepts s res : answers s res -> accepts s.
Proof. intros H history req. destruct (H history req) as [? ?]. eauto. Qed.

Lemma request_api_answered (s : server) res method url auth_id data trace :
  answers s res ->
  request_api s method url auth_id data trace
  = (Returns res,
     trace ++ [Sent {| method := method; url := url;
                       authorization := auth_id; json_data := data |}]).
Proof.
  intros Hok. unfold request_api.
  match goal with |- context [s ?h ?r] => destruct (Hok h r) as [-> ->] end.
  reflexivity.
Qed.

(** X13.  For a named dataset and a server that accepts everything, the
    requests of [process_file] are, in this order: the PATCH of the field
    definitions when some were given, the DELETE of the rows when
    [--clear] was given, one POST for each batch of records, and the GET
    of the index unless the batches were indexed one by one; nothing else
    is sent, and [process_file] returns. *)
Theorem named_dataset_request_order :
  forall (fuel : nat) (env : Env) (args : Args) (ids : id_state)
         (flds : option (list pydict)) (self : CsvExtractor)
         (res ok : pyval) (records : list pydict),
    answers (srv env) res ->
    subscript res "success" = Returns ok ->
    truthy (datasetId args) = true ->
    load_fields env args = Returns flds ->
    init fuel (csv_file env) (primaryKey args) (as_values flds) = (self, Returns tt) ->
    (1 <= batchSize args)%Z ->
    ending (extract_records (time_ns env) (csv_file env) self ids).1 = Returns tt ->
    Forall2 (coerced (literal_eval env))
            (yielded (extract_records (time_ns env) (csv_file env) self ids).1)
            records ->
    (process_file fuel env args ids).1 = Returns tt
    /\ sent (process_file fuel env args ids).2
       = (match given_fields flds with
          | [] => []
          | l => [patch_request env args (PyString (default "" (datasetId args))) l]
          end)
         ++ (if clear args
             then [delete_request env args (PyString (default "" (datasetId args)))]
             else [])
         ++ (batch_request env args (PyString (default "" (datasetId args)))
               <$> chunks (Z.to_nat (batchSize args)) records)
         ++ (if index args then []
             else [index_request env args (PyString (default "" (datasetId args)))]).
Proof.
  intros fuel env args ids flds self res ok records
         Hans Hsucc Hnamed Hload Hinit Hn Hend Hco.
  pose proof (answers_accepts _ _ Hans) as Hacc.
  unfold process_file. rewrite Hload, Hinit, Hnamed. cbn [negb]. cbv iota.
  set (dataset := PyString (default "" (datasetId args))).
  assert (Hrest : forall trace,
    (upload_rows env args dataset self ids
       (if clear args
        then (request_api (srv env) "DELETE"
                (server_url args +:+ "/v2/dataset/" +:+ py_str (repr env) dataset +:+ "/rows")
                (apiKey args) (PyDict [str_key "datasetId" dataset])
                (trace ++ [Stdout ("Clearing all Rows in dataset "
                                   +:+ py_str (repr env) dataset)])).2
        else trace)).1 = Returns tt
    /\ sent (upload_rows env args dataset self ids
       (if clear args
        then (request_api (srv env) "DELETE"
                (server_url args +:+ "/v2/dataset/" +:+ py_str (repr env) dataset +:+ "/rows")
                (apiKey args) (PyDict [str_key "datasetId" dataset])
                (trace ++ [Stdout ("Clearing all Rows in dataset "
                                   +:+ py_str (repr env) dataset)])).2
        else trace)).2
      = sent trace
        ++ (if clear args then [delete_request env args dataset] else [])
        ++ (batch_request env args dataset <$> chunks (Z.to_nat (batchSize args)) records)
        ++ (if index args then [] else [index_request env args dataset])).
  { intros trace.
    match goal with |- context [upload_rows _ _ _ _ _ ?t] =>
      destruct (upload_rows_sent env args dataset self ids t records Hn Hacc Hend Hco)
        as [Hret Hsent] end.
    split; [exact Hret|]. rewrite Hsent.
    destruct (clear args); [|reflexivity].
    rewrite sent_request_api, sent_stdout, <- app_assoc. reflexivity. }
  destruct flds as [[|fd fds]|]; cbn [given_fields].
  - specialize (Hrest []). destruct (clear args).
    + rewrite (request_api_answered _ res) in * by exact Hans. exact Hrest.
    + exact Hrest.
  - rewrite (request_api_answered _ res) by exact Hans. rewrite Hsucc.
    match goal with |- context [Stdout ("Dataset Fields Updated: " +:+ ?x)] =>
      specialize (Hrest ([] ++ [Sent (patch_request env args dataset (fd :: fds))]
                         ++ [Stdout ("Dataset Fields Updated: " +:+ x)])) end.
    destruct (clear args).
    + rewrite (request_api_answered _ res) in * by exact Hans. exact Hrest.
    + exact Hrest.
  - specialize (Hrest []). destruct (clear args).
    + rewrite (request_api_answered _ res) in * by exact Hans. exact Hrest.
    + exact Hrest.
Qed.

Lemma ok_server_answers :
  answers ok_server (PyDict [(Some "id", PyString "ds1"); (Some "success", PyBool true)]).
Proof. intros history req. split; reflexivity. Qed.

Lemma named_dataset_request_order_witness :
  (process_file 0 sample_env (fields_args 3 true false (Some "ds1") "k" None) fresh_ids).1
  = Returns tt
  /\ (method <$> sent (process_file 0 sample_env
                        (fields_args 3 true false (Some "ds1") "k" None) fresh_ids).2)
     = ["DELETE"; "POST"; "POST"; "POST"; "GET"].
Proof.
  edestruct (named_dataset_request_order 0 sample_env
               (fields_args 3 true false (Some "ds1") "k" None) fresh_ids None
               (init 0 seven_file "k" None).1) as [Hret Hsent].
  - apply ok_server_answers.
  - reflexivity.
  - reflexivity.
  - reflexivity.
  - reflexivity.
  - vm_compute. discriminate.
  - reflexivity.
  - set (records := yielded _). vm_compute in records. subst records.
    repeat (constructor; [reflexivity|]). constructor.
  - split; [exact Hret|]. rewrite Hsent. reflexivity.
Defined.

Lemma create_dataset_answered env args flds self trace res id :
  answers (srv env) res ->
  subscript res "id" = Returns id ->
  primaryKey args = AUTO_PRIMARY_KEY
  \/ primaryKey args ∈ default [] (fieldnames self) ->
  exists data,
    create_dataset env args flds self trace
    = (Returns id,
       trace ++ [Stdout "Creating a new dataset";
                 Sent {| method := "POST"; url := server_url args +:+ "/v2/dataset";
                         authorization := apiKey args; json_data := PyDict data |};
                 Stdout ("Dataset ID: " +:+ py_str (repr env) id)]).
Proof.
  intros Hans Hid Hpk. unfold create_dataset.
  destruct (String.eqb (primaryKey args) AUTO_PRIMARY_KEY) eqn:Hauto; cbn [negb];
    cbv iota.
  - rewrite (request_api_answered _ res) by exact Hans. rewrite Hid.
    eexists. rewrite <- !app_assoc. reflexivity.
  - destruct Hpk as [Hpk|Hpk]; [rewrite Hpk in Hauto; discriminate|].
    rewrite bool_decide_eq_true_2 by exact Hpk.
    rewrite (request_api_answered _ res) by exact Hans. rewrite Hid.
    eexists. rewrite <- !app_assoc. reflexivity.
Qed.

(** X14.  When no dataset is named, the primary key is the sentinel or a
    field name and the server accepts everything, [process_file] first
    creates the dataset and then sends the rest to the dataset the server
    has named in its answer: the DELETE of the rows when [--clear] was
    given, the batches, and the GET of the index unless the batches were
    indexed one by one.  Given field definitions are not sent a second
    time. *)
Theorem created_dataset_receives_the_rows :
  forall (fuel : nat) (env : Env) (args : Args) (ids : id_state)
         (flds : option (list pydict)) (self : CsvExtractor)
         (res id : pyval) (records : list pydict),
    answers (srv env) res ->
    subscript res "id" = Returns id ->
    truthy (datasetId args) = false ->
    primaryKey args = AUTO_PRIMARY_KEY
    \/ primaryKey args ∈ default [] (fieldnames self) ->
    load_fields env args = Returns flds ->
    init fuel (csv_file env) (primaryKey args) (as_values flds) = (self, Returns tt) ->
    (1 <= batchSize args)%Z ->
    ending (extract_records (time_ns env) (csv_file env) self ids).1 = Returns tt ->
    Forall2 (coerced (literal_eval env))
            (yielded (extract_records (time_ns env) (csv_file env) self ids).1)
            records ->
    (process_file fuel env args ids).1 = Returns tt
    /\ exists data,
         sent (process_file fuel env args ids).2
         = [{| method := "POST"; url := server_url args +:+ "/v2/dataset";
               authorization := apiKey args; json_data := PyDict data |}]
           ++ (if clear args then [delete_request env args id] else [])
           ++ (batch_request env args id <$> chunks (Z.to_nat (batchSize args)) records)
           ++ (if index args then [] else [index_request env args id]).
Proof.
  intros fuel env args ids flds self res id records
         Hans Hid Hnew Hpk Hload Hinit Hn Hend Hco.
  pose proof (answers_accepts _ _ Hans) as Hacc.
  unfold process_file. rewrite Hload, Hinit, Hnew. cbn [negb]. cbv iota.
  destruct (create_dataset_answered env args flds self [] res id Hans Hid Hpk)
    as [data ->].
  destruct (clear args).
  - rewrite (request_api_answered _ res) by exact Hans.
    match goal with |- context [upload_rows _ _ _ _ _ ?t] =>
      destruct (upload_rows_sent env args id self ids t records Hn Hacc Hend Hco)
        as [Hret Hsent] end.
    split; [exact Hret|]. exists data. rewrite Hsent. reflexivity.
  - match goal with |- context [upload_rows _ _ _ _ _ ?t] =>
      destruct (upload_rows_sent env args id self ids t records Hn Hacc Hend Hco)
        as [Hret Hsent] end.
    split; [exact Hret|]. exists data. rewrite Hsent. reflexivity.
Qed.

Lemma created_dataset_receives_the_rows_witness :
  (process_file 0 sample_env (fields_args 3 false true None "k" None) fresh_ids).1
  = Returns tt
  /\ (url <$> sent (process_file 0 sample_env
                      (fields_args 3 false true None "k" None) fresh_ids).2)
     = ["http://host/v2/dataset"; "http://host/v2/dataset/ds1/rows";
        "http://host/v2/dataset/ds1/rows"; "http://host/v2/dataset/ds1/rows"].
Proof.
  edestruct (created_dataset_receives_the_rows 0 sample_env
               (fields_args 3 false true None "k" None) fresh_ids None
               (init 0 seven_file "k" None).1) as [Hret [data Hsent]].
  - apply ok_server_answers.
  - reflexivity.
  - reflexivity.
  - right. simpl. rewrite !elem_of_cons. auto.
  - reflexivity.
  - reflexivity.
  - vm_compute. discriminate.
  - reflexivity.
  - set (records := yielded _). vm_compute in records. subst records.
    repeat (constructor; [reflexivity|]). constructor.
  - split; [exact Hret|]. rewrite Hsent. reflexivity.
Defined.

Lemma request_api_rejected (s : server) method url auth_id data trace :
  rejects s ->
  exists status,
    request_api s method url auth_id data trace
    = (Raises (HTTPError status),
       trace ++ [Sent {| method := method; url := url;
                         authorization := auth_id; json_data := data |}]
             ++ [Stderr (pretty status +:+ " "
                         +:+ text (s (sent trace)
                                     {| method := method; url := url;
                                        authorization := auth_id;
                                        json_data := data |}))]).
Proof.
  intros Hrej. unfold request_api, raise_for_status.
  match goal with |- context [s ?h ?r] =>
    pose proof (Hrej h r) as [Hlo Hhi]; set (resp := s h r) in * end.
  exists (status_code resp).
  rewrite bool_decide_eq_false_2.
  - apply Z.leb_le in Hlo. apply Z.ltb_lt in Hhi. rewrite Hlo, Hhi. simpl.
    now rewrite <- app_assoc.
  - rewrite !elem_of_cons, elem_of_nil. lia.
Qed.

Lemma for_records_rejected env args dataset :
  rejects (srv env) ->
  forall records rows batches trace,
    quiet_or_failed trace (for_records env args dataset records rows batches trace).
Proof.
  intros Hrej. induction records as [|record records IH]; intros rows batches trace.
  - now left.
  - simpl. destruct (coerce_record (literal_eval env) record) as [record'| |];
      try now left.
    destruct (_ >=? _)%Z; [|apply IH].
    unfold process_batch.
    match goal with |- context [request_api ?s ?m ?u ?a ?d ?t] =>
      destruct (request_api_rejected s m u a d t Hrej) as [st ->] end.
    right. eexists _, st. split; [|reflexivity]. cbn [snd].
    rewrite !sent_app. simpl. now rewrite ?app_nil_r.
Qed.

Lemma quiet_or_failed_passed {A B} trace0 trace (r : outcome A) (r' : outcome B) t :
  quiet_or_failed trace0 (r, t) ->
  sent trace0 = sent trace ->
  (forall status, r = Raises (HTTPError status) -> r' = Raises (HTTPError status)) ->
  quiet_or_failed trace (r', t).
Proof.
  intros [H|(req & st & H & Hr)] Htrace Hpass; cbn [fst snd] in *.
  - left. cbn [snd]. now rewrite H.
  - right. exists req, st. cbn [fst snd]. rewrite H, Htrace. auto.
Qed.

Lemma upload_rows_rejected env args dataset self ids trace :
  rejects (srv env) ->
  quiet_or_failed trace (upload_rows env args dataset self ids trace).
Proof.
  intros Hrej. unfold upload_rows.
  match goal with |- context [for_records ?e ?a ?d ?r ?rows ?b ?t] =>
    pose proof (for_records_rejected e a d Hrej r rows b t) as Hloop;
    destruct (for_records e a d r rows b t) as [[[rows' batches]|e'|] t'] end.
  2: { eapply quiet_or_failed_passed;
       [exact Hloop|apply sent_stdout|intros status [= ->]; reflexivity]. }
  2: { eapply quiet_or_failed_passed;
       [exact Hloop|apply sent_stdout|discriminate]. }
  destruct Hloop as [Hquiet|(req & st & _ & Habs)]; [|discriminate].
  cbn [snd] in Hquiet. rewrite sent_stdout in Hquiet.
  cbv zeta. destruct (ending _); try (now left).
  destruct rows' as [|r rows'].
  - destruct (index args); [left; cbn [snd]; now rewrite sent_stdout|].
    match goal with |- context [request_api ?s ?m ?u ?a ?d ?t] =>
      destruct (request_api_rejected s m u a d t Hrej) as [st ->] end.
    right. eexists _, st. split; [|reflexivity]. cbn [snd].
    rewrite !sent_app, Hquiet. simpl. now rewrite ?app_nil_r.
  - unfold process_batch.
    match goal with |- context [request_api ?s ?m ?u ?a ?d ?t] =>
      destruct (request_api_rejected s m u a d t Hrej) as [st ->] end.
    right. eexists _, st. split; [|reflexivity]. cbn [snd].
    rewrite !sent_app, Hquiet. simpl. now rewrite ?app_nil_r.
Qed.

(** X15.  [process_file] never goes on after a request has failed: with a
    server that answers every request with an error status, either no
    request is made at all, or exactly one is made and [process_file]
    raises the HTTP error of its answer. *)
Theorem no_request_follows_a_failed_one :
  forall (fuel : nat) (env : Env) (args : Args) (ids : id_state),
    rejects (srv env) ->
    sent (process_file fuel env args ids).2 = []
    \/ exists req status,
         sent (process_file fuel env args ids).2 = [req]
         /\ (process_file fuel env args ids).1 = Raises (HTTPError status).
Proof.
  intros fuel env args ids Hrej.
  change (quiet_or_failed [] (process_file fuel env args ids)).
  unfold process_file.
  destruct (load_fields env args) as [flds| |]; try now left.
  destruct (init _ _ _ _) as [self [[]| |]]; try now left.
  destruct (negb (truthy (datasetId args))).
  - unfold create_dataset.
    destruct (if negb _ then _ else _) as [[data flds']| |]; try now left.
    match goal with |- context [request_api ?s ?m ?u ?a ?d ?t] =>
      destruct (request_api_rejected s m u a d t Hrej) as [st ->] end.
    right. eexists _, st. split; reflexivity.
  - assert (Hnone : forall dataset,
              quiet_or_failed []
                (let cleared : outcome pyval * list event :=
                   if clear args
                   then request_api (srv env) "DELETE"
                          (server_url args +:+ "/v2/dataset/"
                           +:+ py_str (repr env) dataset +:+ "/rows")
                          (apiKey args) (PyDict [str_key "datasetId" dataset])
                          ([] ++ [Stdout ("Clearing all Rows in dataset "
                                          +:+ py_str (repr env) dataset)])
                   else (Returns PyNone, []) in
                 match cleared with
                 | (Returns _, trace) => upload_rows env args dataset self ids trace
                 | (Raises e, trace) => (Raises e, trace)
                 | (Diverges, trace) => (Diverges, trace)
                 end)).
    { intros dataset. destruct (clear args).
      - destruct (request_api_rejected (srv env) "DELETE"
                    (server_url args +:+ "/v2/dataset/"
                     +:+ py_str (repr env) dataset +:+ "/rows")
                    (apiKey args) (PyDict [str_key "datasetId" dataset])
                    ([] ++ [Stdout ("Clearing all Rows in dataset "
                                    +:+ py_str (repr env) dataset)]) Hrej) as [st ->].
        right. eexists _, st. split; reflexivity.
      - apply upload_rows_rejected, Hrej. }
    destruct flds as [[|fd fds]|]; try apply Hnone.
    match goal with |- context [request_api ?s ?m ?u ?a ?d ?t] =>
      destruct (request_api_rejected s m u a d t Hrej) as [st ->] end.
    right. eexists _, st. split; reflexivity.
Qed.

Lemma failing_server_rejects : rejects failing_server.
Proof. intros history req. simpl. lia. Qed.

Lemma no_request_follows_a_failed_one_witness :
  sent (process_file 0 failing_env sample_args fresh_ids).2 = []
  \/ exists req status,
       sent (process_file 0 failing_env sample_args fresh_ids).2 = [req]
       /\ (process_file 0 failing_env sample_args fresh_ids).1
          = Raises (HTTPError status).
Proof.
  apply (no_request_follows_a_failed_one 0 failing_env sample_args fresh_ids).
  apply failing_server_rejects.
Defined.

(** ** The number of batches *)

Lemma stdout_app t1 t2 : stdout (t1 ++ t2) = stdout t1 ++ stdout t2.
Proof. unfold stdout. apply omap_app. Qed.

Lemma stdout_requests (l : list request) : stdout (Sent <$> l) = [].
Proof. induction l as [|r l IH]; [reflexivity|exact IH]. Qed.

Lemma length_join_equal {A} (n : nat) (l : list (list A)) :
  Forall (fun c => length c = n) l -> length (mjoin l) = n * length l.
Proof.
  induction 1 as [|c l Hc _ IH]; simpl; [lia|].
  rewrite length_app, IH, Hc. lia.
Qed.

(** The loop counts the full batches it sends: every one has exactly
    [batchSize] records, and what is left over is shorter. *)
Lemma for_records_counted env args dataset :
  (1 <= batchSize args)%Z -> accepts (srv env) ->
  forall records records' rows batches trace,
    Forall2 (coerced (literal_eval env)) records records' ->
    length rows < Z.to_nat (batchSize args) ->
    exists full rest,
      for_records env args dataset records rows batches trace
      = (Returns (rest, (batches + Z.of_nat (length full))%Z),
         trace ++ (Sent <$> (batch_request env args dataset <$> full)))
      /\ length rest < Z.to_nat (batchSize args)
      /\ Forall (fun c => length c = Z.to_nat (batchSize args)) full
      /\ rows ++ records' = mjoin full ++ rest.
Proof.
  intros Hn Hok records records' rows batches trace Hco.
  revert rows batches trace.
  induction Hco as [|record record' records records' Hr _ IH];
    intros rows batches trace Hrows.
  - exists [], rows. simpl. rewrite !app_nil_r, Z.add_0_r.
    split; [reflexivity|]. split; [exact Hrows|]. split; [constructor|reflexivity].
  - simpl. unfold coerced in Hr. rewrite Hr.
    destruct (Z.geb_spec (Z.of_nat (length (rows ++ [record']))) (batchSize args))
      as [Hfull|Hpart]; rewrite length_app in *; simpl in *.
    + destruct (process_batch_accepted env args dataset (rows ++ [record']) trace Hok)
        as [v ->].
      destruct (IH [] (batches + 1)%Z
                  (trace ++ [Sent (batch_request env args dataset (rows ++ [record']))])
                  ltac:(simpl; lia))
        as (full & rest & -> & Hrest & Hall & Hjoin).
      exists ((rows ++ [record']) :: full), rest.
      split; [|split; [exact Hrest|split]].
      * simpl. rewrite <- app_assoc. do 3 f_equal. lia.
      * constructor; [rewrite length_app; simpl; lia|exact Hall].
      * simpl in *. rewrite <- !app_assoc. simpl. now rewrite Hjoin.
    + destruct (IH (rows ++ [record']) batches trace
                  ltac:(rewrite length_app; simpl; lia))
        as (full & rest & -> & Hrest & Hall & Hjoin).
      exists full, rest. split; [reflexivity|]. split; [exact Hrest|].
      split; [exact Hall|]. now rewrite <- app_assoc in Hjoin.
Qed.

(** With a batch size of 1 or less every record fills a batch. *)
Lemma for_records_singly env args dataset :
  (batchSize args <= 1)%Z -> accepts (srv env) ->
  forall records records' batches trace,
    Forall2 (coerced (literal_eval env)) records records' ->
    for_records env args dataset records [] batches trace
    = (Returns ([], (batches + Z.of_nat (length records'))%Z),
       trace ++ (Sent <$> (batch_request env args dataset
                             <$> ((fun r => [r]) <$> records')))).
Proof.
  intros Hn Hok records records' batches trace Hco. revert batches trace.
  induction Hco as [|record record' records records' Hr _ IH]; intros batches trace.
  - simpl. now rewrite app_nil_r, Z.add_0_r.
  - simpl. unfold coerced in Hr. rewrite Hr.
    destruct (Z.geb_spec (Z.of_nat 1) (batchSize args)) as [_|Hlt]; [|lia].
    destruct (process_batch_accepted env args dataset [record'] trace Hok) as [v ->].
    rewrite IH, <- app_assoc.
    replace (batches + 1 + Z.of_nat (length records'))%Z
      with (batches + Z.of_nat (S (length records')))%Z by lia.
    reflexivity.
Qed.

(** What [upload_rows] does once the loop has sent the batches [full] and
    left [rest] in [rows]. *)
Lemma upload_rows_after_loop env args dataset self ids trace full rest batches :
  accepts (srv env) ->
  ending (extract_records (time_ns env) (csv_file env) self ids).1 = Returns tt ->
  for_records env args dataset
    (yielded (extract_records (time_ns env) (csv_file env) self ids).1) [] 1%Z
    (trace ++ [Stdout ("Updating Rows in dataset " +:+ py_str (repr env) dataset)])
  = (Returns (rest, batches),
     (trace ++ [Stdout ("Updating Rows in dataset " +:+ py_str (repr env) dataset)])
     ++ (Sent <$> (batch_request env args dataset <$> full))) ->
  (upload_rows env args dataset self ids trace).1 = Returns tt
  /\ sent (upload_rows env args dataset self ids trace).2
     = sent trace
       ++ (batch_request env args dataset
             <$> full ++ match rest with [] => [] | _ => [rest] end)
       ++ (if index args then [] else [index_request env args dataset])
  /\ stdout (upload_rows env args dataset self ids trace).2
     = stdout trace
       ++ ["Updating Rows in dataset " +:+ py_str (repr env) dataset;
           "Uploaded file in " +:+ pretty batches +:+ " batches"]
       ++ (if index args then [] else ["Sending index request"]).
Proof.
  intros Hok Hend Hloop. unfold upload_rows. cbv zeta. rewrite Hloop, Hend.
  destruct rest as [|r rest].
  - rewrite app_nil_r. destruct (index args).
    + split; [reflexivity|]. cbn [snd].
      rewrite !sent_app, !stdout_app, sent_requests, stdout_requests. simpl.
      rewrite ?app_nil_r, <- ?app_assoc. split; reflexivity.
    + match goal with |- context [request_api ?s ?m ?u ?a ?d ?t] =>
        destruct (request_api_accepted s m u a d t Hok) as [v ->] end.
      split; [reflexivity|]. cbn [snd].
      rewrite !sent_app, !stdout_app, sent_requests, stdout_requests. simpl.
      rewrite ?app_nil_r, <- ?app_assoc. split; reflexivity.
  - match goal with |- context [process_batch ?e ?a ?d ?rows ?t] =>
      destruct (process_batch_accepted e a d rows t Hok) as [v ->] end.
    destruct (index args).
    + split; [reflexivity|]. cbn [snd].
      rewrite !sent_app, !stdout_app, sent_requests, stdout_requests, fmap_app. simpl.
      rewrite ?app_nil_r, <- ?app_assoc. split; reflexivity.
    + match goal with |- context [request_api ?s ?m ?u ?a ?d ?t] =>
        destruct (request_api_accepted s m u a d t Hok) as [v' ->] end.
      split; [reflexivity|]. cbn [snd].
      rewrite !sent_app, !stdout_app, sent_requests, stdout_requests, fmap_app. simpl.
      rewrite ?app_nil_r, <- ?app_assoc. split; reflexivity.
Qed.

(** X16.  With a batch size of 1 or less, zero and negative sizes
    included, and a server that accepts every request, every record is
    uploaded in a request of its own, in the order of the file, and the
    number printed at the end is the number of records plus one. *)
Theorem small_batch_size_sends_records_singly :
  forall (env : Env) (args : Args) (dataset : pyval) (self : CsvExtractor)
         (ids : id_state) (trace : list event) (records : list pydict),
    (batchSize args <= 1)%Z ->
    accepts (srv env) ->
    ending (extract_records (time_ns env) (csv_file env) self ids).1 = Returns tt ->
    Forall2 (coerced (literal_eval env))
            (yielded (extract_records (time_ns env) (csv_file env) self ids).1)
            records ->
    (upload_rows env args dataset self ids trace).1 = Returns tt
    /\ sent (upload_rows env args dataset self ids trace).2
       = sent trace
         ++ (batch_request env args dataset <$> ((fun r => [r]) <$> records))
         ++ (if index args then [] else [index_request env args dataset])
    /\ stdout (upload_rows env args dataset self ids trace).2
       = stdout trace
         ++ ["Updating Rows in dataset " +:+ py_str (repr env) dataset;
             "Uploaded file in " +:+ pretty (1 + Z.of_nat (length records))%Z
             +:+ " batches"]
         ++ (if index args then [] else ["Sending index request"]).
Proof.
  intros env args dataset self ids trace records Hn Hok Hend Hco.
  pose proof (for_records_singly env args dataset Hn Hok _ _ 1%Z
                (trace ++ [Stdout ("Updating Rows in dataset "
                                   +:+ py_str (repr env) dataset)]) Hco) as Hloop.
  destruct (upload_rows_after_loop env args dataset self ids trace _ _ _ Hok Hend Hloop)
    as (Hret & Hsent & Hout).
  split; [exact Hret|]. split; [|exact Hout].
  rewrite Hsent, app_nil_r. reflexivity.
Qed.

Lemma small_batch_size_sends_records_singly_witness :
  (upload_rows sample_env (fields_args 0 false true (Some "ds1") "k" None)
     (PyString "ds1") (init 0 seven_file "k" None).1 fresh_ids []).1 = Returns tt
  /\ upload_sizes
       (upload_rows sample_env (fields_args 0 false true (Some "ds1") "k" None)
          (PyString "ds1") (init 0 seven_file "k" None).1 fresh_ids []).2
     = [1; 1; 1; 1; 1; 1; 1]
  /\ stdout
       (upload_rows sample_env (fields_args 0 false true (Some "ds1") "k" None)
          (PyString "ds1") (init 0 seven_file "k" None).1 fresh_ids []).2
     = ["Updating Rows in dataset ds1"; "Uploaded file in 8 batches"].
Proof.
  edestruct (small_batch_size_sends_records_singly sample_env
               (fields_args 0 false true (Some "ds1") "k" None) (PyString "ds1")
               (init 0 seven_file "k" None).1 fresh_ids [])
    as (Hret & Hsent & Hout).
  - vm_compute. discriminate.
  - apply ok_server_accepts.
  - reflexivity.
  - set (records := yielded _). vm_compute in records. subst records.
    repeat (constructor; [reflexivity|]). constructor.
  - split; [exact Hret|]. split; [|exact Hout].
    unfold upload_sizes. rewrite Hsent. reflexivity.
Defined.

(** X17.  With a batch size [n] of at least 1 and a server that accepts
    every request, the number printed in "Uploaded file in N batches" is
    one more than the number of batches of exactly [n] records, while the
    upload requests are those batches and one more only when records are
    left over: when the number of records is a multiple of [n], the empty
    file included, the printed number exceeds the number of upload
    requests by one. *)
Theorem printed_batch_count :
  forall (env : Env) (args : Args) (dataset : pyval) (self : CsvExtractor)
         (ids : id_state) (trace : list event) (records : list pydict),
    (1 <= batchSize args)%Z ->
    accepts (srv env) ->
    ending (extract_records (time_ns env) (csv_file env) self ids).1 = Returns tt ->
    Forall2 (coerced (literal_eval env))
            (yielded (extract_records (time_ns env) (csv_file env) self ids).1)
            records ->
    stdout (upload_rows env args dataset self ids trace).2
    = stdout trace
      ++ ["Updating Rows in dataset " +:+ py_str (repr env) dataset;
          "Uploaded file in "
          +:+ pretty (1 + Z.of_nat (length records / Z.to_nat (batchSize args)))%Z
          +:+ " batches"]
      ++ (if index args then [] else ["Sending index request"])
    /\ length (upload_sizes (upload_rows env args dataset self ids trace).2)
       = length (upload_sizes trace)
         + length records / Z.to_nat (batchSize args)
         + (if Nat.eqb (length records mod Z.to_nat (batchSize args)) 0
            then 0 else 1).
Proof.
  intros env args dataset self ids trace records Hn Hok Hend Hco.
  destruct (for_records_counted env args dataset Hn Hok _ _ [] 1%Z
              (trace ++ [Stdout ("Updating Rows in dataset "
                                 +:+ py_str (repr env) dataset)])
              Hco ltac:(simpl; lia))
    as (full & rest & Hloop & Hrest & Hall & Hjoin).
  destruct (upload_rows_after_loop env args dataset self ids trace _ _ _ Hok Hend Hloop)
    as (_ & Hsent & Hout).
  simpl in Hjoin. apply (f_equal length) in Hjoin.
  rewrite length_app, (length_join_equal _ _ Hall) in Hjoin.
  set (n := Z.to_nat (batchSize args)) in *.
  assert (Hdiv : length records / n = length full)
    by (symmetry; apply (Nat.div_unique _ _ _ (length rest)); lia).
  assert (Hmod : length records mod n = length rest)
    by (symmetry; apply (Nat.mod_unique _ _ (length full)); lia).
  split.
  - rewrite Hout, Hdiv. reflexivity.
  - unfold upload_sizes. rewrite Hsent, !omap_app, omap_batch_sizes.
    rewrite !length_app, length_fmap, length_app, Hdiv, Hmod.
    destruct rest as [|r rest]; destruct (index args); simpl; lia.
Qed.

Lemma printed_batch_count_witness :
  stdout (upload_rows sample_env (fields_args 7 false true (Some "ds1") "k" None)
            (PyString "ds1") (init 0 seven_file "k" None).1 fresh_ids []).2
  = ["Updating Rows in dataset ds1"; "Uploaded file in 2 batches"]
  /\ upload_sizes
       (upload_rows sample_env (fields_args 7 false true (Some "ds1") "k" None)
          (PyString "ds1") (init 0 seven_file "k" None).1 fresh_ids []).2
     = [7].
Proof.
  edestruct (printed_batch_count sample_env
               (fields_args 7 false true (Some "ds1") "k" None) (PyString "ds1")
               (init 0 seven_file "k" None).1 fresh_ids [])
    as (Hout & _).
  - vm_compute. discriminate.
  - apply ok_server_accepts.
  - reflexivity.
  - set (records := yielded _). vm_compute in records. subst records.
    repeat (constructor; [reflexivity|]). constructor.
  - split; [exact Hout|reflexivity].
Defined.

(** ** The companion tool: counting the values of the columns *)

Lemma unique_for_rows names : forall rounds rows,
  length rows <= rounds ->
  UniqueCount.for_rows rounds names rows
  = dict_of_row names <$> List.filter nonblank rows.
Proof.
  induction rounds as [|rounds IH]; intros rows Hlen.
  - destruct rows; [reflexivity | simpl in Hlen; lia].
  - cbn [UniqueCount.for_rows].
    destruct (dictreader_next names rows) as [[record rest]|] eqn:Hnext.
    + destruct (dictreader_next_Some _ _ _ _ Hnext) as (row & -> & -> & Hlt).
      rewrite fmap_cons, IH by lia. reflexivity.
    + now rewrite (dictreader_next_None _ _ Hnext).
Qed.

(** What the generator of the companion tool does on a file that has a
    header. *)
Lemma unique_extract_records f self enc names rows :
  encoding self = Some enc -> fieldnames self = Some names -> f enc = Rows rows ->
  List.existsb nonblank rows = true ->
  UniqueCount.extract_records f self
  = {| yielded := dict_of_row names <$> data_rows rows; ending := Returns tt |}.
Proof.
  intros He Hn Hf Hex. unfold UniqueCount.extract_records, data_rows.
  rewrite He, Hn, Hf.
  destruct (dictreader_next names rows) as [[record rest]|] eqn:Hnext.
  - destruct (dictreader_next_Some _ _ _ _ Hnext) as (row & _ & -> & _).
    now rewrite unique_for_rows.
  - apply dictreader_next_None in Hnext. exfalso. clear -Hnext Hex.
    induction rows as [|row rows IH]; [discriminate|].
    destruct row; simpl in *; [auto | discriminate].
Qed.

Lemma data_rows_have_a_header rows :
  data_rows rows <> [] -> List.existsb nonblank rows = true.
Proof.
  unfold data_rows. induction rows as [|row rows IH]; [now intros []|].
  destruct row; simpl; auto.
Qed.

Lemma for_items_hashable : forall (items : pydict) (u : UniqueCount.uniques),
  Forall (fun kv => UniqueCount.hashable kv.2 = true) items ->
  UniqueCount.for_items items u
  = Returns (foldl (fun u kv => UniqueCount.update kv.1 kv.2 u) u items).
Proof.
  induction items as [|[k v] items IH]; intros u Hall; [reflexivity|].
  apply Forall_cons in Hall as [Hv Hall]. simpl in *. rewrite Hv. now apply IH.
Qed.

Lemma for_items_unhashable : forall (items rest : pydict) k v (u : UniqueCount.uniques),
  Forall (fun kv => UniqueCount.hashable kv.2 = true) items ->
  UniqueCount.hashable v = false ->
  UniqueCount.for_items (items ++ (k, v) :: rest) u
  = Raises (TypeError ("unhashable type: '" +:+ UniqueCount.type_name v +:+ "'")).
Proof.
  induction items as [|[k0 v0] items IH]; intros rest k v u Hall Hv; simpl.
  - now rewrite Hv.
  - apply Forall_cons in Hall as [Hv0 Hall]. simpl in Hv0. rewrite Hv0. now apply IH.
Qed.

Lemma dict_set_Forall (P : option string * pyval -> Prop) k v (d : pydict) :
  Forall P d -> P (k, v) -> Forall P (dict_set k v d).
Proof.
  intros Hd Hkv. induction Hd as [|[k' v'] d Hx Hd IH]; simpl.
  - now constructor.
  - destruct (bool_decide (k' = k)); constructor; auto.
Qed.

Lemma foldl_dict_set_Forall (P : option string * pyval -> Prop) {A}
    (key : A -> option string) (val : A -> pyval) : forall (l : list A) (d : pydict),
  Forall P d -> (forall a, P (key a, val a)) ->
  Forall P (foldl (fun d a => dict_set (key a) (val a) d) d l).
Proof.
  induction l as [|a l IH]; intros d Hd Hall; [exact Hd|].
  simpl. apply IH; [|exact Hall]. now apply dict_set_Forall.
Qed.

(** The cells under the field names are strings or [None]. *)
Lemma dict_of_row_cells (names row : list string) :
  Forall (fun kv => is_Some kv.1 /\ UniqueCount.hashable kv.2 = true)
         (foldl (fun d kv => dict_set (Some kv.1) (PyString kv.2) d) []
                (zip names row)).
Proof.
  apply (foldl_dict_set_Forall _ (fun kv : string * string => Some kv.1)
           (fun kv => PyString kv.2)); [constructor|].
  intros a. split; [eexists; reflexivity|reflexivity].
Qed.

Lemma dict_of_row_short (names row : list string) :
  length row <= length names ->
  Forall (fun kv => UniqueCount.hashable kv.2 = true) (dict_of_row names row).
Proof.
  intros Hlen. unfold dict_of_row.
  rewrite (proj2 (Nat.ltb_ge _ _) Hlen).
  pose proof (dict_of_row_cells names row) as Hcells.
  assert (Hd : Forall (fun kv : option string * pyval => UniqueCount.hashable kv.2 = true)
                 (foldl (fun d kv => dict_set (Some kv.1) (PyString kv.2) d) []
                        (zip names row)))
    by (eapply Forall_impl; [exact Hcells|now intros ? [_ ?]]).
  destruct (Nat.ltb _ _); [|exact Hd].
  now apply (foldl_dict_set_Forall _ Some (fun _ => PyNone)).
Qed.

Lemma dict_of_row_long (names row : list string) :
  length names < length row ->
  exists d,
    dict_of_row names row = d ++ [(None, PyList (PyString <$> drop (length names) row))]
    /\ Forall (fun kv => UniqueCount.hashable kv.2 = true) d.
Proof.
  intros Hlen. unfold dict_of_row.
  rewrite (proj2 (Nat.ltb_lt _ _) Hlen).
  pose proof (dict_of_row_cells names row) as Hcells.
  eexists. split.
  - apply dict_set_fresh. intros Hin.
    apply list_elem_of_fmap in Hin as (kv & Hkv & Hin).
    rewrite Forall_forall in Hcells. destruct (Hcells kv Hin) as [[s Hs] _].
    rewrite <- Hkv in Hs. discriminate.
  - eapply Forall_impl; [exact Hcells|now intros ? [_ ?]].
Qed.

Lemma unique_for_records_long names : forall (rows : list (list string)) u total,
  Exists (fun row => length names < length row) rows ->
  UniqueCount.for_records (dict_of_row names <$> rows) u total
  = Raises (TypeError "unhashable type: 'list'").
Proof.
  induction rows as [|row rows IH]; intros u total Hex; [now apply Exists_nil in Hex|].
  rewrite fmap_cons. cbn [UniqueCount.for_records].
  destruct (Nat.lt_ge_cases (length names) (length row)) as [Hlong|Hshort].
  - destruct (dict_of_row_long names row Hlong) as (d & -> & Hd).
    now rewrite (for_items_unhashable d [] None _ u Hd).
  - rewrite (for_items_hashable _ u (dict_of_row_short names row Hshort)).
    apply IH. apply Exists_cons in Hex as [Hlong|Hex]; [lia|exact Hex].
Qed.

(** X18.  The companion tool cannot count a file that has a row with more
    cells than the header has names: the cells in excess are a list, a
    list cannot be a key of [uniques[k]], and [process_file] raises
    [TypeError] without having printed a total or a count. *)
Theorem long_row_stops_the_count :
  forall (fuel : nat) (f : file) (self : CsvExtractor) (enc : Encoding)
         (names : list string) (rows : list (list string)),
    init_of csv_unique_count fuel f "" None = (self, Returns tt) ->
    encoding self = Some enc ->
    fieldnames self = Some names ->
    f enc = Rows rows ->
    Exists (fun row => length names < length row) (data_rows rows) ->
    UniqueCount.process_file fuel f
    = (Raises (TypeError "unhashable type: 'list'"), []).
Proof.
  intros fuel f self enc names rows Hinit He Hn Hf Hlong.
  unfold UniqueCount.process_file. rewrite Hinit. cbv zeta.
  rewrite (unique_extract_records f self enc names rows He Hn Hf).
  - cbn [yielded]. now rewrite unique_for_records_long.
  - apply data_rows_have_a_header. intros Hnil. rewrite Hnil in Hlong.
    now apply Exists_nil in Hlong.
Qed.

Lemma long_row_stops_the_count_witness :
  UniqueCount.process_file 0 long_row_file
  = (Raises (TypeError "unhashable type: 'list'"), []).
Proof.
  apply (long_row_stops_the_count 0 long_row_file
           (init_of csv_unique_count 0 long_row_file "" None).1 utf_8_sig
           ["city"; "country"]
           [["city"; "country"]; ["Rome"; "IT"]; ["Paris"; "FR"; "75001"];
            ["Milan"; "IT"]]); try reflexivity.
  apply Exists_cons_tl, Exists_cons_hd. simpl. lia.
Defined.

(** The record of a row that is not longer than the header, by column. *)
Lemma regular_record : forall (names row : list string),
  NoDup names -> length row <= length names ->
  dict_of_row names row
  = imap (fun i k => (Some k, cell_value (row !! i))) names.
Proof.
  intros names row Hnd Hlen. rewrite dict_of_row_distinct by exact Hnd.
  rewrite (proj2 (Nat.ltb_ge _ _) Hlen). clear Hnd.
  revert row Hlen. induction names as [|k names IH]; intros row Hlen.
  - destruct row; [reflexivity|simpl in Hlen; lia].
  - destruct row as [|c row].
    + rewrite zip_with_nil_r. cbn [length drop fmap list_fmap app].
      rewrite (imap_ext _ (fun _ k => (Some k, PyNone))) by (intros [|i] x _; reflexivity).
      symmetry. apply (imap_const (fun k : string => (Some k, PyNone))).
    + simpl in *. f_equal. rewrite IH by lia. apply imap_ext. reflexivity.
Qed.

Lemma update_keys k v (u : UniqueCount.uniques) :
  (UniqueCount.update k v u).*1
  = if bool_decide (k ∈ u.*1) then u.*1 else u.*1 ++ [k].
Proof.
  induction u as [|[k' d] u IH]; [reflexivity|].
  cbn [UniqueCount.update]. rewrite !fmap_cons. cbn [fst].
  destruct (decide (k' = k)) as [->|Hne].
  - rewrite (bool_decide_eq_true_2 (k = k)) by reflexivity.
    rewrite (bool_decide_eq_true_2 (k ∈ k :: u.*1)) by apply list_elem_of_here.
    reflexivity.
  - rewrite (bool_decide_eq_false_2 (k' = k)) by exact Hne.
    rewrite fmap_cons, IH. cbn [fst].
    destruct (decide (k ∈ u.*1)) as [Hin|Hnin].
    + rewrite (bool_decide_eq_true_2 (k ∈ u.*1)) by exact Hin.
      now rewrite (bool_decide_eq_true_2 (k ∈ k' :: u.*1))
        by now apply list_elem_of_further.
    + rewrite (bool_decide_eq_false_2 (k ∈ u.*1)) by exact Hnin.
      rewrite (bool_decide_eq_false_2 (k ∈ k' :: u.*1)); [reflexivity|].
      rewrite elem_of_cons. intros [->|?]; auto.
Qed.

Lemma counts_for_update k k' v (u : UniqueCount.uniques) :
  UniqueCount.counts_for k (UniqueCount.update k' v u)
  = if bool_decide (k' = k) then UniqueCount.bump v (UniqueCount.counts_for k u)
    else UniqueCount.counts_for k u.
Proof.
  induction u as [|[k0 d] u IH]; simpl.
  - destruct (bool_decide (k' = k)); reflexivity.
  - destruct (decide (k0 = k')) as [->|Hne].
    + rewrite (bool_decide_eq_true_2 (k' = k')) by reflexivity. simpl.
      destruct (bool_decide (k' = k)); reflexivity.
    + rewrite (bool_decide_eq_false_2 (k0 = k')) by exact Hne. simpl.
      destruct (decide (k0 = k)) as [->|Hne'].
      * rewrite (bool_decide_eq_true_2 (k = k)) by reflexivity.
        now rewrite (bool_decide_eq_false_2 (k' = k)) by congruence.
      * rewrite (bool_decide_eq_false_2 (k0 = k)) by exact Hne'. exact IH.
Qed.

(** One record leaves the keys [uniques] has as they are, or makes them
    the field names when there was none. *)
Lemma record_keys (g : nat -> pyval) : forall (names : list string) u,
  NoDup names ->
  u.*1 = [] \/ u.*1 = Some <$> names ->
  (foldl (fun u kv => UniqueCount.update kv.1 kv.2 u) u
         (imap (fun i k => (Some k, g i)) names)).*1
  = Some <$> names.
Proof.
  assert (Hin : forall (items : pydict) u,
             (forall k, k ∈ items.*1 -> k ∈ u.*1) ->
             (foldl (fun u kv => UniqueCount.update kv.1 kv.2 u) u items).*1 = u.*1).
  { induction items as [|[k v] items IH]; intros u Hsub; [reflexivity|].
    simpl. rewrite IH.
    - rewrite update_keys, bool_decide_eq_true_2; [reflexivity|].
      apply Hsub. simpl. apply list_elem_of_here.
    - intros k' Hk'. rewrite update_keys.
      rewrite bool_decide_eq_true_2 by (apply Hsub; simpl; apply list_elem_of_here).
      apply Hsub. simpl. now apply list_elem_of_further. }
  assert (Hfresh : forall (items : pydict) u,
             NoDup items.*1 -> (forall k, k ∈ items.*1 -> k ∉ u.*1) ->
             (foldl (fun u kv => UniqueCount.update kv.1 kv.2 u) u items).*1
             = u.*1 ++ items.*1).
  { induction items as [|[k v] items IH]; intros u Hnd Hnew.
    - simpl. now rewrite app_nil_r.
    - simpl in *. apply NoDup_cons in Hnd as [Hk Hnd]. rewrite IH.
      + rewrite update_keys, bool_decide_eq_false_2
          by (apply Hnew, list_elem_of_here).
        now rewrite <- app_assoc.
      + exact Hnd.
      + intros k' Hk'. rewrite update_keys, bool_decide_eq_false_2
          by (apply Hnew, list_elem_of_here).
        rewrite elem_of_app, list_elem_of_singleton. intros [Hin'| ->]; [|contradiction].
        apply (Hnew k'); [now apply list_elem_of_further|exact Hin']. }
  intros names u Hnd Hu.
  assert (Hkeys : (imap (fun i k => (Some k, g i)) names).*1 = Some <$> names).
  { clear. revert g. induction names as [|k names IH]; intros g; [reflexivity|].
    simpl. f_equal. apply IH. }
  destruct Hu as [Hu|Hu].
  - rewrite Hfresh, Hu, Hkeys; [reflexivity| |].
    + rewrite Hkeys. apply (NoDup_fmap_2 Some), Hnd.
    + intros k _. rewrite Hu. apply not_elem_of_nil.
  - rewrite Hin, Hu; [reflexivity|]. intros k. now rewrite Hkeys, Hu.
Qed.

(** One record adds the cell of a column to the values counted for it. *)
Lemma record_counts : forall (names : list string) (g : nat -> pyval) u i k,
  NoDup names -> names !! i = Some k ->
  UniqueCount.counts_for (Some k)
    (foldl (fun u kv => UniqueCount.update kv.1 kv.2 u) u
           (imap (fun i k => (Some k, g i)) names))
  = UniqueCount.bump (g i) (UniqueCount.counts_for (Some k) u).
Proof.
  assert (Hout : forall (names : list string) (g : nat -> pyval) u k,
             k ∉ names ->
             UniqueCount.counts_for (Some k)
               (foldl (fun u kv => UniqueCount.update kv.1 kv.2 u) u
                      (imap (fun i k => (Some k, g i)) names))
             = UniqueCount.counts_for (Some k) u).
  { induction names as [|k0 names IH]; intros g u k Hk; [reflexivity|].
    apply not_elem_of_cons in Hk as [Hne Hk]. simpl.
    etransitivity; [apply (IH (fun i => g (S i))), Hk|].
    rewrite counts_for_update. now rewrite bool_decide_eq_false_2 by congruence. }
  induction names as [|k0 names IH]; intros g u i k Hnd Hi; [discriminate|].
  apply NoDup_cons in Hnd as [Hk0 Hnd]. simpl. destruct i as [|i]; simpl in Hi.
  - injection Hi as ->.
    etransitivity; [apply (Hout names (fun i => g (S i))), Hk0|].
    rewrite counts_for_update. now rewrite bool_decide_eq_true_2.
  - etransitivity; [apply (IH (fun i => g (S i)) _ i k Hnd Hi)|].
    rewrite counts_for_update.
    rewrite bool_decide_eq_false_2; [reflexivity|].
    intros [= ->]. apply Hk0. eapply list_elem_of_lookup_2, Hi.
Qed.

Lemma key_eqb_cells a b :
  UniqueCount.key_eqb (cell_value a) (cell_value b) = bool_decide (a = b).
Proof.
  destruct a as [a|], b as [b|]; simpl; try reflexivity.
  destruct (String.eqb_spec a b) as [->|Hne].
  - now rewrite bool_decide_eq_true_2.
  - rewrite bool_decide_eq_false_2; [reflexivity|congruence].
Qed.

(** The values counted for a column are the values seen in it. *)
Lemma bump_keys c : forall (d : UniqueCount.counts) ks,
  d.*1 = cell_value <$> ks ->
  (UniqueCount.bump (cell_value c) d).*1 = cell_value <$> seen ks c.
Proof.
  unfold seen.
  induction d as [|[v n] d IH]; intros [|a ks] Hd; try discriminate.
  - reflexivity.
  - rewrite !fmap_cons in Hd. cbn [fst] in Hd. injection Hd as -> Hd.
    cbn [UniqueCount.bump]. rewrite key_eqb_cells.
    destruct (decide (a = c)) as [->|Hne].
    + rewrite (bool_decide_eq_true_2 (c = c)) by reflexivity.
      rewrite (bool_decide_eq_true_2 (c ∈ c :: ks)) by apply list_elem_of_here.
      rewrite !fmap_cons. cbn [fst]. now rewrite Hd.
    + rewrite (bool_decide_eq_false_2 (a = c)) by exact Hne.
      rewrite fmap_cons, (IH ks Hd). cbn [fst].
      destruct (decide (c ∈ ks)) as [Hin|Hnin].
      * rewrite (bool_decide_eq_true_2 (c ∈ ks)) by exact Hin.
        now rewrite (bool_decide_eq_true_2 (c ∈ a :: ks))
          by now apply list_elem_of_further.
      * rewrite (bool_decide_eq_false_2 (c ∈ ks)) by exact Hnin.
        rewrite (bool_decide_eq_false_2 (c ∈ a :: ks)); [reflexivity|].
        rewrite elem_of_cons. intros [->|?]; auto.
Qed.

Lemma column_keys : forall (cs : list (option string)) (d : UniqueCount.counts) ks,
  d.*1 = cell_value <$> ks ->
  (foldl (fun d c => UniqueCount.bump (cell_value c) d) d cs).*1
  = cell_value <$> foldl seen ks cs.
Proof.
  induction cs as [|c cs IH]; intros d ks Hd; [exact Hd|].
  simpl. apply IH. now apply bump_keys.
Qed.

Lemma seen_spec : forall (cs ks : list (option string)),
  NoDup ks ->
  NoDup (foldl seen ks cs)
  /\ forall x, x ∈ foldl seen ks cs <-> x ∈ ks \/ x ∈ cs.
Proof.
  induction cs as [|c cs IH]; intros ks Hnd; simpl.
  - split; [exact Hnd|]. intros x. rewrite elem_of_nil. tauto.
  - assert (Hseen : NoDup (seen ks c) /\ forall x, x ∈ seen ks c <-> x ∈ ks \/ x = c).
    { unfold seen. destruct (decide (c ∈ ks)) as [Hin|Hnin].
      - rewrite bool_decide_eq_true_2 by exact Hin. split; [exact Hnd|].
        intros x. split; [tauto|]. now intros [?| ->].
      - rewrite bool_decide_eq_false_2 by exact Hnin. split.
        + apply NoDup_app. split; [exact Hnd|]. split; [|apply NoDup_singleton].
          intros x Hx Hc. apply list_elem_of_singleton in Hc as ->. contradiction.
        + intros x. now rewrite elem_of_app, list_elem_of_singleton. }
    destruct Hseen as [Hnd' Hel]. destruct (IH (seen ks c) Hnd') as [Hnd'' Hel'].
    split; [exact Hnd''|]. intros x. rewrite Hel', Hel, elem_of_cons. tauto.
Qed.

Lemma column_distinct (cs : list (option string)) :
  length (foldl (fun d c => UniqueCount.bump (cell_value c) d) [] cs) = distinct cs.
Proof.
  rewrite <- (length_fmap fst), (column_keys cs [] []) by reflexivity.
  rewrite length_fmap. unfold distinct.
  destruct (seen_spec cs [] (NoDup_nil_2)) as [Hnd Hel].
  apply Permutation_length, NoDup_Permutation;
    [exact Hnd|apply NoDup_remove_dups|].
  intros x. rewrite Hel, elem_of_remove_dups, elem_of_nil. tauto.
Qed.

(** The loop over the records of rows that are not longer than the
    header. *)
Lemma unique_for_records_regular names :
  NoDup names ->
  forall (rows : list (list string)) u total,
    Forall (fun row => length row <= length names) rows ->
    UniqueCount.for_records (dict_of_row names <$> rows) u total
    = Returns
        (foldl (fun u (row : list string) =>
                  foldl (fun u kv => UniqueCount.update kv.1 kv.2 u) u
                        (imap (fun i k => (Some k, cell_value (row !! i))) names))
               u rows,
         total + length rows).
Proof.
  intros Hnd. induction rows as [|row rows IH]; intros u total Hall.
  - simpl. now rewrite Nat.add_0_r.
  - apply Forall_cons in Hall as [Hrow Hall].
    rewrite fmap_cons. cbn [UniqueCount.for_records].
    rewrite (for_items_hashable _ u (dict_of_row_short names row Hrow)).
    rewrite (regular_record names row Hnd Hrow), (IH _ _ Hall).
    cbn [foldl length]. do 2 f_equal. lia.
Qed.

Lemma regular_keys names :
  NoDup names ->
  forall (rows : list (list string)) (u : UniqueCount.uniques),
    u.*1 = [] \/ u.*1 = Some <$> names ->
    (foldl (fun u (row : list string) =>
              foldl (fun u kv => UniqueCount.update kv.1 kv.2 u) u
                    (imap (fun i k => (Some k, cell_value (row !! i))) names))
           u rows).*1
    = match rows with [] => u.*1 | _ => Some <$> names end.
Proof.
  intros Hnd. induction rows as [|row rows IH]; intros u Hu; [reflexivity|].
  cbn [foldl]. rewrite IH.
  - destruct rows; [|reflexivity].
    apply (record_keys (fun i => cell_value (row !! i))); assumption.
  - right. apply (record_keys (fun i => cell_value (row !! i))); assumption.
Qed.

Lemma regular_counts names i k :
  NoDup names -> names !! i = Some k ->
  forall (rows : list (list string)) (u : UniqueCount.uniques),
    UniqueCount.counts_for (Some k)
      (foldl (fun u (row : list string) =>
                foldl (fun u kv => UniqueCount.update kv.1 kv.2 u) u
                      (imap (fun i k => (Some k, cell_value (row !! i))) names))
             u rows)
    = foldl (fun d c => UniqueCount.bump (cell_value c) d)
            (UniqueCount.counts_for (Some k) u) (column i rows).
Proof.
  intros Hnd Hi. induction rows as [|row rows IH]; intros u; [reflexivity|].
  cbn [foldl]. rewrite IH.
  rewrite (record_counts names (fun i => cell_value (row !! i)) u i k Hnd Hi).
  reflexivity.
Qed.

Lemma uniques_by_key : forall (u : UniqueCount.uniques),
  NoDup u.*1 -> u = (fun k => (k, UniqueCount.counts_for k u)) <$> u.*1.
Proof.
  induction u as [|[k d] u IH]; intros Hnd; [reflexivity|].
  rewrite !fmap_cons in *. cbn [fst] in *. apply NoDup_cons in Hnd as [Hk Hnd].
  cbn [UniqueCount.counts_for]. rewrite (bool_decide_eq_true_2 (k = k)) by reflexivity.
  f_equal. rewrite (IH Hnd) at 1. apply list_fmap_ext.
  intros j k' Hk'. f_equal.
  rewrite bool_decide_eq_false_2; [reflexivity|].
  intros ->. apply Hk. eapply list_elem_of_lookup_2, Hk'.
Qed.

(** The counts after the loop: one for each field name, in the order of
    the header. *)
Lemma regular_count names (rows : list (list string)) :
  NoDup names -> rows <> [] ->
  UniqueCount.count
    (foldl (fun u (row : list string) =>
              foldl (fun u kv => UniqueCount.update kv.1 kv.2 u) u
                    (imap (fun i k => (Some k, cell_value (row !! i))) names))
           [] rows)
  = imap (fun i k => (Some k, distinct (column i rows))) names.
Proof.
  intros Hnd Hrows.
  match goal with |- UniqueCount.count ?x = _ => set (u := x) end.
  assert (Hkeys : u.*1 = Some <$> names).
  { unfold u. rewrite (regular_keys names Hnd rows []) by now left.
    now destruct rows. }
  assert (Hu : NoDup u.*1) by (rewrite Hkeys; apply (NoDup_fmap_2 Some), Hnd).
  unfold UniqueCount.count. rewrite (uniques_by_key u Hu), Hkeys.
  rewrite <- !list_fmap_compose. apply list_eq. intros i.
  rewrite list_lookup_fmap, list_lookup_imap.
  destruct (names !! i) as [k|] eqn:Hi; [|reflexivity].
  simpl. do 2 f_equal. unfold u.
  rewrite (regular_counts names i k Hnd Hi rows []). apply column_distinct.
Qed.

(** X19.  For a file with distinct field names and no row longer than the
    header, the companion tool prints the number of data rows as the
    total and, when there is a data row, one line for each column with
    the number of different values in it, a cell that a short row lacks
    counting as one more value; the lines are ordered by that number,
    largest first.  A file with a header only gets the total and no
    column line. *)
Theorem unique_counts_of_a_regular_file :
  forall (fuel : nat) (f : file) (self : CsvExtractor) (enc : Encoding)
         (names : list string) (rows : list (list string)),
    init_of csv_unique_count fuel f "" None = (self, Returns tt) ->
    encoding self = Some enc ->
    fieldnames self = Some names ->
    f enc = Rows rows ->
    List.existsb nonblank rows = true ->
    NoDup names ->
    Forall (fun row => length row <= length names) (data_rows rows) ->
    UniqueCount.process_file fuel f
    = (Returns tt,
       Stdout <$> UniqueCount.report (length (data_rows rows))
                    match data_rows rows with
                    | [] => []
                    | _ => imap (fun i k => (Some k, distinct (column i (data_rows rows))))
                                names
                    end).
Proof.
  intros fuel f self enc names rows Hinit He Hn Hf Hheader Hnd Hall.
  unfold UniqueCount.process_file. rewrite Hinit. cbv zeta.
  rewrite (unique_extract_records f self enc names rows He Hn Hf Hheader).
  cbn [yielded ending].
  rewrite (unique_for_records_regular names Hnd _ [] 0 Hall). cbn [Nat.add].
  destruct (data_rows rows) as [|row data] eqn:Hdata; [reflexivity|].
  now rewrite (regular_count names (row :: data) Hnd).
Qed.

Lemma unique_counts_of_a_regular_file_witness :
  UniqueCount.process_file 0 cities_file
  = (Returns tt,
     [Stdout "Total: 4"; Stdout "zip: 4"; Stdout "city: 3"; Stdout "country: 2"]).
Proof.
  rewrite (unique_counts_of_a_regular_file 0 cities_file
             (init_of csv_unique_count 0 cities_file "" None).1 utf_8_sig
             ["city"; "country"; "zip"]
             [["city"; "country"; "zip"]; ["Rome"; "IT"; "00100"]; ["Milan"; "IT"];
              []; ["Paris"; "FR"; "75001"]; ["Rome"; "IT"; "00118"]]);
    try reflexivity.
  - repeat constructor; rewrite ?elem_of_cons, ?elem_of_nil; intuition discriminate.
  - repeat constructor.
Defined.

Lemma insert_by_count_Permutation x l : UniqueCount.insert_by_count x l ≡ₚ x :: l.
Proof.
  induction l as [|y l IH]; [reflexivity|]. simpl.
  destruct (Nat.leb y.2 x.2); [reflexivity|].
  rewrite IH. apply Permutation_swap.
Qed.

Lemma insert_by_count_sorted x l :
  StronglySorted (fun a b : option string * nat => b.2 <= a.2) l ->
  StronglySorted (fun a b : option string * nat => b.2 <= a.2)
                 (UniqueCount.insert_by_count x l).
Proof.
  induction 1 as [|y l Hl IH Hy]; simpl.
  - repeat constructor.
  - destruct (Nat.leb_spec y.2 x.2) as [Hle|Hlt].
    + constructor; [now constructor|]. constructor; [exact Hle|].
      eapply Forall_impl; [exact Hy|]. simpl. intros z Hz. lia.
    + constructor; [exact IH|].
      rewrite insert_by_count_Permutation. constructor; [lia|exact Hy].
Qed.

Lemma insert_by_count_filter (n : nat) x l :
  filter (fun a : option string * nat => a.2 = n) (UniqueCount.insert_by_count x l)
  = filter (fun a : option string * nat => a.2 = n) (x :: l).
Proof.
  induction l as [|y l IH]; [reflexivity|]. simpl.
  destruct (Nat.leb_spec y.2 x.2) as [Hle|Hlt]; [reflexivity|].
  rewrite (filter_cons _ y), IH, !(filter_cons _ x), !(filter_cons _ y).
  destruct (decide (x.2 = n)) as [Hx|Hx]; [|reflexivity].
  destruct (decide (y.2 = n)) as [Hy|Hy]; [lia|reflexivity].
Qed.

(** X20.  The column lines of the companion tool are those of the
    columns, each once, in descending order of their numbers; columns
    with the same number keep the order they have in the header. *)
Theorem count_lines_are_ordered :
  forall (l : list (option string * nat)),
    UniqueCount.sorted l ≡ₚ l
    /\ StronglySorted (fun a b => b.2 <= a.2) (UniqueCount.sorted l)
    /\ forall n : nat,
         filter (fun a : option string * nat => a.2 = n) (UniqueCount.sorted l)
         = filter (fun a : option string * nat => a.2 = n) l.
Proof.
  induction l as [|x l (Hperm & Hsorted & Hstable)].
  - split; [reflexivity|]. split; [constructor|reflexivity].
  - cbn [UniqueCount.sorted foldr]. fold (UniqueCount.sorted l).
    split; [|split].
    + now rewrite insert_by_count_Permutation, Hperm.
    + now apply insert_by_count_sorted.
    + intros n. rewrite insert_by_count_filter, !(filter_cons _ x), Hstable.
      reflexivity.
Qed.
